(** * Spateo: pixel scoring / masking (icell.py) and spatial clustering
      (find_clusters.py), embedded shallowly.

    Conventions of the embedding.
    - A Python function that mutates its [AnnData] argument, calls library
      code and may raise is a computation in the monad [M St A]: it
      threads a state, and ends either with a value or with the exception
      raised; the state reached at a [raise] is kept, as in Python.
    - Calls of library code that is not part of the two modules (skimage,
      OpenCV, the segmentation helpers [utils], [em], [vi], [bp], [moran],
      SpaGCN, dynamo) are fields of an interface record; each call is also
      appended to a call log, so that the order of calls can be stated.
    - A numpy array is a 2-D image: a dtype, a shape and a pixel function.
      Floating-point numbers are idealised as exact rationals ([Qc]). *)

From Stdlib Require Import ZArith QArith Qcanon String Ascii List Lia DecimalString.
From stdpp Require Import base option numbers functions gmap strings list fin_maps.

Local Open Scope string_scope.

(* ===================================================================== *)
(** ** Python: exceptions, results, the state-and-exception monad        *)
(* ===================================================================== *)

Module Py.

Inductive exn : Set :=
| PreprocessingError
| KeyError
| IndexError
| ValueError
| TypeError
| ZeroDivisionError
| UnboundLocalError.

Inductive result (A : Type) : Type :=
| Ok (a : A)
| Raise (e : exn).
Arguments Ok {A} a.
Arguments Raise {A} e.

(** A computation over a state [St]. *)
Definition M (St A : Type) : Type := St -> St * result A.

Definition ret {St A} (a : A) : M St A := fun s => (s, Ok a).

Definition bind {St A B} (c : M St A) (k : A -> M St B) : M St B :=
  fun s => match c s with
           | (s', Ok a) => k a s'
           | (s', Raise e) => (s', Raise e)
           end.

Definition raise {St A} (e : exn) : M St A := fun s => (s, Raise e).

(** A pure step that may raise. *)
Definition lift {St A} (r : result A) : M St A := fun s => (s, r).

(** Truthiness of the values the two modules test with [if x], [not x]
    and [x or default]. *)
Definition truthy_str (s : string) : bool :=
  match s with EmptyString => false | _ => true end.

Definition truthy_opt_str (o : option string) : bool :=
  match o with Some s => truthy_str s | None => false end.

Definition truthy_opt_Qc (o : option Qc) : bool :=
  match o with Some q => negb (bool_decide (q = 0%Qc)) | None => false end.

(** [a or b] on optional strings and integers. *)
Definition or_str (o : option string) (dflt : string) : string :=
  match o with
  | Some s => if truthy_str s then s else dflt
  | None => dflt
  end.

Definition or_Z (o : option Z) (dflt : Z) : Z :=
  match o with
  | Some z => if (z =? 0)%Z then dflt else z
  | None => dflt
  end.

(** [str.lower()], on the ASCII range. *)
Definition lower_ascii (c : ascii) : ascii :=
  let n := nat_of_ascii c in
  if (65 <=? n)%nat && (n <=? 90)%nat then ascii_of_nat (n + 32) else c.

Fixpoint lower (s : string) : string :=
  match s with
  | EmptyString => EmptyString
  | String c r => String (lower_ascii c) (lower r)
  end.

(** [sub in s] on strings. *)
Fixpoint contains (sub s : string) : bool :=
  String.prefix sub s ||
  match s with
  | EmptyString => false
  | String _ r => contains sub r
  end.

(** [x in (a, b, ...)] on a tuple of strings. *)
Definition in_tuple (x : string) (t : list string) : bool :=
  existsb (String.eqb x) t.

(** [l[i]] on a Python list, negative indices counting from the end. *)
Definition index {A} (l : list A) (i : Z) : result A :=
  let n := Z.of_nat (length l) in
  let j := if (i <? 0)%Z then (i + n)%Z else i in
  if (j <? 0)%Z then Raise IndexError
  else match nth_error l (Z.to_nat j) with
       | Some x => Ok x
       | None => Raise IndexError
       end.

(** [str(i)] of an integer. *)
Definition str_of_Z (z : Z) : string := NilZero.string_of_int (Z.to_int z).

(** A [str] object. CPython keeps one shared object per string constant of
    the program text that looks like an identifier (interning); a string
    built at run time is an object of its own, at its own address. *)
Inductive pystr : Type :=
| Interned (s : string)
| Fresh (addr : nat) (s : string).

Definition str_val (p : pystr) : string :=
  match p with Interned s => s | Fresh _ s => s end.

(** [a is b]: object identity. *)
Definition py_is (a b : pystr) : bool :=
  match a, b with
  | Interned s, Interned t => String.eqb s t
  | Fresh m _, Fresh n _ => (m =? n)%nat
  | _, _ => false
  end.

(** [a == b]: equality of the values. *)
Definition py_eq (a b : pystr) : bool := String.eqb (str_val a) (str_val b).

End Py.

Import Py.

#[global] Instance M_ret {St} : MRet (M St) := @Py.ret St.
#[global] Instance M_bind {St} : MBind (M St) := fun A B k c => @Py.bind St A B c k.

#[global] Instance result_ret : MRet result := @Ok.
#[global] Instance result_bind : MBind result :=
  fun A B k r => match r with Ok a => k a | Raise e => Raise e end.

(** A list comprehension whose body may raise. *)
Fixpoint mapR {A B} (f : A -> result B) (l : list A) : result (list B) :=
  match l with
  | [] => Ok []
  | x :: r => y ← f x; ys ← mapR f r; Ok (y :: ys)
  end.

(* ===================================================================== *)
(** ** numpy: 2-D arrays, boolean masks, broadcasting                    *)
(* ===================================================================== *)

Module Np.

Definition shape : Type := nat * nat.

Inductive dtype : Set := uint8 | int64 | float64 | bool_.

(** A numeric array. [sparse] tells a scipy sparse matrix from a dense
    array. *)
Record ndarray : Type := mk_ndarray {
  dt : dtype;
  sparse : bool;
  shp : shape;
  px : nat -> nat -> Qc
}.

(** An array of dtype bool. *)
Record mask : Type := mk_mask {
  mshp : shape;
  mpx : nat -> nat -> bool
}.

Definition shape_eqb (s t : shape) : bool :=
  (s.1 =? t.1)%nat && (s.2 =? t.2)%nat.

(** Broadcasting of one axis: the lengths agree or one of them is 1. *)
Definition bdim (a b : nat) : option nat :=
  if (a =? b)%nat then Some a
  else if (a =? 1)%nat then Some b
  else if (b =? 1)%nat then Some a
  else None.

Definition broadcast (s t : shape) : option shape :=
  match bdim s.1 t.1, bdim s.2 t.2 with
  | Some r, Some c => Some (r, c)
  | _, _ => None
  end.

(** Index into an axis of length [dim] of a broadcast operand. *)
Definition bidx (dim i : nat) : nat := if (dim =? 1)%nat then 0%nat else i.

Definition bget {A} (s : shape) (p : nat -> nat -> A) (i j : nat) : A :=
  p (bidx s.1 i) (bidx s.2 j).

(** [X.A] / [make_dense=True]. *)
Definition todense (a : ndarray) : ndarray :=
  {| dt := dt a; sparse := false; shp := shp a; px := px a |}.

(** [a.astype(bool)]. *)
Definition astype_bool (a : ndarray) : mask :=
  {| mshp := shp a; mpx := fun i j => negb (bool_decide (px a i j = 0%Qc)) |}.

(** A boolean array seen as an array of the layer store. *)
Definition of_mask (m : mask) : ndarray :=
  {| dt := bool_; sparse := false; shp := mshp m;
     px := fun i j => if mpx m i j then 1%Qc else 0%Qc |}.

(** [X >= t], [X < t], [X > t] against a scalar. *)
Definition ge_scalar (a : ndarray) (t : Qc) : mask :=
  {| mshp := shp a; mpx := fun i j => bool_decide (t ≤ px a i j)%Qc |}.

Definition lt_scalar (a : ndarray) (t : Qc) : mask :=
  {| mshp := shp a; mpx := fun i j => bool_decide (px a i j < t)%Qc |}.

Definition gt_scalar (a : ndarray) (t : Qc) : mask :=
  {| mshp := shp a; mpx := fun i j => bool_decide (t < px a i j)%Qc |}.

(** [X > Y] between two arrays. *)
Definition gt (a b : ndarray) : result mask :=
  match broadcast (shp a) (shp b) with
  | Some s =>
      Ok {| mshp := s;
            mpx := fun i j =>
              bool_decide (bget (shp b) (px b) i j < bget (shp a) (px a) i j)%Qc |}
  | None => Raise ValueError
  end.

(** [~m] and [m & n] on boolean arrays. *)
Definition invert (m : mask) : mask :=
  {| mshp := mshp m; mpx := fun i j => negb (mpx m i j) |}.

Definition and_ (m n : mask) : result mask :=
  match broadcast (mshp m) (mshp n) with
  | Some s =>
      Ok {| mshp := s;
            mpx := fun i j =>
              bget (mshp m) (mpx m) i j && bget (mshp n) (mpx n) i j |}
  | None => Raise ValueError
  end.

(** [m += n] on boolean arrays: in place, so [n] must broadcast to the
    shape of [m]; addition of booleans is disjunction. *)
Definition iadd_mask (m n : mask) : result mask :=
  match broadcast (mshp m) (mshp n) with
  | Some s =>
      if shape_eqb s (mshp m)
      then Ok {| mshp := mshp m;
                 mpx := fun i j => mpx m i j || bget (mshp n) (mpx n) i j |}
      else Raise ValueError
  | None => Raise ValueError
  end.

(** [a + m], a numeric array plus a boolean array (True counts 1). *)
Definition add_mask (a : ndarray) (m : mask) : result ndarray :=
  match broadcast (shp a) (mshp m) with
  | Some s =>
      Ok {| dt := dt a; sparse := false; shp := s;
            px := fun i j =>
              (bget (shp a) (px a) i j
               + (if bget (mshp m) (mpx m) i j then 1 else 0))%Qc |}
  | None => Raise ValueError
  end.

(** [np.clip(a, lo, hi)]. *)
Definition clip_val (lo hi x : Qc) : Qc :=
  if bool_decide (x < lo)%Qc then lo
  else if bool_decide (hi < x)%Qc then hi
  else x.

Definition clip (a : ndarray) (lo hi : Qc) : ndarray :=
  {| dt := dt a; sparse := sparse a; shp := shp a;
     px := fun i j => clip_val lo hi (px a i j) |}.

(** [a[m] = v]: assignment through a boolean index of the same shape. *)
Definition set_where (a : ndarray) (m : mask) (v : Qc) : result ndarray :=
  if shape_eqb (shp a) (mshp m)
  then Ok {| dt := dt a; sparse := sparse a; shp := shp a;
             px := fun i j => if mpx m i j then v else px a i j |}
  else Raise IndexError.

(** [a.max()]: the pixels in row-major order, and their maximum. *)
Definition pixels (a : ndarray) : list Qc :=
  flat_map (fun i => map (px a i) (seq 0 (shp a).2)) (seq 0 (shp a).1).

Definition Qc_max (x y : Qc) : Qc := if bool_decide (x < y)%Qc then y else x.

Definition amax (a : ndarray) : result Qc :=
  match pixels a with
  | [] => Raise ValueError
  | x :: r => Ok (fold_left Qc_max r x)
  end.

(** [a /= v] with a scalar: true division in place, refused on integer
    and boolean arrays. For [v = 0] numpy fills the array with [nan] and
    [inf], which rational pixels do not represent: what is stated about
    the pixels of the quotient is stated for a divisor that is not 0. *)
Definition idiv_scalar (a : ndarray) (v : Qc) : result ndarray :=
  match dt a with
  | float64 =>
      Ok {| dt := float64; sparse := sparse a; shp := shp a;
            px := fun i j => (px a i j / v)%Qc |}
  | _ => Raise TypeError
  end.

End Np.

Import Np.

(* ===================================================================== *)
(** ** AnnData: the annotated matrix                                      *)
(* ===================================================================== *)

Module Anndata.

(** A cell of a pandas column: an integer, a float or a string. *)
Inductive cell : Type :=
| VInt (z : Z)
| VNum (q : Qc)
| VStr (s : string).

Inductive col_dtype : Set := col_int64 | col_float64 | col_object | col_category.

Record column : Type := mk_column {
  col_dt : col_dtype;
  col_vals : list cell
}.

(** [adata.obs]: a pandas DataFrame, one row per observation. *)
Record DataFrame : Type := mk_df {
  df_index : list string;
  df_cols : gmap string column
}.

Definition matrix : Type := list (list Qc).

Inductive uns_val : Type :=
| UnsMatrix (a : matrix)
| UnsDict (d : gmap string Qc).

Record AnnData : Type := mk_adata {
  X : ndarray;
  obs : DataFrame;
  obsm : gmap string matrix;
  uns : gmap string uns_val;
  layers : gmap string ndarray
}.

Definition with_layers (f : gmap string ndarray -> gmap string ndarray)
    (a : AnnData) : AnnData :=
  {| X := X a; obs := obs a; obsm := obsm a; uns := uns a;
     layers := f (layers a) |}.

Definition with_uns (f : gmap string uns_val -> gmap string uns_val)
    (a : AnnData) : AnnData :=
  {| X := X a; obs := obs a; obsm := obsm a; uns := f (uns a);
     layers := layers a |}.

Definition with_obsm (f : gmap string matrix -> gmap string matrix)
    (a : AnnData) : AnnData :=
  {| X := X a; obs := obs a; obsm := f (obsm a); uns := uns a;
     layers := layers a |}.

Definition with_obs (f : DataFrame -> DataFrame) (a : AnnData) : AnnData :=
  {| X := X a; obs := f (obs a); obsm := obsm a; uns := uns a;
     layers := layers a |}.

(** The empty object, read where a reference denotes no object. *)
Definition empty_array : ndarray :=
  {| dt := float64; sparse := false; shp := (0, 0)%nat; px := fun _ _ => 0%Qc |}.

#[global] Instance AnnData_inhabited : Inhabited AnnData :=
  populate {| X := empty_array;
              obs := {| df_index := []; df_cols := ∅ |};
              obsm := ∅; uns := ∅; layers := ∅ |}.

End Anndata.

Import Anndata.

(* ===================================================================== *)
(** ** SKM: the layer-key manager of [spateo.configuration]               *)
(* ===================================================================== *)

Module SKM.

Definition SCORES_SUFFIX : string := "scores".
Definition MASK_SUFFIX : string := "mask".
Definition BINS_SUFFIX : string := "bins".

(** Modelled from the spec: [SKM.gen_new_layer_key] is defined in
    [spateo/configuration.py], which is not among the sources; the
    derived layer names are described as [{layer}_scores],
    [{layer}_mask] and [{layer}_bins]. *)
Definition gen_new_layer_key (layer suffix : string) : string :=
  layer ++ "_" ++ suffix.

(** Modelled from the spec: [SKM.select_layer_data] is defined in
    [spateo/configuration.py], which is not among the sources; it reads
    the named layer of [adata.layers] (a missing key is a [KeyError]),
    as a dense array when [make_dense] is set. *)
Definition select_layer_data (adata : AnnData) (layer : string)
    (make_dense : bool) : result ndarray :=
  match layers adata !! layer with
  | Some a => Ok (if make_dense && sparse a then todense a else a)
  | None => Raise KeyError
  end.

(** Modelled from the spec: [SKM.set_layer_data] is defined in
    [spateo/configuration.py], which is not among the sources; it stores
    the array in [adata.layers] under the given name. *)
Definition set_layer_data (adata : AnnData) (layer : string)
    (vals : ndarray) : AnnData :=
  with_layers (fun ls => <[layer := vals]> ls) adata.

End SKM.

(* ===================================================================== *)
(** ** spateo/preprocessing/segmentation/icell.py                         *)
(* ===================================================================== *)

Module Icell.

(** Keyword arguments handed on to an estimator. *)
Abbreviation kwargs := (gmap string Qc).

(** Fitted parameters of the EM and of the VI model. *)
Definition params : Type := list Qc.

Inductive conv_mode : Set := gauss | circle.

(** The library code [icell.py] calls: skimage's [filters], OpenCV, and
    the sibling modules [utils], [moran], [em], [vi] and [bp]. *)
Record SegLib : Type := mk_seglib {
  threshold_multiotsu : ndarray -> nat -> list Qc;
  threshold_otsu : ndarray -> Qc;
  threshold_local : ndarray -> Z -> Z -> ndarray;
  adaptiveThreshold : ndarray -> Z -> Z -> ndarray;
  mclose_mopen : mask -> Z -> mask;
  apply_threshold : ndarray -> Z -> Qc -> mask;
  conv2d : ndarray -> Z -> conv_mode -> option ndarray -> ndarray;
  scale_to_01 : ndarray -> ndarray;
  run_moran : ndarray -> option mask -> kwargs -> ndarray;
  run_em : ndarray -> option ndarray -> kwargs -> params;
  em_conditionals : ndarray -> params -> option ndarray -> ndarray * ndarray;
  em_confidence : ndarray -> params -> option ndarray -> ndarray;
  run_vi : ndarray -> option ndarray -> kwargs -> params;
  vi_conditionals : ndarray -> params -> option ndarray -> ndarray * ndarray;
  run_bp : ndarray -> ndarray -> kwargs -> ndarray
}.

(** One entry of the call log per library call and per access to the
    layers of [adata]. Calls of the logger are not recorded. *)
Inductive call : Type :=
| SelectLayer (layer : string)
| SetLayer (layer : string)
| ThresholdMultiotsu (classes : nat)
| ThresholdOtsu
| ThresholdLocal
| AdaptiveThreshold
| McloseMopen (k : Z)
| ApplyThreshold (k : Z) (threshold : Qc)
| Conv2d (mode : conv_mode)
| ScaleTo01
| RunMoran
| RunEM
| EmConditionals
| EmConfidence
| RunVI
| ViConditionals
| RunBP.

(** The state: the [AnnData] the caller passed, and the call log. *)
Record world : Type := mk_world {
  adata : AnnData;
  calls : list call
}.

(** A library call: log it, return its value. *)
Definition ext {A} (c : call) (v : A) : M world A :=
  fun w => ({| adata := adata w; calls := calls w ++ [c] |}, Ok v).

Definition read_adata : M world AnnData := fun w => (w, Ok (adata w)).

(** [SKM.select_layer_data(adata, layer, make_dense=...)]. *)
Definition select_layer_data (layer : string) (make_dense : bool)
    : M world ndarray :=
  fun w => ({| adata := adata w; calls := calls w ++ [SelectLayer layer] |},
            SKM.select_layer_data (adata w) layer make_dense).

(** [SKM.set_layer_data(adata, layer, vals)]. *)
Definition set_layer_data (layer : string) (vals : ndarray) : M world unit :=
  fun w => ({| adata := SKM.set_layer_data (adata w) layer vals;
               calls := calls w ++ [SetLayer layer] |}, Ok tt).

(** [d or {}]. *)
Definition or_dict (d : option kwargs) : kwargs := default ∅ d.

Definition valid_methods : list string :=
  ["gauss"; "moran"; "em"; "em+gauss"; "em+bp"; "vi+gauss"; "vi+bp"].

(** The estimators a method name stands for, as the documentation of
    [_score_pixels] lists them (a Gaussian blur, Moran's I, EM, VI, belief
    propagation), in the order they run: the calls expected of a
    dispatcher, stated without looking at its body. *)
Definition documented_estimators (method : string) : list call :=
  if String.eqb method "gauss" then [Conv2d gauss; ScaleTo01]
  else if String.eqb method "moran" then [Conv2d gauss; RunMoran]
  else if String.eqb method "em" then [Conv2d circle; RunEM; EmConfidence]
  else if String.eqb method "em+gauss" then
    [Conv2d circle; RunEM; EmConfidence; Conv2d gauss]
  else if String.eqb method "em+bp" then
    [Conv2d circle; RunEM; EmConditionals; RunBP]
  else if String.eqb method "vi+gauss" then
    [Conv2d circle; RunVI; ViConditionals; Conv2d gauss]
  else if String.eqb method "vi+bp" then
    [Conv2d circle; RunVI; ViConditionals; RunBP]
  else [].

Section WithLib.

Variable lib : SegLib.

Definition _mask_cells_from_stain (X : ndarray) (otsu_classes : nat)
    (otsu_index : Z) (mk : Z) : M world mask :=
  thresholds ← ext (ThresholdMultiotsu otsu_classes)
                   (threshold_multiotsu lib X otsu_classes);
  t ← lift (index thresholds otsu_index);
  ext (McloseMopen mk) (mclose_mopen lib (ge_scalar X t) mk).

Definition _mask_nuclei_from_stain (X : ndarray) (otsu_classes : nat)
    (otsu_index : Z) (local_k : Z) (offset : Z) (mk : Z) : M world mask :=
  thresholds ← ext (ThresholdMultiotsu otsu_classes)
                   (threshold_multiotsu lib X otsu_classes);
  t ← lift (index thresholds otsu_index);
  let background_mask := lt_scalar X t in
  local_mask ←
    match dt X with
    | uint8 =>
        a ← ext AdaptiveThreshold (adaptiveThreshold lib X local_k offset);
        mret (astype_bool a)
    | _ =>
        th ← ext ThresholdLocal (threshold_local lib X local_k offset);
        lift (gt X th)
    end;
  fg ← lift (and_ (invert background_mask) local_mask);
  ext (McloseMopen mk) (mclose_mopen lib fg mk).

Definition mask_cells_from_stain (otsu_classes : nat) (otsu_index : Z)
    (mk : Z) (layer : string) (out_layer : option string) : M world unit :=
  ad ← read_adata;
  if negb (bool_decide (layer ∈ dom (layers ad)))
  then raise PreprocessingError
  else
    X ← select_layer_data layer true;
    mask ← _mask_cells_from_stain X otsu_classes otsu_index mk;
    let out_layer :=
      or_str out_layer (SKM.gen_new_layer_key layer SKM.MASK_SUFFIX) in
    set_layer_data out_layer (of_mask mask).

Definition mask_nuclei_from_stain (otsu_classes : nat) (otsu_index : Z)
    (local_k : Z) (offset : Z) (mk : Z) (layer : string)
    (out_layer : option string) : M world unit :=
  ad ← read_adata;
  if negb (bool_decide (layer ∈ dom (layers ad)))
  then raise PreprocessingError
  else
    X ← select_layer_data layer true;
    mask ← _mask_nuclei_from_stain X otsu_classes otsu_index local_k
             (- offset) mk;
    let out_layer :=
      or_str out_layer (SKM.gen_new_layer_key layer SKM.MASK_SUFFIX) in
    set_layer_data out_layer (of_mask mask).

(** The three guards at the head of [_score_pixels]. *)
Definition bad_shape_mask (X : ndarray) (certain_mask : option mask) : bool :=
  match certain_mask with
  | Some c => negb (shape_eqb (shp X) (mshp c))
  | None => false
  end.

Definition bad_shape_bins (X : ndarray) (bins : option ndarray) : bool :=
  match bins with
  | Some b => negb (shape_eqb (shp X) (shp b))
  | None => false
  end.

Definition _score_pixels (X : ndarray) (k : Z) (method : string)
    (moran_kwargs em_kwargs vi_kwargs bp_kwargs : option kwargs)
    (certain_mask : option mask) (bins : option ndarray) : M world ndarray :=
  if negb (in_tuple (lower method) valid_methods)
  then raise PreprocessingError
  else if bad_shape_mask X certain_mask
  then raise PreprocessingError
  else if bad_shape_bins X bins
  then raise PreprocessingError
  else
    let method := lower method in
    let moran_kwargs := or_dict moran_kwargs in
    let em_kwargs := or_dict em_kwargs in
    let vi_kwargs := or_dict vi_kwargs in
    let bp_kwargs := or_dict bp_kwargs in
    let X := if sparse X then todense X else X in
    let mode := if in_tuple method ["gauss"; "moran"] then gauss else circle in
    res ← ext (Conv2d mode) (conv2d lib X k mode bins);
    if String.eqb method "gauss" then
      ext ScaleTo01 (scale_to_01 lib res)
    else if String.eqb method "moran" then
      res ← ext RunMoran
              (run_moran lib res
                 (match bins with
                  | None => None
                  | Some b => Some (gt_scalar b 0%Qc)
                  end)
                 moran_kwargs);
      (* [res /= res.max()]; a zero maximum gives inf/nan pixels in
         numpy, which the rationals do not have *)
      m ← lift (amax res);
      lift (idiv_scalar res m)
    else
      (* [em_results] is a local that only the EM branch binds *)
      '(em_results, conditional_func) ←
        (if contains "em" method then
           em_results ← ext RunEM (run_em lib res bins em_kwargs);
           mret (Some em_results,
                 fun r => ext EmConditionals
                            (em_conditionals lib r em_results bins))
         else
           vi_results ← ext RunVI (run_vi lib res bins vi_kwargs);
           mret (None,
                 fun r => ext ViConditionals
                            (vi_conditionals lib r vi_results bins)));
      res ←
        (if contains "bp" method then
           '(background_cond, cell_cond) ← conditional_func res;
           '(background_cond, cell_cond) ←
             match certain_mask with
             | Some c =>
                 b ← lift (set_where background_cond c (Q2Qc (1 # 100)));
                 f ← lift (set_where cell_cond c (1 - Q2Qc (1 # 100))%Qc);
                 mret (b, f)
             | None => mret (background_cond, cell_cond)
             end;
           ext RunBP (run_bp lib background_cond cell_cond bp_kwargs)
         else
           match em_results with
           | None => raise UnboundLocalError
           | Some em_results =>
               res ← ext EmConfidence (em_confidence lib res em_results bins);
               match certain_mask with
               | Some c =>
                   s ← lift (add_mask res c);
                   mret (clip s 0%Qc 1%Qc)
               | None => mret res
               end
           end);
      if contains "gauss" method
      then ext (Conv2d gauss) (conv2d lib res k gauss bins)
      else mret res.

(** The [bins_layer] argument: [None], [False] or a layer name. *)
Inductive bins_arg : Type :=
| BinsNone
| BinsFalse
| BinsLayer (name : string).

Definition score_and_mask_pixels (layer : string) (k : Z) (method : string)
    (moran_kwargs em_kwargs vi_kwargs bp_kwargs : option kwargs)
    (threshold : option Qc) (mk : option Z) (bins_layer : bins_arg)
    (certain_layer scores_layer mask_layer : option string) : M world unit :=
  X ← select_layer_data layer true;
  certain_mask ←
    (if truthy_opt_str certain_layer then
       c ← select_layer_data (default "" certain_layer) false;
       mret (Some (astype_bool c))
     else mret None);
  ad ← read_adata;
  bins ←
    match bins_layer with
    | BinsFalse => mret None
    | _ =>
        let bins_layer :=
          or_str (match bins_layer with BinsLayer n => Some n | _ => None end)
                 (SKM.gen_new_layer_key layer SKM.BINS_SUFFIX) in
        if bool_decide (bins_layer ∈ dom (layers ad))
        then b ← select_layer_data bins_layer false; mret (Some b)
        else mret None
    end;
  let method := lower method in
  scores ← _score_pixels X k method moran_kwargs em_kwargs vi_kwargs
             bp_kwargs certain_mask bins;
  let scores_layer :=
    or_str scores_layer (SKM.gen_new_layer_key layer SKM.SCORES_SUFFIX) in
  set_layer_data scores_layer scores;;
  threshold ←
    (if negb (truthy_opt_Qc threshold) then
       if contains "bp" method then
         ts ← ext (ThresholdMultiotsu 3) (threshold_multiotsu lib scores 3);
         lift (index ts 1)
       else ext ThresholdOtsu (threshold_otsu lib scores)
     else mret (default 0%Qc threshold));
  let mk :=
    or_Z mk (if existsb (fun m => contains m method) ["em"; "vi"]
             then (k + 2)%Z else 3%Z) in
  mask ← ext (ApplyThreshold mk threshold) (apply_threshold lib scores mk threshold);
  mask ←
    (if truthy_opt_str certain_layer then
       match certain_mask with
       | Some c => lift (iadd_mask mask c)
       | None => raise TypeError
       end
     else mret mask);
  let mask_layer :=
    or_str mask_layer (SKM.gen_new_layer_key layer SKM.MASK_SUFFIX) in
  set_layer_data mask_layer (of_mask mask).

(** The local (adaptive) threshold of [_mask_nuclei_from_stain]: OpenCV on
    [uint8] images, skimage otherwise. *)
Definition local_mask (X : ndarray) (k off : Z) : result mask :=
  match dt X with
  | uint8 => Ok (astype_bool (adaptiveThreshold lib X k off))
  | _ => gt X (threshold_local lib X k off)
  end.

Definition local_call (X : ndarray) : call :=
  match dt X with uint8 => AdaptiveThreshold | _ => ThresholdLocal end.

(** The threshold found from the scores when none is to be used as given:
    the second of the two 3-class multi-Otsu thresholds for a method with
    belief propagation, Otsu's threshold otherwise. *)
Definition auto_threshold (method : string) (scores : ndarray) : result Qc :=
  if contains "bp" method
  then index (threshold_multiotsu lib scores 3) 1
  else Ok (threshold_otsu lib scores).

(** The library calls that finding it makes. *)
Definition auto_threshold_calls (method : string) : list call :=
  if contains "bp" method then [ThresholdMultiotsu 3] else [ThresholdOtsu].

(** The threshold as the description of [score_and_mask_pixels] has it:
    the caller's value whenever one is supplied. *)
Definition threshold_as_described (threshold : option Qc) (method : string)
    (scores : ndarray) : result Qc :=
  match threshold with
  | Some t => Ok t
  | None => auto_threshold method scores
  end.

(** The threshold as [if not threshold] selects it: a supplied zero counts
    as not supplied. *)
Definition threshold_as_selected (threshold : option Qc) (method : string)
    (scores : ndarray) : result Qc :=
  match threshold with
  | Some t => if bool_decide (t = 0%Qc) then auto_threshold method scores else Ok t
  | None => auto_threshold method scores
  end.

End WithLib.

(** The image operations of the library return an image of the shape of
    the image they are given. *)
Record shape_preserving (lib : SegLib) : Prop := mk_shape_preserving {
  conv2d_shape : forall X k mode bins, shp (conv2d lib X k mode bins) = shp X;
  scale_to_01_shape : forall X, shp (scale_to_01 lib X) = shp X;
  run_moran_shape : forall X m kw, shp (run_moran lib X m kw) = shp X;
  em_confidence_shape : forall X p bins, shp (em_confidence lib X p bins) = shp X;
  em_conditionals_shape : forall X p bins bg cell,
    em_conditionals lib X p bins = (bg, cell) -> shp bg = shp X /\ shp cell = shp X;
  vi_conditionals_shape : forall X p bins bg cell,
    vi_conditionals lib X p bins = (bg, cell) -> shp bg = shp X /\ shp cell = shp X;
  run_bp_shape : forall bg cell kw, shp (run_bp lib bg cell kw) = shp cell;
  apply_threshold_shape : forall s k t, mshp (apply_threshold lib s k t) = shp s
}.

(** The thresholds handed to [utils.apply_threshold], read off a call log. *)
Definition applied_thresholds (cs : list call) : list Qc :=
  flat_map (fun c => match c with ApplyThreshold _ t => [t] | _ => [] end) cs.

Definition is_select (c : call) : Prop :=
  match c with SelectLayer _ => True | _ => False end.

(** [X] as [select_layer_data(..., make_dense=True)] returns it. *)
Definition dense (a : ndarray) : ndarray := if sparse a then todense a else a.

(** The kernel of the morphological clean-up: [mk], or [k + 2] when EM or VI
    is run and 3 otherwise. *)
Definition kernel (mk : option Z) (k : Z) (method : string) : Z :=
  or_Z mk (if existsb (fun m => contains m method) ["em"; "vi"]
           then (k + 2)%Z else 3%Z).

(** A step that leaves [adata] as it is, whatever its outcome. *)
Definition keeps_adata {A} (c : M world A) : Prop :=
  forall w, adata (c w).1 = adata w.

End Icell.

(* ===================================================================== *)
(** ** spateo/tools/cluster/find_clusters.py                              *)
(* ===================================================================== *)

Module FindClusters.

(** [AnnData] objects live in a store and are passed by reference: what a
    function does to its argument is seen by the caller, and a copy would
    be an object at a new location. A reference held by a Python program
    always denotes an object of the store. *)
Definition loc : Type := nat.

(** A colour image: rows of pixels of channels. *)
Definition image : Type := list (list (list Z)).

(** A trained SpaGCN classifier. *)
Definition gcn_model : Type := list Qc.

(** The pixel coordinates and the image handed to
    [calculate_adj_matrix(..., histology=True)], with [beta] and [alpha]. *)
Record histology : Type := mk_histology {
  h_x_pixel : list cell;
  h_y_pixel : list cell;
  h_image : image;
  h_beta : Z;
  h_alpha : Z
}.

(** The library code [find_clusters.py] calls: [spagcn_utils] (SpaGCN),
    pandas/numpy/OpenCV helpers, [spateo.preprocessing.filter], the
    sibling [utils] and dynamo. A function that receives [adata] may
    update it, so it returns the updated object with its result.
    [round_float] is the float arithmetic of the interpreter: the real
    result of an operation, rounded to the float that represents it. *)
Record ClusterLib : Type := mk_clusterlib {
  calculate_adj_matrix : list cell -> list cell -> option histology -> matrix;
  imread : string -> image;
  pivot_dstack : list cell -> list cell -> list Z -> image;
  search_l : Qc -> matrix -> Qc -> Qc -> Qc -> Z -> Qc;
  search_res : AnnData -> matrix -> Qc -> Z -> Qc -> Qc -> Qc -> Qc -> Z ->
               Z * Z * Z -> AnnData * Qc;
  train : AnnData -> matrix -> Qc -> Qc -> Qc -> Qc -> Z -> Z * Z * Z ->
          AnnData * gcn_model;
  predict : gcn_model -> list Z * matrix;
  refine : list string -> list cell -> matrix -> string -> list cell;
  filter_cells : AnnData -> Z -> AnnData;
  filter_genes : AnnData -> Z -> AnnData;
  normalize_cell_expr_by_size_factors : AnnData -> AnnData;
  log1p : AnnData -> AnnData;
  compute_pca_components : ndarray -> matrix * Z;
  harmony_debatch : AnnData -> option string -> string -> string -> Z -> AnnData;
  spatial_adj_dyn : AnnData -> string -> string -> Z -> Z -> AnnData * matrix;
  leiden : AnnData -> matrix -> option Qc -> option string -> AnnData;
  louvain : AnnData -> matrix -> option Qc -> option string -> AnnData;
  round_float : Qc -> Qc
}.

(** One entry of the log per library call and per store into [adata]. *)
Inductive call : Type :=
| CalculateAdjMatrix (histology : bool)
| Imread
| PivotDstack
| SetUns (key : string)
| SearchL (start end_ tol : Qc) (max_run : Z)
| SearchRes (start step tol lr : Qc) (max_epochs : Z)
| Seed (r_seed t_seed n_seed : Z)
| Train (res tol lr : Qc) (max_epochs : Z)
| Predict
| SetObs (key : string)
| Refine
| FilterCells
| FilterGenes
| Normalize
| Log1p
| ComputePca
| SetObsm (key : string)
| HarmonyDebatch
| SpatialAdjDyn
| Leiden (result_key : option string)
| Louvain (result_key : option string).

Record world : Type := mk_world {
  heap : gmap loc AnnData;
  calls : list call
}.

Definition log (c : call) : M world unit :=
  fun w => ({| heap := heap w; calls := calls w ++ [c] |}, Ok tt).

(** A library call that does not receive [adata]. *)
Definition ext {A} (c : call) (v : A) : M world A := log c;; mret v.

Definition deref (l : loc) : M world AnnData := fun w => (w, Ok (heap w !!! l)).

Definition update (l : loc) (f : AnnData -> AnnData) : M world unit :=
  fun w => ({| heap := <[l := f (heap w !!! l)]> (heap w); calls := calls w |},
            Ok tt).

(** A library call on the object at [l]. *)
Definition ext_on {A} (c : call) (l : loc) (f : AnnData -> AnnData * A)
    : M world A :=
  log c;; ad ← deref l; update l (fun _ => (f ad).1);; mret (f ad).2.

Definition ext_on_ (c : call) (l : loc) (f : AnnData -> AnnData) : M world unit :=
  ext_on c l (fun ad => (f ad, tt)).

(** [adata.obs[key].tolist()]. *)
Definition obs_tolist (ad : AnnData) (key : string) : result (list cell) :=
  match df_cols (obs ad) !! key with
  | Some c => Ok (col_vals c)
  | None => Raise KeyError
  end.

(** [adata.obsm[key]]. *)
Definition obsm_get (ad : AnnData) (key : string) : result matrix :=
  match obsm ad !! key with
  | Some m => Ok m
  | None => Raise KeyError
  end.

(** [df[key] = values]: the values must be as many as the rows. *)
Definition df_set (df : DataFrame) (key : string) (c : column) : result DataFrame :=
  if (length (col_vals c) =? length (df_index df))%nat
  then Ok {| df_index := df_index df; df_cols := <[key := c]> (df_cols df) |}
  else Raise ValueError.

Definition set_obs (l : loc) (key : string) (c : column) : M world unit :=
  ad ← deref l;
  df ← lift (df_set (obs ad) key c);
  update l (with_obs (fun _ => df));;
  log (SetObs key).

Definition get_obs (l : loc) (key : string) : M world column :=
  ad ← deref l;
  match df_cols (obs ad) !! key with
  | Some c => mret c
  | None => raise KeyError
  end.

(** [series.astype("category")]. *)
Definition astype_category (c : column) : column :=
  {| col_dt := col_category; col_vals := col_vals c |}.

(** Truncation toward zero, [int(x)] of a float. *)
Definition trunc (q : Qc) : Z := Z.quot (Qnum q) (Z.pos (Qden q)).

(** The white space [int] strips from both ends of a string (ASCII). *)
Definition is_space (c : ascii) : bool :=
  let n := nat_of_ascii c in
  ((9 <=? n) && (n <=? 13) || (28 <=? n) && (n <=? 32))%nat.

Fixpoint lstrip (s : string) : string :=
  match s with
  | String c r => if is_space c then lstrip r else s
  | EmptyString => EmptyString
  end.

Fixpoint rstrip (s : string) : string :=
  match s with
  | EmptyString => EmptyString
  | String c r =>
      match rstrip r with
      | EmptyString => if is_space c then EmptyString else String c EmptyString
      | r' => String c r'
      end
  end.

Definition digit_of (c : ascii) : option Z :=
  let n := nat_of_ascii c in
  if ((48 <=? n) && (n <=? 57))%nat then Some (Z.of_nat (n - 48)) else None.

(** Decimal digits, with single underscores between digits. *)
Fixpoint digits (acc : Z) (after_digit : bool) (s : string) : option Z :=
  match s with
  | EmptyString => if after_digit then Some acc else None
  | String c r =>
      match digit_of c with
      | Some d => digits (10 * acc + d) true r
      | None =>
          if Ascii.eqb c "_"%char && after_digit
          then match r with
               | EmptyString => None
               | _ => digits acc false r
               end
          else None
      end
  end.

(** [int(s)] of a string, base 10: white space around, an optional sign,
    digits with single underscores between them (ASCII). *)
Definition int_of_str (s : string) : option Z :=
  match rstrip (lstrip s) with
  | String "+"%char r => digits 0 false r
  | String "-"%char r => Z.opp <$> digits 0 false r
  | r => digits 0 false r
  end.

(** [int(v)]. *)
Definition py_int (v : cell) : result Z :=
  match v with
  | VInt z => Ok z
  | VNum q => Ok (trunc q)
  | VStr s => match int_of_str s with
              | Some z => Ok z
              | None => Raise ValueError
              end
  end.

(** [str(v)]; a float is written as its fraction. *)
Definition py_str (v : cell) : string :=
  match v with
  | VInt z => str_of_Z z
  | VNum q => str_of_Z (Qnum q) ++ "/" ++ str_of_Z (Z.pos (Qden q))
  | VStr s => s
  end.

(** The number in a cell; arithmetic on a string is a [TypeError]. *)
Definition cell_num (v : cell) : result Qc :=
  match v with
  | VInt z => Ok (Q2Qc (inject_Z z))
  | VNum q => Ok q
  | VStr _ => Raise TypeError
  end.

(** [[int(x / max(total_umi) * 254 + 1) for x in total_umi]]: each of the
    three float operations rounds its result, [fl]. *)
Definition rescale_umi (fl : Qc -> Qc) (total_umi : list cell) : result (list Z) :=
  nums ← mapR cell_num total_umi;
  match nums with
  | [] => Ok []
  | x :: r =>
      let m := fold_left Qc_max r x in
      if bool_decide (m = 0%Qc) then Raise ZeroDivisionError
      else Ok (map (fun x => trunc (fl (fl (fl (x / m) * Q2Qc (inject_Z 254)) + 1))%Qc)
                   nums)
  end.

(** Equality of two cells as index labels: numbers by value. *)
Definition cell_eqb (a b : cell) : bool :=
  match a, b with
  | VStr s, VStr t => String.eqb s t
  | VInt x, VInt y => (x =? y)%Z
  | VInt x, VNum q | VNum q, VInt x => bool_decide (q = Q2Qc (inject_Z x))
  | VNum p, VNum q => bool_decide (p = q)
  | _, _ => false
  end.

(** Whether two rows have the same pair of labels. *)
Fixpoint has_duplicate (l : list (cell * cell)) : bool :=
  match l with
  | [] => false
  | p :: r =>
      existsb (fun q => cell_eqb p.1 q.1 && cell_eqb p.2 q.2) r || has_duplicate r
  end.

(** What [pd.DataFrame({...}).pivot(index=..., columns=...)] refuses with
    a [ValueError]: columns of different lengths, and two rows with the
    same index and column labels. *)
Definition pivot_refused (x_pixel y_pixel : list cell) (n_umis : list Z) : bool :=
  negb ((length x_pixel =? length y_pixel)%nat
        && (length y_pixel =? length n_umis)%nat)
  || has_duplicate (combine x_pixel y_pixel).

(** [m[:, :n]]. *)
Definition slice_to {A} (l : list A) (n : Z) : list A :=
  if (n <? 0)%Z then take (Z.to_nat (Z.of_nat (length l) + n)) l
  else take (Z.to_nat n) l.

Definition slice_cols (m : matrix) (n : Z) : matrix :=
  map (fun row => slice_to row n) m.

Definition q_0_01 : Qc := Q2Qc (1 # 100).
Definition q_1000 : Qc := Q2Qc (inject_Z 1000).
Definition q_0_7 : Qc := Q2Qc (7 # 10).
Definition q_0_1 : Qc := Q2Qc (1 # 10).
Definition q_5e_3 : Qc := Q2Qc (5 # 1000).
Definition q_0_05 : Qc := Q2Qc (5 # 100).

Section WithLib.

Variable lib : ClusterLib.

(** [[i[n] for i in adata.obsm["X_spatial"]]]. *)
Definition spatial_column (ad : AnnData) (n : Z) : result (list cell) :=
  rows ← obsm_get ad "X_spatial";
  mapR (fun i => q ← index i n; Ok (VNum q)) rows.

Definition spagcn_pyg (adata : loc) (n_clusters : Z) (p : Qc) (s b : Z)
    (refine_shape his_img_path total_umi : option string)
    (x_pixel y_pixel x_array y_array : option string)
    (seed : Z) (copy : bool) : M world (option loc) :=
  ad ← deref adata;
  x_array ← lift (match x_array with
                  | None => spatial_column ad 0
                  | Some key => obs_tolist ad key
                  end);
  y_array ← lift (match y_array with
                  | None => spatial_column ad 1
                  | Some key => obs_tolist ad key
                  end);
  x_pixel ← lift (match x_pixel with
                  | None => mapR (fun i => z ← py_int i; Ok (VInt z)) x_array
                  | Some key => obs_tolist ad key
                  end);
  y_pixel ← lift (match y_pixel with
                  | None => mapR (fun i => z ← py_int i; Ok (VInt z)) y_array
                  | Some key => obs_tolist ad key
                  end);
  let s := 1%Z in
  let b := 49%Z in
  adj ←
    match his_img_path with
    | None =>
        match total_umi with
        | None =>
            ext (CalculateAdjMatrix false)
                (calculate_adj_matrix lib x_array y_array None)
        | Some key =>
            total_umi ← lift (obs_tolist ad key);
            total_umi ← lift (rescale_umi (round_float lib) total_umi);
            umi_gs_img ←
              (if pivot_refused x_pixel y_pixel total_umi
               then raise ValueError
               else ext PivotDstack
                        (pivot_dstack lib x_pixel y_pixel total_umi));
            ext (CalculateAdjMatrix true)
                (calculate_adj_matrix lib x_array y_array
                   (Some {| h_x_pixel := x_pixel; h_y_pixel := y_pixel;
                            h_image := umi_gs_img;
                            h_beta := b; h_alpha := s |}))
        end
    | Some path =>
        img ← ext Imread (imread lib path);
        ext (CalculateAdjMatrix true)
            (calculate_adj_matrix lib x_array y_array
               (Some {| h_x_pixel := x_pixel; h_y_pixel := y_pixel;
                        h_image := img; h_beta := b; h_alpha := s |}))
    end;
  update adata (with_uns (fun u => <["adj_spagcn" := UnsMatrix adj]> u));;
  log (SetUns "adj_spagcn");;
  l ← ext (SearchL q_0_01 q_1000 q_0_01 100)
          (search_l lib p adj q_0_01 q_1000 q_0_01 100);
  let r_seed := seed in
  let t_seed := seed in
  let n_seed := seed in
  res ← ext_on (SearchRes q_0_7 q_0_1 q_5e_3 q_0_05 20) adata
          (fun ad => search_res lib ad adj l n_clusters q_0_7 q_0_1 q_5e_3
                       q_0_05 20 (r_seed, t_seed, n_seed));
  log (Seed r_seed t_seed n_seed);;
  clf ← ext_on (Train res q_5e_3 q_0_05 200) adata
          (fun ad => train lib ad adj l res q_5e_3 q_0_05 200
                       (r_seed, t_seed, n_seed));
  '(y_pred, prob) ← ext Predict (predict lib clf);
  set_obs adata "spagcn_pred"
    {| col_dt := col_int64; col_vals := map VInt y_pred |};;
  c ← get_obs adata "spagcn_pred";
  set_obs adata "spagcn_pred" (astype_category c);;
  c ← get_obs adata "spagcn_pred";
  set_obs adata "spagcn_pred"
    {| col_dt := col_object;
       col_vals := map (fun i => VStr (py_str i)) (col_vals c) |};;
  match refine_shape with
  | Some shape =>
      adj_2d ← ext (CalculateAdjMatrix false)
                 (calculate_adj_matrix lib x_array y_array None);
      ad ← deref adata;
      pred ← lift (obs_tolist ad "spagcn_pred");
      refined_pred ← ext Refine
                       (refine lib (df_index (obs ad)) pred adj_2d shape);
      set_obs adata "spagcn_pred_refined"
        {| col_dt := col_object; col_vals := refined_pred |};;
      c ← get_obs adata "spagcn_pred_refined";
      set_obs adata "spagcn_pred_refined" (astype_category c)
  | None => mret tt
  end;;
  if copy then mret (Some adata) else mret None.

(** The four coordinate lists [spagcn_pyg] starts from, as its first
    statements bind them: [x_array], [y_array], [x_pixel], [y_pixel]. *)
Definition coordinates (ad : AnnData) (x_pixel y_pixel x_array y_array : option string)
    : result (list cell * list cell * list cell * list cell) :=
  x_array ← match x_array with
            | None => spatial_column ad 0
            | Some key => obs_tolist ad key
            end;
  y_array ← match y_array with
            | None => spatial_column ad 1
            | Some key => obs_tolist ad key
            end;
  x_pixel ← match x_pixel with
            | None => mapR (fun i => z ← py_int i; Ok (VInt z)) x_array
            | Some key => obs_tolist ad key
            end;
  y_pixel ← match y_pixel with
            | None => mapR (fun i => z ← py_int i; Ok (VInt z)) y_array
            | Some key => obs_tolist ad key
            end;
  Ok (x_array, y_array, x_pixel, y_pixel).

(** The matrix [adj] that [spagcn_pyg] computes from them: from the
    histology image when a path is given, else from the grey levels of the
    UMI counts when [total_umi] is given, else from the coordinates
    alone. *)
Definition adjacency (ad : AnnData) (his_img_path total_umi : option string)
    (x_array y_array x_pixel y_pixel : list cell) : result matrix :=
  match his_img_path with
  | None =>
      match total_umi with
      | None => Ok (calculate_adj_matrix lib x_array y_array None)
      | Some key =>
          total_umi ← obs_tolist ad key;
          total_umi ← rescale_umi (round_float lib) total_umi;
          if pivot_refused x_pixel y_pixel total_umi then Raise ValueError
          else Ok (calculate_adj_matrix lib x_array y_array
                     (Some {| h_x_pixel := x_pixel; h_y_pixel := y_pixel;
                              h_image := pivot_dstack lib x_pixel y_pixel total_umi;
                              h_beta := 49; h_alpha := 1 |}))
      end
  | Some path =>
      Ok (calculate_adj_matrix lib x_array y_array
            (Some {| h_x_pixel := x_pixel; h_y_pixel := y_pixel;
                     h_image := imread lib path; h_beta := 49; h_alpha := 1 |}))
  end.

(** The string constants of [scc]'s body are shared objects. *)
Definition lit (s : string) : pystr := Interned s.

Definition scc (adata : loc) (min_genes min_cells : Z) (spatial_key : string)
    (key_added : option string) (n_pca_components : option Z)
    (e_neigh s_neigh : Z) (cluster_method : pystr) (resolution : option Qc)
    (debatch : bool) (batch_key : option string) (max_iter_harmony : Z)
    (copy : bool) : M world (option loc) :=
  ext_on_ FilterCells adata (fun ad => filter_cells lib ad min_genes);;
  ext_on_ FilterGenes adata (fun ad => filter_genes lib ad min_cells);;
  update adata (with_uns (fun u => <["pp" := UnsDict ∅]> u));;
  log (SetUns "pp");;
  ext_on_ Normalize adata (normalize_cell_expr_by_size_factors lib);;
  ext_on_ Log1p adata (log1p lib);;
  (* [pcs] is a local that only this branch binds *)
  '(pcs, n_pca_components) ←
    match n_pca_components with
    | None =>
        ad ← deref adata;
        '(pcs, n) ← ext ComputePca (compute_pca_components lib (X ad));
        mret (Some pcs, n)
    | Some n => mret (None, n)
    end;
  let pca_key := "X_pca" in
  pcs ← match pcs with
        | Some pcs => mret pcs
        | None => raise UnboundLocalError
        end;
  update adata (with_obsm (fun o => <[pca_key := slice_cols pcs n_pca_components]> o));;
  log (SetObsm pca_key);;
  pca_key ←
    (if debatch then
       ext_on_ HarmonyDebatch adata
         (fun ad => harmony_debatch lib ad batch_key "X_pca" "X_pca_harmony"
                      max_iter_harmony);;
       mret "X_pca_harmony"
     else mret pca_key);
  adj ← ext_on SpatialAdjDyn adata
          (fun ad => spatial_adj_dyn lib ad spatial_key pca_key e_neigh s_neigh);
  (if py_is cluster_method (lit "leiden") then
     ext_on_ (Leiden key_added) adata
       (fun ad => leiden lib ad adj resolution key_added)
   else if py_is cluster_method (lit "louvain") then
     ext_on_ (Louvain key_added) adata
       (fun ad => louvain lib ad adj resolution key_added)
   else mret tt);;
  if copy then mret (Some adata) else mret None.

(** What the code of [scc] does to the object it is given, as a function
    of that object: the filters, the size-factor normalisation and
    [log1p]; then, unless the number of components was given, the PCA
    embedding, the optional batch correction, the adjacency and the
    clustering. It sums up the run of the code above, as the code is: a
    call that gives [n_pca_components] ends after [log1p], and the
    clustering is chosen by the identity tests. *)
Definition scc_object (min_genes min_cells : Z) (spatial_key : string)
    (key_added : option string) (n_pca_components : option Z)
    (e_neigh s_neigh : Z) (cluster_method : pystr) (resolution : option Qc)
    (debatch : bool) (batch_key : option string) (max_iter_harmony : Z)
    (ad : AnnData) : AnnData :=
  let ad := filter_cells lib ad min_genes in
  let ad := filter_genes lib ad min_cells in
  let ad := with_uns (fun u => <["pp" := UnsDict ∅]> u) ad in
  let ad := normalize_cell_expr_by_size_factors lib ad in
  let ad := log1p lib ad in
  match n_pca_components with
  | Some _ => ad
  | None =>
      let '(pcs, n) := compute_pca_components lib (X ad) in
      let ad := with_obsm (fun o => <["X_pca" := slice_cols pcs n]> o) ad in
      let ad := if debatch
                then harmony_debatch lib ad batch_key "X_pca" "X_pca_harmony"
                       max_iter_harmony
                else ad in
      let pca_key := if debatch then "X_pca_harmony" else "X_pca" in
      let '(ad, adj) := spatial_adj_dyn lib ad spatial_key pca_key e_neigh s_neigh in
      if py_is cluster_method (lit "leiden")
      then leiden lib ad adj resolution key_added
      else if py_is cluster_method (lit "louvain")
      then louvain lib ad adj resolution key_added
      else ad
  end.

End WithLib.

(** The calls of a run of [scc] that gets past the PCA. *)
Definition scc_calls (key_added : option string) (cluster_method : pystr)
    (debatch : bool) : list call :=
  [FilterCells; FilterGenes; SetUns "pp"; Normalize; Log1p; ComputePca;
   SetObsm "X_pca"]
  ++ (if debatch then [HarmonyDebatch] else [])
  ++ [SpatialAdjDyn]
  ++ (if py_is cluster_method (Interned "leiden") then [Leiden key_added]
      else if py_is cluster_method (Interned "louvain") then [Louvain key_added]
      else []).

(** The calls that compute the adjacency matrix of [spagcn_pyg]. *)
Definition is_adjacency_call (c : call) : Prop :=
  match c with
  | Imread | PivotDstack | CalculateAdjMatrix _ => True
  | _ => False
  end.

(** The clustering calls of a log. *)
Definition clustering_calls (cs : list call) : list call :=
  List.filter (fun c => match c with Leiden _ | Louvain _ => true | _ => false end) cs.

End FindClusters.

(* ===================================================================== *)
(** ** Small concrete instances, used to run the definitions             *)
(* ===================================================================== *)

Module Demo.

Import Icell.

Definition half : Qc := Q2Qc (1 # 2).
Definition third : Qc := Q2Qc (1 # 3).

(** A 2x2 float image with pixels 0, 1/3, 1/2, 1. *)
Definition img : ndarray :=
  {| dt := float64; sparse := false; shp := (2, 2)%nat;
     px := fun i j =>
       match i, j with
       | O, O => 0%Qc
       | O, _ => third
       | _, O => half
       | _, _ => 1%Qc
       end |}.

(** A 2x2 image marking the pixel (0, 0). *)
Definition nuclei : ndarray :=
  {| dt := uint8; sparse := false; shp := (2, 2)%nat;
     px := fun i j => match i, j with O, O => 1%Qc | _, _ => 0%Qc end |}.

(** Estimators that keep the image as it is; thresholds 1/3 and 1/2. *)
Definition seglib : SegLib :=
  {| threshold_multiotsu := fun _ n => firstn (n - 1) [third; half];
     threshold_otsu := fun _ => half;
     threshold_local := fun X _ _ => X;
     adaptiveThreshold := fun X _ _ => X;
     mclose_mopen := fun m _ => m;
     apply_threshold := fun s _ t => ge_scalar s t;
     conv2d := fun X _ _ _ => X;
     scale_to_01 := fun X => X;
     run_moran := fun X _ _ => X;
     run_em := fun _ _ _ => [];
     em_conditionals := fun r _ _ => (r, r);
     em_confidence := fun r _ _ => r;
     run_vi := fun _ _ _ => [];
     vi_conditionals := fun r _ _ => (r, r);
     run_bp := fun _ c _ => c |}.

Definition empty_df : DataFrame := {| df_index := []; df_cols := ∅ |}.

Definition adata0 : AnnData :=
  {| X := img; obs := empty_df; obsm := ∅; uns := ∅;
     layers := <["nuclei" := nuclei]> {["X" := img]} |}.

Definition w0 : world := {| adata := adata0; calls := [] |}.

(** A SpaGCN that predicts the domains 0 and 1 for two spots,
    preprocessing steps that keep the object as it is, and float
    operations without rounding error. *)
Definition clusterlib : FindClusters.ClusterLib :=
  {| FindClusters.calculate_adj_matrix := fun _ _ _ => [[1%Qc; 0%Qc]; [0%Qc; 1%Qc]];
     FindClusters.imread := fun _ => [];
     FindClusters.pivot_dstack := fun _ _ _ => [];
     FindClusters.search_l := fun _ _ _ _ _ _ => 1%Qc;
     FindClusters.search_res := fun ad _ _ _ start _ _ _ _ _ => (ad, start);
     FindClusters.train := fun ad _ _ res _ _ _ _ => (ad, [res]);
     FindClusters.predict := fun _ => ([0%Z; 1%Z], []);
     FindClusters.refine := fun _ pred _ _ => pred;
     FindClusters.filter_cells := fun ad _ => ad;
     FindClusters.filter_genes := fun ad _ => ad;
     FindClusters.normalize_cell_expr_by_size_factors := fun ad => ad;
     FindClusters.log1p := fun ad => ad;
     FindClusters.compute_pca_components := fun _ => ([[1%Qc; 0%Qc]; [0%Qc; 1%Qc]], 1%Z);
     FindClusters.harmony_debatch := fun ad _ _ _ _ => ad;
     FindClusters.spatial_adj_dyn := fun ad _ _ _ _ => (ad, []);
     FindClusters.leiden := fun ad _ _ _ => ad;
     FindClusters.louvain := fun ad _ _ _ => ad;
     FindClusters.round_float := fun q => q |}.

(** Two spots, at (0, 0) and (1, 1). *)
Definition adata1 : AnnData :=
  {| X := img;
     obs := {| df_index := ["spot0"; "spot1"]; df_cols := ∅ |};
     obsm := {["X_spatial" := [[0%Qc; 0%Qc]; [1%Qc; 1%Qc]]]};
     uns := ∅;
     layers := ∅ |}.

Definition cw0 : FindClusters.world :=
  {| FindClusters.heap := {[0%nat := adata1]}; FindClusters.calls := [] |}.

End Demo.

(* ===================================================================== *)
(** * Properties                                                         *)
(* ===================================================================== *)

(** ** The Python primitives on small inputs *)

Example index_from_the_end : index [1; 2; 3]%Z (-1) = Ok 3%Z.
Proof. reflexivity. Qed.

Example index_out_of_range : index [1; 2; 3]%Z 3 = Raise IndexError.
Proof. reflexivity. Qed.

Example str_of_negative : str_of_Z (-12) = "-12".
Proof. reflexivity. Qed.

Example is_on_equal_strings :
  py_eq (Fresh 7 "leiden") (Interned "leiden") = true
  /\ py_is (Fresh 7 "leiden") (Interned "leiden") = false
  /\ py_is (Interned "leiden") (Interned "leiden") = true.
Proof. repeat split. Qed.

Example rescale_umi_two_spots :
  FindClusters.rescale_umi (fun q => q) [VInt 1; VInt 2] = Ok [128; 255]%Z.
Proof. vm_compute. reflexivity. Qed.

Example rescale_umi_all_zero :
  FindClusters.rescale_umi (fun q => q) [VInt 0; VInt 0] = Raise ZeroDivisionError.
Proof. vm_compute. reflexivity. Qed.

Example int_of_padded_string :
  FindClusters.py_int (VStr " 7 ") = Ok 7%Z
  /\ FindClusters.py_int (VStr "+5") = Ok 5%Z
  /\ FindClusters.py_int (VStr "-1_200") = Ok (-1200)%Z.
Proof. repeat split. Qed.

Example int_of_malformed_string :
  FindClusters.py_int (VStr "") = Raise ValueError
  /\ FindClusters.py_int (VStr "1__2") = Raise ValueError
  /\ FindClusters.py_int (VStr "- 5") = Raise ValueError
  /\ FindClusters.py_int (VStr "7.0") = Raise ValueError.
Proof. repeat split. Qed.

Example pivot_refuses_duplicates :
  FindClusters.pivot_refused [VInt 1; VNum 1%Qc] [VInt 2; VInt 2] [5; 6]%Z = true
  /\ FindClusters.pivot_refused [VInt 1; VInt 2] [VInt 2; VInt 2] [5; 6]%Z = false
  /\ FindClusters.pivot_refused [VInt 1; VInt 2] [VInt 2; VInt 2] [5]%Z = true.
Proof. repeat split. Qed.

Example slice_to_negative : FindClusters.slice_to [1; 2; 3]%Z (-1) = [1; 2]%Z.
Proof. reflexivity. Qed.

Example broadcast_row : broadcast (3, 4)%nat (1, 4)%nat = Some (3, 4)%nat.
Proof. reflexivity. Qed.

Example broadcast_mismatch : broadcast (3, 4)%nat (2, 4)%nat = None.
Proof. reflexivity. Qed.

(** ** The monad: how a sequence of steps runs *)

Section MonadFacts.

Context {St A B : Type}.
Implicit Types (c : M St A) (k : A -> M St B) (s : St).

Lemma bind_run c k s :
  (c ≫= k) s = match c s with
                | (s', Ok a) => k a s'
                | (s', Raise e) => (s', Raise e)
                end.
Proof. reflexivity. Qed.

Lemma bind_ok c k s s1 a : c s = (s1, Ok a) -> (c ≫= k) s = k a s1.
Proof. intros E. rewrite bind_run, E. reflexivity. Qed.

Lemma bind_raise c k s s1 e : c s = (s1, Raise e) -> (c ≫= k) s = (s1, Raise e).
Proof. intros E. rewrite bind_run, E. reflexivity. Qed.

Lemma bind_ok_inv c k s s' b :
  (c ≫= k) s = (s', Ok b) ->
  exists s1 a, c s = (s1, Ok a) /\ k a s1 = (s', Ok b).
Proof.
  rewrite bind_run. destruct (c s) as [s1 [a | e]]; [eauto | discriminate].
Qed.

End MonadFacts.

(** A run that ends with the value [v], written as a pair. *)
Lemma run_ok_eq {St A} (r : St * result A) (v : A) : r.2 = Ok v -> r = (r.1, Ok v).
Proof. destruct r as [s x]. cbn. intros ->. reflexivity. Defined.

Lemma lift_run {St A} (r : result A) (s : St) : lift r s = (s, r).
Proof. reflexivity. Qed.

Lemma mret_run {St A} (v : A) (s : St) : (mret v : M St A) s = (s, Ok v).
Proof. reflexivity. Qed.

Lemma raise_run {St A} (e : exn) (s : St) : (raise e : M St A) s = (s, Raise e).
Proof. reflexivity. Qed.

Ltac run_m :=
  unfold mbind, M_bind, Py.bind, mret, M_ret, Py.ret, lift, raise; cbn.

(** ** numpy and Python primitives: which exception each can raise *)

Module NpFacts.

Lemma index_raises {A} (l : list A) i e : index l i = Raise e -> e = IndexError.
Proof.
  unfold index. destruct (_ <? 0)%Z; [congruence |].
  destruct (nth_error _ _); congruence.
Qed.

Lemma amax_raises a e : amax a = Raise e -> e = ValueError.
Proof. unfold amax. destruct (pixels a); congruence. Qed.

Lemma idiv_scalar_raises a v e : idiv_scalar a v = Raise e -> e = TypeError.
Proof. unfold idiv_scalar. destruct (dt a); congruence. Qed.

Lemma set_where_raises a m v e : set_where a m v = Raise e -> e = IndexError.
Proof. unfold set_where. destruct (shape_eqb _ _); congruence. Qed.

Lemma add_mask_raises a m e : add_mask a m = Raise e -> e = ValueError.
Proof. unfold add_mask. destruct (broadcast _ _); congruence. Qed.

Lemma iadd_mask_raises m n e : iadd_mask m n = Raise e -> e = ValueError.
Proof.
  unfold iadd_mask. destruct (broadcast _ _); [| congruence].
  destruct (shape_eqb _ _); congruence.
Qed.

Lemma gt_raises a b e : gt a b = Raise e -> e = ValueError.
Proof. unfold gt. destruct (broadcast _ _); congruence. Qed.

Lemma and_raises m n e : and_ m n = Raise e -> e = ValueError.
Proof. unfold and_. destruct (broadcast _ _); congruence. Qed.

Lemma shape_eqb_eq s t : shape_eqb s t = true <-> s = t.
Proof.
  unfold shape_eqb. rewrite andb_true_iff, !Nat.eqb_eq.
  destruct s, t; cbn. split; [intros [-> ->]; reflexivity | intros [= -> ->]; auto].
Qed.

Lemma broadcast_same s : broadcast s s = Some s.
Proof. unfold broadcast, bdim. rewrite !Nat.eqb_refl. destruct s; reflexivity. Qed.

(** Inside the operand's own shape, broadcasting reads the pixel itself. *)
Lemma bget_in_range {A} (s : shape) (p : nat -> nat -> A) i j :
  (i < s.1)%nat -> (j < s.2)%nat -> bget s p i j = p i j.
Proof.
  intros Hi Hj. unfold bget, bidx.
  destruct (s.1 =? 1)%nat eqn:E1; destruct (s.2 =? 1)%nat eqn:E2;
    rewrite ?Nat.eqb_eq in *; f_equal; lia.
Qed.

End NpFacts.

(** No primitive raises [PreprocessingError]. *)
Ltac primitive_error :=
  match goal with
  | E : index _ _ = Raise _ |- _ => apply NpFacts.index_raises in E
  | E : amax _ = Raise _ |- _ => apply NpFacts.amax_raises in E
  | E : idiv_scalar _ _ = Raise _ |- _ => apply NpFacts.idiv_scalar_raises in E
  | E : set_where _ _ _ = Raise _ |- _ => apply NpFacts.set_where_raises in E
  | E : add_mask _ _ = Raise _ |- _ => apply NpFacts.add_mask_raises in E
  | E : iadd_mask _ _ = Raise _ |- _ => apply NpFacts.iadd_mask_raises in E
  | E : gt _ _ = Raise _ |- _ => apply NpFacts.gt_raises in E
  | E : and_ _ _ = Raise _ |- _ => apply NpFacts.and_raises in E
  end; subst.

(** Case analysis on the primitives [icell.py] uses. *)
Ltac split_prim :=
  match goal with
  | |- context [Icell.em_conditionals ?l ?a ?p ?b] =>
      destruct (Icell.em_conditionals l a p b) eqn:?
  | |- context [Icell.vi_conditionals ?l ?a ?p ?b] =>
      destruct (Icell.vi_conditionals l a p b) eqn:?
  | |- context [amax ?a] => destruct (amax a) eqn:?
  | |- context [idiv_scalar ?a ?v] => destruct (idiv_scalar a v) eqn:?
  | |- context [set_where ?a ?m ?v] => destruct (set_where a m v) eqn:?
  | |- context [add_mask ?a ?m] => destruct (add_mask a m) eqn:?
  | |- context [iadd_mask ?a ?m] => destruct (iadd_mask a m) eqn:?
  | |- context [gt ?a ?b] => destruct (gt a b) eqn:?
  | |- context [and_ ?a ?b] => destruct (and_ a b) eqn:?
  | |- context [index ?l ?i] => destruct (index l i) eqn:?
  end; cbn.

Module IcellFacts.

Import Icell Demo.
Local Open Scope list_scope.

Example lower_mixed : lower "EM+BP" = "em+bp".
Proof. reflexivity. Qed.

Example contains_bp : contains "bp" "vi+bp" = true ∧ contains "bp" "em+gauss" = false.
Proof. split; reflexivity. Qed.

Example run_gauss :
  (score_and_mask_pixels seglib "X" 3 "gauss" None None None None None None
     BinsNone None None None w0).2 = Ok tt.
Proof. vm_compute. reflexivity. Qed.

Example run_gauss_calls :
  calls (score_and_mask_pixels seglib "X" 3 "gauss" None None None None None None
     BinsNone None None None w0).1
  = [SelectLayer "X"; Conv2d gauss; ScaleTo01; SetLayer "X_scores";
     ThresholdOtsu; ApplyThreshold 3 half; SetLayer "X_mask"].
Proof. vm_compute. reflexivity. Qed.

(** *** [_score_pixels]: the guards *)

Lemma in_valid_methods m :
  in_tuple m valid_methods = true ->
  m = "gauss" \/ m = "moran" \/ m = "em" \/ m = "em+gauss" \/ m = "em+bp"
  \/ m = "vi+gauss" \/ m = "vi+bp".
Proof.
  unfold in_tuple, valid_methods. cbn [existsb].
  rewrite !orb_true_iff, !String.eqb_eq. intuition discriminate.
Qed.

Lemma bad_shape_mask_spec X cm :
  bad_shape_mask X cm = true <-> exists c, cm = Some c /\ shp X <> mshp c.
Proof.
  unfold bad_shape_mask, shape_eqb. destruct cm as [c |].
  - rewrite negb_true_iff, andb_false_iff, !Nat.eqb_neq. split.
    + intros H. exists c. split; [reflexivity |]. intros E. rewrite E in H. tauto.
    + intros (c' & [= <-] & H).
      destruct (decide ((shp X).1 = (mshp c).1)); [| tauto].
      destruct (decide ((shp X).2 = (mshp c).2)); [| tauto].
      exfalso. apply H. destruct (shp X), (mshp c). cbn in *. congruence.
  - split; [discriminate | intros (c & [=] & _)].
Qed.

Lemma bad_shape_bins_spec X bins :
  bad_shape_bins X bins = true <-> exists b, bins = Some b /\ shp X <> shp b.
Proof.
  unfold bad_shape_bins, shape_eqb. destruct bins as [b |].
  - rewrite negb_true_iff, andb_false_iff, !Nat.eqb_neq. split.
    + intros H. exists b. split; [reflexivity |]. intros E. rewrite E in H. tauto.
    + intros (b' & [= <-] & H).
      destruct (decide ((shp X).1 = (shp b).1)); [| tauto].
      destruct (decide ((shp X).2 = (shp b).2)); [| tauto].
      exfalso. apply H. destruct (shp X), (shp b). cbn in *. congruence.
  - split; [discriminate | intros (b & [=] & _)].
Qed.

Section ScorePixels.

Variable lib : SegLib.
Variables (X : ndarray) (k : Z) (method : string).
Variables (mo em vi bp : option kwargs).
Variables (cm : option mask) (bins : option ndarray).

Let run := _score_pixels lib X k method mo em vi bp cm bins.

(** A failed guard raises with the state, and so the call log, as it
    was. *)
Lemma score_pixels_guard_fails w :
  in_tuple (lower method) valid_methods = false
  \/ bad_shape_mask X cm = true \/ bad_shape_bins X bins = true ->
  run w = (w, Raise PreprocessingError).
Proof.
  subst run. unfold _score_pixels. intros [H | [H | H]].
  - rewrite H. reflexivity.
  - rewrite H. destruct (negb _); reflexivity.
  - rewrite H. destruct (negb _); [reflexivity |].
    destruct (bad_shape_mask _ _); reflexivity.
Qed.

(** Past the guards the first thing run is the 2-D convolution, and
    whatever is raised later is not a [PreprocessingError]. *)
Lemma score_pixels_past_guards w :
  in_tuple (lower method) valid_methods = true ->
  bad_shape_mask X cm = false ->
  bad_shape_bins X bins = false ->
  (run w).2 <> Raise PreprocessingError
  /\ adata (run w).1 = adata w
  /\ exists mode rest, calls (run w).1 = calls w ++ Conv2d mode :: rest.
Proof.
  subst run. intros Hm Hc Hb. unfold _score_pixels. rewrite Hm, Hc, Hb. cbn [negb].
  apply in_valid_methods in Hm.
  destruct cm as [c |], bins as [b |].
  all: destruct Hm as [-> | [-> | [-> | [-> | [-> | [-> | ->]]]]]]; cbn; unfold ext; run_m.
  all: repeat split_prim.
  all: repeat primitive_error.
  all: rewrite <- ?app_assoc; cbn [app].
  all: (split; [discriminate |]); (split; [reflexivity |]); eauto.
Qed.

(** [PreprocessingError] is raised exactly when a guard fails. *)
Lemma score_pixels_raises_iff w :
  (run w).2 = Raise PreprocessingError
  <-> in_tuple (lower method) valid_methods = false
      \/ bad_shape_mask X cm = true \/ bad_shape_bins X bins = true.
Proof.
  split.
  - intros H.
    destruct (in_tuple (lower method) valid_methods) eqn:Hm; [| auto].
    destruct (bad_shape_mask X cm) eqn:Hc; [auto |].
    destruct (bad_shape_bins X bins) eqn:Hb; [auto |].
    destruct (score_pixels_past_guards w Hm Hc Hb) as [Hne _]. contradiction.
  - intros H. rewrite (score_pixels_guard_fails w H). reflexivity.
Qed.

(** A run that returns has made the calls documented for its method,
    and its method is not [vi+gauss]. *)
Lemma score_pixels_dispatch w w' scores :
  run w = (w', Ok scores) ->
  lower method <> "vi+gauss"
  /\ adata w' = adata w
  /\ calls w' = calls w ++ documented_estimators (lower method).
Proof.
  subst run. unfold _score_pixels.
  destruct (in_tuple (lower method) valid_methods) eqn:Hm; [| discriminate].
  destruct (bad_shape_mask X cm); [discriminate |].
  destruct (bad_shape_bins X bins); [discriminate |]. cbn [negb].
  apply in_valid_methods in Hm.
  destruct cm as [c |], bins as [b |].
  all: destruct Hm as [-> | [-> | [-> | [-> | [-> | [-> | ->]]]]]]; cbn; unfold ext; run_m.
  all: repeat split_prim.
  all: intros [= <- <-]; cbn; rewrite <- ?app_assoc; cbn [app].
  all: split; [discriminate | split; reflexivity].
Qed.

(** The method [vi+gauss] passes the guards, runs the convolution and
    VI, and then reads [em_results], which only the EM branch binds. *)
Lemma score_pixels_vi_gauss w :
  lower method = "vi+gauss" ->
  bad_shape_mask X cm = false ->
  bad_shape_bins X bins = false ->
  run w = ({| adata := adata w; calls := calls w ++ [Conv2d circle; RunVI] |},
           Raise UnboundLocalError).
Proof.
  subst run. intros Hm Hc Hb. unfold _score_pixels. rewrite Hm, Hc, Hb. cbn.
  unfold ext; run_m. rewrite <- app_assoc. reflexivity.
Qed.

End ScorePixels.

(** C1 (the dispatch half fails on [VI+gauss]). The guards of
    [_score_pixels] accept the method [VI+gauss], and the convolution and
    the VI estimator are run; the function then raises
    [UnboundLocalError] instead of a score: the Gaussian blur that the
    method name stands for is never reached, so the calls made are not
    the documented ones. *)
Theorem score_pixels_vi_gauss_raises (lib : SegLib) (X : ndarray) (k : Z)
    (mo em vi bp : option kwargs) (w : world) :
  let r := _score_pixels lib X k "VI+gauss" mo em vi bp None None w in
  in_tuple (lower "VI+gauss") valid_methods = true
  /\ r = ({| adata := adata w; calls := calls w ++ [Conv2d circle; RunVI] |},
          Raise UnboundLocalError)
  /\ calls r.1 <> calls w ++ documented_estimators (lower "VI+gauss").
Proof.
  cbn zeta. split; [reflexivity |].
  rewrite (score_pixels_vi_gauss lib X k "VI+gauss" mo em vi bp None None w)
    by reflexivity.
  split; [reflexivity |]. cbn. intros H. apply app_inv_head in H. discriminate.
Qed.

(** *** [score_and_mask_pixels]: what a call that returns has done *)

#[local] Arguments _score_pixels : simpl never.

Lemma select_layer_data_ok layer d w w1 X :
  select_layer_data layer d w = (w1, Ok X) ->
  exists X0, layers (adata w) !! layer = Some X0
    /\ X = (if d && sparse X0 then todense X0 else X0)
    /\ w1 = {| adata := adata w; calls := calls w ++ [SelectLayer layer] |}.
Proof.
  unfold select_layer_data, SKM.select_layer_data.
  destruct (layers (adata w) !! layer) as [X0 |]; [| discriminate].
  intros [= <- <-]. eauto.
Qed.

Lemma ext_run {A} (c : call) (v : A) w :
  ext c v w = ({| adata := adata w; calls := calls w ++ [c] |}, Ok v).
Proof. reflexivity. Qed.

Lemma set_layer_data_run layer vals w :
  set_layer_data layer vals w =
  ({| adata := SKM.set_layer_data (adata w) layer vals;
      calls := calls w ++ [SetLayer layer] |}, Ok tt).
Proof. reflexivity. Qed.


Lemma world_eta (w : world) : {| adata := adata w; calls := calls w |} = w.
Proof. destruct w; reflexivity. Qed.

Lemma certain_step (certain_layer : option string) w1 w2 certain :
  (if truthy_opt_str certain_layer
   then c ← select_layer_data (default ""%string certain_layer) false;
        mret (Some (astype_bool c))
   else mret None) w1 = (w2, Ok certain) ->
  exists pre, Forall is_select pre
    /\ w2 = {| adata := adata w1; calls := calls w1 ++ pre |}
    /\ certain = (if truthy_opt_str certain_layer
                  then astype_bool <$> (layers (adata w1) !! default ""%string certain_layer)
                  else None)
    /\ (truthy_opt_str certain_layer = true -> is_Some certain).
Proof.
  destruct (truthy_opt_str certain_layer).
  - intros H. apply bind_ok_inv in H as (w & c & H & [= <- <-]).
    apply select_layer_data_ok in H as (C & HC & -> & ->).
    exists [SelectLayer (default ""%string certain_layer)].
    rewrite HC. cbn. repeat split; eauto. repeat constructor.
  - intros [= <- <-]. exists []. rewrite app_nil_r, world_eta.
    repeat split; [constructor | discriminate].
Qed.

Lemma bins_step (layer : string) (bins_layer : bins_arg) (ad : AnnData) w2 w3 bins :
  match bins_layer with
  | BinsFalse => mret None
  | _ =>
      let bins_layer :=
        or_str (match bins_layer with BinsLayer n => Some n | _ => None end)
               (SKM.gen_new_layer_key layer SKM.BINS_SUFFIX) in
      if bool_decide (bins_layer ∈ dom (layers ad))
      then b ← select_layer_data bins_layer false; mret (Some b)
      else mret None
  end w2 = (w3, Ok bins) ->
  exists pre, Forall is_select pre
    /\ w3 = {| adata := adata w2; calls := calls w2 ++ pre |}.
Proof.
  assert (Hnil : forall o, (mret o : M world (option ndarray)) w2 = (w3, Ok bins) ->
            exists pre, Forall is_select pre
              /\ w3 = {| adata := adata w2; calls := calls w2 ++ pre |}).
  { intros o [= <- <-]. exists []. rewrite app_nil_r, world_eta. split; constructor. }
  assert (Hsel : forall name,
            (if bool_decide (name ∈ dom (layers ad))
             then b ← select_layer_data name false; mret (Some b)
             else mret None) w2 = (w3, Ok bins) ->
            exists pre, Forall is_select pre
              /\ w3 = {| adata := adata w2; calls := calls w2 ++ pre |}).
  { intros name. destruct (bool_decide _); [| apply Hnil].
    intros H. apply bind_ok_inv in H as (w & b & H & [= <- <-]).
    apply select_layer_data_ok in H as (B & _ & _ & ->).
    exists [SelectLayer name]. split; [repeat constructor | reflexivity]. }
  destruct bins_layer; cbn zeta; [apply Hsel | apply Hnil | apply Hsel].
Qed.

Lemma threshold_step lib (threshold : option Qc) (method : string) scores w5 w6 thr :
  (if negb (truthy_opt_Qc threshold) then
     if contains "bp" method then
       ts ← ext (ThresholdMultiotsu 3) (threshold_multiotsu lib scores 3);
       lift (index ts 1)
     else ext ThresholdOtsu (threshold_otsu lib scores)
   else mret (default 0%Qc threshold)) w5 = (w6, Ok thr) ->
  threshold_as_selected lib threshold method scores = Ok thr
  /\ w6 = {| adata := adata w5;
             calls := calls w5 ++ (if truthy_opt_Qc threshold then []
                                   else auto_threshold_calls method) |}.
Proof.
  unfold threshold_as_selected, auto_threshold, auto_threshold_calls, truthy_opt_Qc.
  destruct threshold as [t |]; cbn [negb default].
  - destruct (bool_decide (t = 0%Qc)); cbn [negb].
    + destruct (contains "bp" method).
      * intros H. apply bind_ok_inv in H as (w & ts & [= <- <-] & H).
        unfold lift in H. injection H as <- H. auto.
      * intros [= <- <-]. auto.
    + intros [= <- <-]. rewrite app_nil_r, world_eta. auto.
  - destruct (contains "bp" method).
    + intros H. apply bind_ok_inv in H as (w & ts & [= <- <-] & H).
      unfold lift in H. injection H as <- H. auto.
    + intros [= <- <-]. auto.
Qed.

Lemma mask_step (certain_layer : option string) (certain : option mask) (m0 : mask) w7 w8 m :
  (truthy_opt_str certain_layer = false -> certain = None) ->
  (if truthy_opt_str certain_layer then
     match certain return M world mask with
     | Some c => lift (iadd_mask m0 c)
     | None => raise TypeError
     end
   else mret m0) w7 = (w8, Ok m) ->
  w8 = w7 /\ match certain with
             | Some c => iadd_mask m0 c
             | None => Ok m0
             end = Ok m.
Proof.
  intros Hn. destruct (truthy_opt_str certain_layer).
  - destruct certain as [c |]; [| discriminate]. intros [= <- H]. auto.
  - rewrite Hn by reflexivity. intros [= <- <-]. auto.
Qed.

Lemma score_and_mask_pixels_inv lib layer k method mo em vi bp threshold mk
    bins_layer certain_layer scores_layer mask_layer w w' :
  score_and_mask_pixels lib layer k method mo em vi bp threshold mk bins_layer
    certain_layer scores_layer mask_layer w = (w', Ok tt) ->
  exists X0 certain bins pre w2 scores thr m,
    layers (adata w) !! layer = Some X0
    /\ certain = (if truthy_opt_str certain_layer
                  then astype_bool <$> (layers (adata w) !! default ""%string certain_layer)
                  else None)
    /\ (truthy_opt_str certain_layer = true -> is_Some certain)
    /\ Forall is_select pre
    /\ _score_pixels lib (dense X0) k (lower method) mo em vi bp certain bins
         {| adata := adata w; calls := calls w ++ SelectLayer layer :: pre |}
       = (w2, Ok scores)
    /\ threshold_as_selected lib threshold (lower method) scores = Ok thr
    /\ match certain with
       | Some c => iadd_mask (apply_threshold lib scores (kernel mk k (lower method)) thr) c
       | None => Ok (apply_threshold lib scores (kernel mk k (lower method)) thr)
       end = Ok m
    /\ adata w' =
       SKM.set_layer_data
         (SKM.set_layer_data (adata w2)
            (or_str scores_layer (layer ++ "_scores")%string) scores)
         (or_str mask_layer (layer ++ "_mask")%string) (of_mask m)
    /\ calls w' =
       calls w2 ++ SetLayer (or_str scores_layer (layer ++ "_scores")%string)
         :: (if truthy_opt_Qc threshold then [] else auto_threshold_calls (lower method))
         ++ [ApplyThreshold (kernel mk k (lower method)) thr;
             SetLayer (or_str mask_layer (layer ++ "_mask")%string)].
Proof.
  unfold score_and_mask_pixels. intros H.
  apply bind_ok_inv in H as (w1 & X & H1 & H).
  apply select_layer_data_ok in H1 as (X0 & HX & -> & ->).
  apply bind_ok_inv in H as (w2 & certain & H2 & H).
  apply bind_ok_inv in H as (w2' & ad & Had & H). injection Had as <- <-.
  apply bind_ok_inv in H as (w3 & bins & H3 & H).
  apply bind_ok_inv in H as (w4 & scores & H4 & H).
  apply bind_ok_inv in H as (w5 & [] & H5 & H).
  rewrite set_layer_data_run in H5. injection H5 as <-.
  apply bind_ok_inv in H as (w6 & thr & H6 & H).
  apply bind_ok_inv in H as (w7 & m0 & H7 & H).
  rewrite ext_run in H7. injection H7 as <- <-.
  apply bind_ok_inv in H as (w8 & m & H8 & H).
  rewrite set_layer_data_run in H. injection H as <-.
  apply certain_step in H2 as (pre1 & Hpre1 & -> & Hc & Hsome).
  apply bins_step in H3 as (pre2 & Hpre2 & ->).
  apply threshold_step in H6 as (Hthr & ->).
  apply mask_step in H8 as (-> & Hm).
  2:{ intros Hf. rewrite Hc, Hf. reflexivity. }
  cbn [adata calls] in *.
  exists X0, certain, bins, (pre1 ++ pre2), w4, scores, thr, m.
  split; [exact HX |]. split; [exact Hc |]. split; [exact Hsome |].
  split; [apply Forall_app; auto |].
  split.
  { rewrite <- H4. unfold dense. cbn [andb]. do 2 f_equal.
    rewrite <- !app_assoc. reflexivity. }
  split; [exact Hthr |]. split; [exact Hm |].
  split; [reflexivity |].
  rewrite <- !app_assoc. reflexivity.
Qed.

Lemma lower_ascii_idem c : lower_ascii (lower_ascii c) = lower_ascii c.
Proof. destruct c as [[] [] [] [] [] [] [] []]; reflexivity. Qed.

Lemma lower_idem s : lower (lower s) = lower s.
Proof. induction s as [| c s IH]; cbn; [reflexivity |]. rewrite lower_ascii_idem, IH. reflexivity. Qed.

(** The steps of a call that returns, with the log spelled out. *)
Lemma score_and_mask_pixels_trace lib layer k method mo em vi bp threshold mk
    bins_layer certain_layer scores_layer mask_layer w w' :
  score_and_mask_pixels lib layer k method mo em vi bp threshold mk bins_layer
    certain_layer scores_layer mask_layer w = (w', Ok tt) ->
  exists X0 certain bins pre scores thr m,
    layers (adata w) !! layer = Some X0
    /\ certain = (if truthy_opt_str certain_layer
                  then astype_bool <$> (layers (adata w) !! default ""%string certain_layer)
                  else None)
    /\ (truthy_opt_str certain_layer = true -> is_Some certain)
    /\ Forall is_select pre
    /\ (_score_pixels lib (dense X0) k (lower method) mo em vi bp certain bins
          {| adata := adata w; calls := calls w ++ SelectLayer layer :: pre |}).2
       = Ok scores
    /\ threshold_as_selected lib threshold (lower method) scores = Ok thr
    /\ match certain with
       | Some c => iadd_mask (apply_threshold lib scores (kernel mk k (lower method)) thr) c
       | None => Ok (apply_threshold lib scores (kernel mk k (lower method)) thr)
       end = Ok m
    /\ adata w' =
       SKM.set_layer_data
         (SKM.set_layer_data (adata w)
            (or_str scores_layer (layer ++ "_scores")%string) scores)
         (or_str mask_layer (layer ++ "_mask")%string) (of_mask m)
    /\ calls w' =
       calls w ++ SelectLayer layer :: pre
         ++ documented_estimators (lower method)
         ++ SetLayer (or_str scores_layer (layer ++ "_scores")%string)
         :: (if truthy_opt_Qc threshold then [] else auto_threshold_calls (lower method))
         ++ [ApplyThreshold (kernel mk k (lower method)) thr;
             SetLayer (or_str mask_layer (layer ++ "_mask")%string)].
Proof.
  intros H.
  apply score_and_mask_pixels_inv in H
    as (X0 & certain & bins & pre & w2 & scores & thr & m
        & HX & Hc & Hsome & Hpre & Hs & Hthr & Hm & Had & Hcalls).
  pose proof Hs as Hd. apply score_pixels_dispatch in Hd as (_ & Had2 & Hcalls2).
  cbn [adata calls] in Had2, Hcalls2. rewrite lower_idem in Hcalls2.
  exists X0, certain, bins, pre, scores, thr, m.
  rewrite Hs, Had, Had2, Hcalls, Hcalls2, <- !app_assoc. tauto.
Qed.


Lemma applied_thresholds_app cs ds :
  applied_thresholds (cs ++ ds) = applied_thresholds cs ++ applied_thresholds ds.
Proof. apply flat_map_app. Qed.

Lemma applied_thresholds_select pre :
  Forall is_select pre -> applied_thresholds pre = [].
Proof.
  induction 1 as [| c pre Hc _ IH]; [reflexivity |].
  destruct c; try contradiction. exact IH.
Qed.

Lemma applied_thresholds_estimators m :
  applied_thresholds (documented_estimators m) = [].
Proof.
  unfold documented_estimators.
  repeat (match goal with |- context [if ?b then _ else _] => destruct b end);
    reflexivity.
Qed.

Lemma applied_thresholds_auto m : applied_thresholds (auto_threshold_calls m) = [].
Proof. unfold auto_threshold_calls. destruct (contains _ _); reflexivity. Qed.


(** C2. A call of [score_and_mask_pixels] that returns has, in this order:
    read the raw layer, computed the pixel scores with [_score_pixels],
    stored them under [scores_layer] (by default [{layer}_scores]), applied
    a threshold to those scores, and stored the mask under [mask_layer] (by
    default [{layer}_mask]). Afterwards both layers are in [adata.layers],
    and the stored mask is the morphologically cleaned thresholding of the
    scores that were stored, OR-ed with the certain mask when a certain
    layer is given. *)
Theorem score_and_mask_pixels_flow (lib : SegLib) (layer : string) (k : Z)
    (method : string) (mo em vi bp : option kwargs) (threshold : option Qc)
    (mk : option Z) (bins_layer : bins_arg)
    (certain_layer scores_layer mask_layer : option string) (w w' : world) :
  score_and_mask_pixels lib layer k method mo em vi bp threshold mk bins_layer
    certain_layer scores_layer mask_layer w = (w', Ok tt) ->
  let scores_key := or_str scores_layer (layer ++ "_scores")%string in
  let mask_key := or_str mask_layer (layer ++ "_mask")%string in
  let ksize := kernel mk k (lower method) in
  exists (X0 : ndarray) (certain : option mask) (bins : option ndarray)
         (pre : list call) (scores : ndarray) (thr : Qc) (m : mask),
    layers (adata w) !! layer = Some X0
    /\ certain = (if truthy_opt_str certain_layer
                  then astype_bool <$> (layers (adata w) !! default ""%string certain_layer)
                  else None)
    /\ (_score_pixels lib (dense X0) k (lower method) mo em vi bp certain bins
          {| adata := adata w; calls := calls w ++ SelectLayer layer :: pre |}).2
       = Ok scores
    /\ Forall is_select pre
    /\ calls w' =
       calls w ++ SelectLayer layer :: pre
         ++ documented_estimators (lower method)
         ++ SetLayer scores_key
         :: (if truthy_opt_Qc threshold then [] else auto_threshold_calls (lower method))
         ++ [ApplyThreshold ksize thr; SetLayer mask_key]
    /\ match certain with
       | Some c => iadd_mask (apply_threshold lib scores ksize thr) c
       | None => Ok (apply_threshold lib scores ksize thr)
       end = Ok m
    /\ adata w' =
       SKM.set_layer_data (SKM.set_layer_data (adata w) scores_key scores)
         mask_key (of_mask m)
    /\ is_Some (layers (adata w') !! scores_key)
    /\ layers (adata w') !! mask_key = Some (of_mask m)
    /\ (scores_key <> mask_key -> layers (adata w') !! scores_key = Some scores).
Proof.
  intros H. cbn zeta.
  apply score_and_mask_pixels_trace in H
    as (X0 & certain & bins & pre & scores & thr & m
        & HX & Hc & _ & Hpre & Hs & _ & Hm & Had & Hcalls).
  exists X0, certain, bins, pre, scores, thr, m.
  split; [exact HX |]. split; [exact Hc |]. split; [exact Hs |].
  split; [exact Hpre |]. split; [exact Hcalls |]. split; [exact Hm |].
  rewrite Had. split; [reflexivity |].
  unfold SKM.set_layer_data, with_layers. cbn [layers].
  split.
  { destruct (decide (or_str mask_layer (layer ++ "_mask")%string
                      = or_str scores_layer (layer ++ "_scores")%string)) as [-> | Hne].
    - rewrite lookup_insert_eq. eauto.
    - rewrite lookup_insert_ne, lookup_insert_eq by exact Hne. eauto. }
  split; [apply lookup_insert_eq |].
  intros Hne. rewrite lookup_insert_ne, lookup_insert_eq by congruence. reflexivity.
Qed.

Lemma score_and_mask_pixels_flow_witness :
  let run := score_and_mask_pixels seglib "X" 3 "gauss" None None None None None None
               BinsNone (Some "nuclei"%string) None None in
  run w0 = ((run w0).1, Ok tt)
  /\ exists X0 certain bins pre scores thr m,
       layers (adata w0) !! "X"%string = Some X0
       /\ certain = Some (astype_bool nuclei)
       /\ (_score_pixels seglib (dense X0) 3 "gauss" None None None None certain bins
             {| adata := adata w0; calls := calls w0 ++ SelectLayer "X" :: pre |}).2
          = Ok scores
       /\ calls (run w0).1 =
            [SelectLayer "X"] ++ pre ++ [Conv2d gauss; ScaleTo01; SetLayer "X_scores";
             ThresholdOtsu; ApplyThreshold 3 thr; SetLayer "X_mask"]
       /\ iadd_mask (apply_threshold seglib scores 3 thr) (astype_bool nuclei) = Ok m
       /\ layers (adata (run w0).1) !! "X_mask"%string = Some (of_mask m).
Proof.
  cbn zeta.
  assert (E : score_and_mask_pixels seglib "X" 3 "gauss" None None None None None None
               BinsNone (Some "nuclei"%string) None None w0
              = ((score_and_mask_pixels seglib "X" 3 "gauss" None None None None None None
               BinsNone (Some "nuclei"%string) None None w0).1, Ok tt)).
  { apply run_ok_eq. vm_compute. reflexivity. }
  split; [exact E |].
  destruct (score_and_mask_pixels_flow _ _ _ _ _ _ _ _ _ _ _ _ _ _ _ _ E)
    as (X0 & certain & bins & pre & scores & thr & m
        & HX & Hc & Hs & Hpre & Hcalls & Hm & Had & _ & Hmask & _).
  exists X0, certain, bins, pre, scores, thr, m.
  subst certain. cbn in Hm.
  split; [exact HX |]. split; [reflexivity |]. split; [exact Hs |].
  split; [exact Hcalls |]. split; [exact Hm |]. exact Hmask.
Defined.

(** The bins a call works with: the layer of that name when it is
    there. *)
Lemma bins_step_value (layer : string) (bins_layer : bins_arg) (ad : AnnData) w2 w3 bins :
  match bins_layer with
  | BinsFalse => mret None
  | _ =>
      let bins_layer :=
        or_str (match bins_layer with BinsLayer n => Some n | _ => None end)
               (SKM.gen_new_layer_key layer SKM.BINS_SUFFIX) in
      if bool_decide (bins_layer ∈ dom (layers ad))
      then b ← select_layer_data bins_layer false; mret (Some b)
      else mret None
  end w2 = (w3, Ok bins) ->
  layers (adata w2) = layers ad ->
  bins = match bins_layer with
         | BinsFalse => None
         | _ => layers ad !! or_str (match bins_layer with
                                     | BinsLayer n => Some n
                                     | _ => None
                                     end) (layer ++ "_bins")%string
         end.
Proof.
  intros H Had.
  assert (Hsel : forall name,
            (if bool_decide (name ∈ dom (layers ad))
             then b ← select_layer_data name false; mret (Some b)
             else mret None) w2 = (w3, Ok bins) ->
            bins = layers ad !! name).
  { intros name. destruct (bool_decide_reflect (name ∈ dom (layers ad))) as [Hin | Hin].
    - intros E. apply bind_ok_inv in E as (w & b & E & [= <- <-]).
      apply select_layer_data_ok in E as (B & HB & -> & _).
      rewrite <- Had, HB. reflexivity.
    - intros [= <- <-]. symmetry. apply not_elem_of_dom. exact Hin. }
  destruct bins_layer; cbn zeta in H;
    [apply Hsel, H | injection H as <- <-; reflexivity | apply Hsel, H].
Qed.

(** A call that returns, step by step: the layer, the certain mask and
    the bins it read, the scores it computed and stored, the threshold it
    selected, and the mask it made with that threshold and stored. *)
Lemma score_and_mask_pixels_links lib layer k method mo em vi bp threshold mk
    bins_layer certain_layer scores_layer mask_layer w w' :
  score_and_mask_pixels lib layer k method mo em vi bp threshold mk bins_layer
    certain_layer scores_layer mask_layer w = (w', Ok tt) ->
  let certain :=
    if truthy_opt_str certain_layer
    then astype_bool <$> (layers (adata w) !! default ""%string certain_layer)
    else None in
  let bins :=
    match bins_layer with
    | BinsFalse => None
    | _ => layers (adata w) !! or_str (match bins_layer with
                                        | BinsLayer n => Some n
                                        | _ => None
                                        end) (layer ++ "_bins")%string
    end in
  exists X0 pre scores thr m,
    layers (adata w) !! layer = Some X0
    /\ Forall is_select pre
    /\ (_score_pixels lib (dense X0) k (lower method) mo em vi bp certain bins
          {| adata := adata w; calls := calls w ++ SelectLayer layer :: pre |}).2
       = Ok scores
    /\ threshold_as_selected lib threshold (lower method) scores = Ok thr
    /\ match certain with
       | Some c => iadd_mask (apply_threshold lib scores (kernel mk k (lower method)) thr) c
       | None => Ok (apply_threshold lib scores (kernel mk k (lower method)) thr)
       end = Ok m
    /\ adata w' =
       SKM.set_layer_data
         (SKM.set_layer_data (adata w)
            (or_str scores_layer (layer ++ "_scores")%string) scores)
         (or_str mask_layer (layer ++ "_mask")%string) (of_mask m)
    /\ calls w' =
       calls w ++ SelectLayer layer :: pre
         ++ documented_estimators (lower method)
         ++ SetLayer (or_str scores_layer (layer ++ "_scores")%string)
         :: (if truthy_opt_Qc threshold then [] else auto_threshold_calls (lower method))
         ++ [ApplyThreshold (kernel mk k (lower method)) thr;
             SetLayer (or_str mask_layer (layer ++ "_mask")%string)].
Proof.
  unfold score_and_mask_pixels. intros H. cbv zeta.
  apply bind_ok_inv in H as (w1 & X & H1 & H).
  apply select_layer_data_ok in H1 as (X0 & HX & -> & ->).
  apply bind_ok_inv in H as (w2 & certain & H2 & H).
  apply bind_ok_inv in H as (w2' & ad & Had & H). injection Had as <- <-.
  apply bind_ok_inv in H as (w3 & bins & H3 & H).
  apply bind_ok_inv in H as (w4 & scores & H4 & H).
  apply bind_ok_inv in H as (w5 & [] & H5 & H).
  rewrite set_layer_data_run in H5. injection H5 as <-.
  apply bind_ok_inv in H as (w6 & thr & H6 & H).
  apply bind_ok_inv in H as (w7 & m0 & H7 & H).
  rewrite ext_run in H7. injection H7 as <- <-.
  apply bind_ok_inv in H as (w8 & m & H8 & H).
  rewrite set_layer_data_run in H. injection H as <-.
  apply certain_step in H2 as (pre1 & Hpre1 & -> & Hc & Hsome).
  pose proof (bins_step_value _ _ _ _ _ _ H3 eq_refl) as Hb.
  apply bins_step in H3 as (pre2 & Hpre2 & ->).
  apply threshold_step in H6 as (Hthr & ->).
  apply mask_step in H8 as (-> & Hm).
  2:{ intros Hf. rewrite Hc, Hf. reflexivity. }
  cbn [adata calls] in *. subst certain bins.
  pose proof H4 as Hd. apply score_pixels_dispatch in Hd as (_ & Had2 & Hcalls2).
  cbn [adata calls] in Had2, Hcalls2. rewrite lower_idem in Hcalls2.
  exists X0, (pre1 ++ pre2), scores, thr, m.
  split; [exact HX |]. split; [apply Forall_app; auto |].
  split.
  { unfold dense. cbn [andb] in H4. rewrite <- !app_assoc in H4. cbn [app] in H4.
    rewrite H4. reflexivity. }
  split; [exact Hthr |]. split; [exact Hm |].
  rewrite Had2, Hcalls2, <- !app_assoc. split; reflexivity.
Qed.

(** C3 (amended). A call that returns has computed the scores from the
    layer it read (with the certain mask and the bins it found) and has
    stored them; the threshold it hands to [utils.apply_threshold], with
    which the stored mask is made from those scores, is the caller's when
    one is supplied and is not zero; when none is supplied, or the one
    supplied is zero, it is found from those scores: the second threshold
    of the 3-class multi-Otsu method when the lowercased method contains
    [bp], Otsu's threshold otherwise. *)
Theorem score_and_mask_pixels_threshold (lib : SegLib) (layer : string) (k : Z)
    (method : string) (mo em vi bp : option kwargs) (threshold : option Qc)
    (mk : option Z) (bins_layer : bins_arg)
    (certain_layer scores_layer mask_layer : option string) (w w' : world) :
  score_and_mask_pixels lib layer k method mo em vi bp threshold mk bins_layer
    certain_layer scores_layer mask_layer w = (w', Ok tt) ->
  let scores_key := or_str scores_layer (layer ++ "_scores")%string in
  let mask_key := or_str mask_layer (layer ++ "_mask")%string in
  let ksize := kernel mk k (lower method) in
  let certain :=
    if truthy_opt_str certain_layer
    then astype_bool <$> (layers (adata w) !! default ""%string certain_layer)
    else None in
  let bins :=
    match bins_layer with
    | BinsFalse => None
    | _ => layers (adata w) !! or_str (match bins_layer with
                                        | BinsLayer n => Some n
                                        | _ => None
                                        end) (layer ++ "_bins")%string
    end in
  exists (X0 : ndarray) (pre : list call) (scores : ndarray) (thr : Qc) (m : mask),
    layers (adata w) !! layer = Some X0
    /\ Forall is_select pre
    /\ (_score_pixels lib (dense X0) k (lower method) mo em vi bp certain bins
          {| adata := adata w; calls := calls w ++ SelectLayer layer :: pre |}).2
       = Ok scores
    /\ (scores_key <> mask_key -> layers (adata w') !! scores_key = Some scores)
    /\ threshold_as_selected lib threshold (lower method) scores = Ok thr
    /\ (threshold = None \/ threshold = Some 0%Qc ->
        (if contains "bp" (lower method)
         then index (threshold_multiotsu lib scores 3) 1
         else Ok (threshold_otsu lib scores)) = Ok thr)
    /\ (forall t, threshold = Some t -> t <> 0%Qc -> thr = t)
    /\ applied_thresholds (calls w') = applied_thresholds (calls w) ++ [thr]
    /\ match certain with
       | Some c => iadd_mask (apply_threshold lib scores ksize thr) c
       | None => Ok (apply_threshold lib scores ksize thr)
       end = Ok m
    /\ layers (adata w') !! mask_key = Some (of_mask m).
Proof.
  intros H. cbv zeta.
  apply score_and_mask_pixels_links in H
    as (X0 & pre & scores & thr & m & HX & Hpre & Hs & Hthr & Hm & Had & Hcalls).
  exists X0, pre, scores, thr, m.
  split; [exact HX |]. split; [exact Hpre |]. split; [exact Hs |].
  split.
  { intros Hne. rewrite Had. unfold SKM.set_layer_data, with_layers. cbn [layers].
    rewrite lookup_insert_ne, lookup_insert_eq by congruence. reflexivity. }
  split; [exact Hthr |].
  split.
  { intros [-> | ->]; [exact Hthr |].
    unfold threshold_as_selected in Hthr.
    rewrite bool_decide_eq_true_2 in Hthr by reflexivity. exact Hthr. }
  split.
  { intros t -> Ht. unfold threshold_as_selected in Hthr.
    rewrite bool_decide_eq_false_2 in Hthr by exact Ht. congruence. }
  split.
  { rewrite Hcalls.
    change (SelectLayer layer :: pre ++ ?r) with ([SelectLayer layer] ++ pre ++ r).
    rewrite !applied_thresholds_app, (applied_thresholds_select pre Hpre),
      applied_thresholds_estimators.
    cbn [applied_thresholds flat_map app].
    rewrite applied_thresholds_app.
    destruct (truthy_opt_Qc threshold);
      [| rewrite applied_thresholds_auto]; reflexivity. }
  split; [exact Hm |].
  rewrite Had. unfold SKM.set_layer_data, with_layers. cbn [layers].
  apply lookup_insert_eq.
Qed.

(** When the threshold supplied is not zero, the selection is the
    described one. *)
Lemma threshold_as_selected_described lib threshold method scores :
  threshold <> Some 0%Qc ->
  threshold_as_selected lib threshold method scores
  = threshold_as_described lib threshold method scores.
Proof.
  intros Hne. unfold threshold_as_selected, threshold_as_described.
  destruct threshold as [t |]; [| reflexivity].
  destruct (bool_decide_reflect (t = 0%Qc)) as [-> | _]; [contradiction | reflexivity].
Qed.

Lemma score_and_mask_pixels_threshold_witness :
  let run := score_and_mask_pixels seglib "X" 3 "gauss" None None None None
               (Some third) None BinsNone None None None in
  run w0 = ((run w0).1, Ok tt)
  /\ applied_thresholds (calls (run w0).1) = [third]
  /\ exists pre scores,
       Forall is_select pre
       /\ (_score_pixels seglib (dense img) 3 "gauss" None None None None None None
             {| adata := adata w0; calls := calls w0 ++ SelectLayer "X" :: pre |}).2
          = Ok scores
       /\ layers (adata (run w0).1) !! "X_scores"%string = Some scores
       /\ layers (adata (run w0).1) !! "X_mask"%string
          = Some (of_mask (apply_threshold seglib scores 3 third)).
Proof.
  cbn zeta.
  assert (E : score_and_mask_pixels seglib "X" 3 "gauss" None None None None
               (Some third) None BinsNone None None None w0
              = ((score_and_mask_pixels seglib "X" 3 "gauss" None None None None
               (Some third) None BinsNone None None None w0).1, Ok tt)).
  { apply run_ok_eq. vm_compute. reflexivity. }
  split; [exact E |].
  destruct (score_and_mask_pixels_threshold _ _ _ _ _ _ _ _ _ _ _ _ _ _ _ _ E)
    as (X0 & pre & scores & thr & m & HX & Hpre & Hs & Hsc & Hthr & _ & _ & Hcalls
        & Hm & Hmask).
  assert (HX0 : layers (adata w0) !! "X"%string = Some img) by reflexivity.
  rewrite HX0 in HX. injection HX as <-.
  cbn in Hthr. injection Hthr as <-.
  split; [rewrite Hcalls; reflexivity |].
  exists pre, scores. cbn in Hm. injection Hm as <-.
  split; [exact Hpre |].
  split; [exact Hs |].
  split; [apply Hsc; discriminate | exact Hmask].
Defined.

(** C3 as worded fails: with [threshold=0.0] supplied and the method
    [gauss], the threshold applied is Otsu's (here 1/2), not the 0 that
    was supplied. *)
Lemma supplied_zero_threshold_not_applied :
  let r := score_and_mask_pixels seglib "X" 3 "gauss" None None None None
             (Some 0%Qc) None BinsNone None None None w0 in
  r.2 = Ok tt
  /\ ~ (exists scores thr,
          threshold_as_described seglib (Some 0%Qc) (lower "gauss") scores = Ok thr
          /\ applied_thresholds (calls r.1) = applied_thresholds (calls w0) ++ [thr]).
Proof.
  cbn zeta. split; [vm_compute; reflexivity |].
  intros (scores & thr & Hthr & Hcalls).
  cbn in Hthr. injection Hthr as <-.
  vm_compute in Hcalls. discriminate Hcalls.
Qed.

(** *** The masks from a staining image *)

Section Stain.

Variable lib : SegLib.
Variables (otsu_classes : nat) (otsu_index local_k offset mk : Z).
Variables (layer : string) (out_layer : option string).

Let cells := mask_cells_from_stain lib otsu_classes otsu_index mk layer out_layer.
Let nuclei := mask_nuclei_from_stain lib otsu_classes otsu_index local_k offset mk
                layer out_layer.
Let out := or_str out_layer (layer ++ "_mask")%string.

Lemma stain_layer_absent w :
  layer ∉ dom (layers (adata w)) ->
  cells w = (w, Raise PreprocessingError) /\ nuclei w = (w, Raise PreprocessingError).
Proof.
  intros H. subst cells nuclei. unfold mask_cells_from_stain, mask_nuclei_from_stain.
  rewrite !bind_run. cbn [read_adata].
  rewrite bool_decide_eq_false_2 by exact H. split; reflexivity.
Qed.

Lemma mask_cells_run X w :
  _mask_cells_from_stain lib X otsu_classes otsu_index mk w =
  match index (threshold_multiotsu lib X otsu_classes) otsu_index with
  | Ok t => ({| adata := adata w;
                calls := calls w ++ [ThresholdMultiotsu otsu_classes; McloseMopen mk] |},
             Ok (mclose_mopen lib (ge_scalar X t) mk))
  | Raise e => ({| adata := adata w;
                   calls := calls w ++ [ThresholdMultiotsu otsu_classes] |}, Raise e)
  end.
Proof.
  unfold _mask_cells_from_stain. rewrite bind_run, ext_run, bind_run, lift_run.
  destruct (index _ _); [| reflexivity].
  rewrite ext_run. cbn [adata calls]. rewrite <- app_assoc. reflexivity.
Qed.

Lemma mask_cells_from_stain_present w X0 :
  layers (adata w) !! layer = Some X0 ->
  cells w =
  match index (threshold_multiotsu lib (dense X0) otsu_classes) otsu_index with
  | Ok t =>
      ({| adata := SKM.set_layer_data (adata w) out
                     (of_mask (mclose_mopen lib (ge_scalar (dense X0) t) mk));
          calls := calls w ++ [SelectLayer layer; ThresholdMultiotsu otsu_classes;
                               McloseMopen mk; SetLayer out] |}, Ok tt)
  | Raise e =>
      ({| adata := adata w;
          calls := calls w ++ [SelectLayer layer; ThresholdMultiotsu otsu_classes] |},
       Raise e)
  end.
Proof.
  intros HX. subst cells out. unfold mask_cells_from_stain.
  rewrite bind_run. cbn [read_adata].
  rewrite bool_decide_eq_true_2 by (apply elem_of_dom; eauto). cbn [negb].
  rewrite bind_run. unfold select_layer_data, SKM.select_layer_data. rewrite HX.
  cbn [andb]. fold (dense X0). rewrite bind_run, mask_cells_run. cbn [adata calls].
  destruct (index _ _); rewrite <- ?app_assoc; [| reflexivity].
  rewrite set_layer_data_run. cbn [adata calls]. rewrite <- app_assoc. reflexivity.
Qed.


Lemma mask_nuclei_run X off w :
  _mask_nuclei_from_stain lib X otsu_classes otsu_index local_k off mk w =
  match index (threshold_multiotsu lib X otsu_classes) otsu_index with
  | Raise e => ({| adata := adata w;
                   calls := calls w ++ [ThresholdMultiotsu otsu_classes] |}, Raise e)
  | Ok t =>
      match fg ← (local ← local_mask lib X local_k off;
                  and_ (invert (lt_scalar X t)) local);
            Ok (mclose_mopen lib fg mk) with
      | Raise e =>
          ({| adata := adata w;
              calls := calls w ++ [ThresholdMultiotsu otsu_classes; local_call X] |},
           Raise e)
      | Ok m =>
          ({| adata := adata w;
              calls := calls w ++ [ThresholdMultiotsu otsu_classes; local_call X;
                                   McloseMopen mk] |}, Ok m)
      end
  end.
Proof.
  unfold _mask_nuclei_from_stain, local_mask, local_call.
  rewrite bind_run, ext_run, bind_run, lift_run.
  destruct (index _ _) as [t | e]; [| reflexivity].
  rewrite bind_run.
  destruct (dt X); unfold ext; run_m; rewrite <- ?app_assoc; cbn [app].
  all: repeat split_prim; rewrite <- ?app_assoc; reflexivity.
Qed.

Lemma mask_nuclei_from_stain_present w X0 :
  layers (adata w) !! layer = Some X0 ->
  nuclei w =
  match index (threshold_multiotsu lib (dense X0) otsu_classes) otsu_index with
  | Raise e =>
      ({| adata := adata w;
          calls := calls w ++ [SelectLayer layer; ThresholdMultiotsu otsu_classes] |},
       Raise e)
  | Ok t =>
      match fg ← (local ← local_mask lib (dense X0) local_k (- offset);
                  and_ (invert (lt_scalar (dense X0) t)) local);
            Ok (mclose_mopen lib fg mk) with
      | Raise e =>
          ({| adata := adata w;
              calls := calls w ++ [SelectLayer layer; ThresholdMultiotsu otsu_classes;
                                   local_call (dense X0)] |}, Raise e)
      | Ok m =>
          ({| adata := SKM.set_layer_data (adata w) out (of_mask m);
              calls := calls w ++ [SelectLayer layer; ThresholdMultiotsu otsu_classes;
                                   local_call (dense X0); McloseMopen mk;
                                   SetLayer out] |}, Ok tt)
      end
  end.
Proof.
  intros HX. subst nuclei out. unfold mask_nuclei_from_stain.
  rewrite bind_run. cbn [read_adata].
  rewrite bool_decide_eq_true_2 by (apply elem_of_dom; eauto). cbn [negb].
  rewrite bind_run. unfold select_layer_data, SKM.select_layer_data. rewrite HX.
  cbn [andb]. fold (dense X0). rewrite bind_run, mask_nuclei_run. cbn [adata calls].
  destruct (index _ _); rewrite <- ?app_assoc; [| reflexivity].
  destruct (_ ≫= _); rewrite <- ?app_assoc; [| reflexivity].
  rewrite set_layer_data_run. cbn [adata calls]. rewrite <- app_assoc. reflexivity.
Qed.

End Stain.

(** C8 (amended). [mask_cells_from_stain] and [mask_nuclei_from_stain]
    raise [PreprocessingError] when the staining layer is not in
    [adata.layers], and then leave [adata] (and the call log) as they
    were. When the layer is there and [otsu_index] selects one of the
    multi-Otsu thresholds, [t], the cell mask stored under [out_layer]
    (by default [{layer}_mask]) is the one [_mask_cells_from_stain] makes
    of the dense image: the pixels at least [t], closed and opened; the
    nuclei mask stored is the one [_mask_nuclei_from_stain] makes with the
    negated offset: the pixels not below [t] that pass the local
    threshold, closed and opened, whenever the local threshold combines
    with the image. When [otsu_index] selects no threshold, both raise
    [IndexError] after the multi-Otsu call and store nothing; and no call
    that raises has changed [adata]. *)
Theorem mask_from_stain_layer_guard (lib : SegLib) (otsu_classes : nat)
    (otsu_index local_k offset mk : Z) (layer : string)
    (out_layer : option string) (w : world) :
  let cells := mask_cells_from_stain lib otsu_classes otsu_index mk layer out_layer in
  let nuclei := mask_nuclei_from_stain lib otsu_classes otsu_index local_k offset mk
                  layer out_layer in
  let out := or_str out_layer (layer ++ "_mask")%string in
  let read := {| adata := adata w; calls := calls w ++ [SelectLayer layer] |} in
  (layer ∉ dom (layers (adata w)) ->
     cells w = (w, Raise PreprocessingError)
     /\ nuclei w = (w, Raise PreprocessingError))
  /\ (forall X0 t,
        layers (adata w) !! layer = Some X0 ->
        index (threshold_multiotsu lib (dense X0) otsu_classes) otsu_index = Ok t ->
        let X := dense X0 in
        let cell_mask := mclose_mopen lib (ge_scalar X t) mk in
        ((_mask_cells_from_stain lib X otsu_classes otsu_index mk read).2 = Ok cell_mask
         /\ (cells w).2 = Ok tt
         /\ adata (cells w).1 = SKM.set_layer_data (adata w) out (of_mask cell_mask)
         /\ layers (adata (cells w).1) !! out = Some (of_mask cell_mask))
        /\ (forall fg,
              (local ← match dt X with
                       | uint8 =>
                           Ok (astype_bool (adaptiveThreshold lib X local_k (- offset)))
                       | _ => gt X (threshold_local lib X local_k (- offset))
                       end;
               and_ (invert (lt_scalar X t)) local) = Ok fg ->
              let nuclei_mask := mclose_mopen lib fg mk in
              (_mask_nuclei_from_stain lib X otsu_classes otsu_index local_k
                 (- offset) mk read).2 = Ok nuclei_mask
              /\ (nuclei w).2 = Ok tt
              /\ adata (nuclei w).1
                 = SKM.set_layer_data (adata w) out (of_mask nuclei_mask)
              /\ layers (adata (nuclei w).1) !! out = Some (of_mask nuclei_mask)))
  /\ (forall X0 e,
        layers (adata w) !! layer = Some X0 ->
        index (threshold_multiotsu lib (dense X0) otsu_classes) otsu_index = Raise e ->
        let stopped :=
          ({| adata := adata w;
              calls := calls w ++ [SelectLayer layer; ThresholdMultiotsu otsu_classes] |},
           Raise IndexError : result unit) in
        cells w = stopped /\ nuclei w = stopped)
  /\ (forall run w' e, run = cells \/ run = nuclei ->
        run w = (w', Raise e) -> adata w' = adata w).
Proof.
  cbv zeta. split; [apply stain_layer_absent |].
  assert (Hlk : forall m, layers (SKM.set_layer_data (adata w)
                    (or_str out_layer (layer ++ "_mask")%string) (of_mask m))
                  !! or_str out_layer (layer ++ "_mask")%string = Some (of_mask m)).
  { intros m. apply lookup_insert_eq. }
  split; [| split].
  - intros X0 t HX Ht. split.
    + rewrite (mask_cells_run lib otsu_classes otsu_index mk),
        (mask_cells_from_stain_present _ _ _ _ _ _ _ _ HX), Ht.
      cbn [fst snd adata]. auto.
    + intros fg Hfg.
      rewrite (mask_nuclei_run lib otsu_classes otsu_index local_k mk),
        (mask_nuclei_from_stain_present _ _ _ _ _ _ _ _ _ _ HX), Ht.
      unfold local_mask. rewrite Hfg. cbn [mbind result_bind fst snd adata]. auto.
  - intros X0 e HX He.
    rewrite (mask_cells_from_stain_present _ _ _ _ _ _ _ _ HX),
      (mask_nuclei_from_stain_present _ _ _ _ _ _ _ _ _ _ HX), He.
    apply NpFacts.index_raises in He as ->. split; reflexivity.
  - intros run w' e Hrun.
    destruct (layers (adata w) !! layer) as [X0 |] eqn:HX.
    + destruct Hrun as [-> | ->].
      * rewrite (mask_cells_from_stain_present _ _ _ _ _ _ _ _ HX).
        destruct (index _ _); [discriminate |]. intros [= <- _]. reflexivity.
      * rewrite (mask_nuclei_from_stain_present _ _ _ _ _ _ _ _ _ _ HX).
        destruct (index _ _); [| intros [= <- _]; reflexivity].
        destruct (_ ≫= _); [discriminate |]. intros [= <- _]. reflexivity.
    + apply not_elem_of_dom in HX.
      destruct (stain_layer_absent lib otsu_classes otsu_index local_k offset mk
                  layer out_layer w HX) as [Hc Hn].
      destruct Hrun as [-> | ->]; [rewrite Hc | rewrite Hn]; intros [= <- _];
        reflexivity.
Qed.

Lemma mask_from_stain_layer_guard_witness :
  (("stain"%string ∉ dom (layers (adata w0)))
   /\ mask_cells_from_stain seglib 3 0 7 "stain" None w0 = (w0, Raise PreprocessingError)
   /\ mask_nuclei_from_stain seglib 3 0 55 5 7 "stain" None w0
      = (w0, Raise PreprocessingError))
  /\ (index (threshold_multiotsu seglib (dense img) 3) 0 = Ok third
      /\ (mask_cells_from_stain seglib 3 0 7 "X" None w0).2 = Ok tt
      /\ layers (adata (mask_cells_from_stain seglib 3 0 7 "X" None w0).1)
           !! "X_mask"%string
         = Some (of_mask (mclose_mopen seglib (ge_scalar (dense img) third) 7))
      /\ (mask_nuclei_from_stain seglib 3 0 55 5 7 "X" None w0).2 = Ok tt).
Proof.
  assert (Hout : "stain"%string ∉ dom (layers (adata w0))).
  { apply not_elem_of_dom. reflexivity. }
  assert (Hidx : index (threshold_multiotsu seglib (dense img) 3) 0 = Ok third)
    by reflexivity.
  destruct (mask_from_stain_layer_guard seglib 3 0 55 5 7 "stain" None w0) as [Ha _].
  destruct (mask_from_stain_layer_guard seglib 3 0 55 5 7 "X" None w0)
    as (_ & Hp & _).
  destruct (Hp img third eq_refl Hidx) as ((_ & Hok & _ & Hm) & Hn).
  split; [split; [exact Hout | apply Ha, Hout] |].
  split; [exact Hidx |]. split; [exact Hok |]. split; [exact Hm |].
  assert (Hfg : exists fg,
            (local ← match dt (dense img) with
                     | uint8 => Ok (astype_bool (adaptiveThreshold seglib (dense img) 55 (- 5)))
                     | _ => gt (dense img) (threshold_local seglib (dense img) 55 (- 5))
                     end;
             and_ (invert (lt_scalar (dense img) third)) local) = Ok fg).
  { eexists. reflexivity. }
  destruct Hfg as [fg Hfg].
  destruct (Hn fg Hfg) as (_ & Hnok & _).
  exact Hnok.
Defined.

(** C8 as worded fails: the staining layer is there, but with
    [otsu_index=2] and three classes, which make two thresholds, both
    functions raise [IndexError] and no mask is stored. *)
Lemma stain_layer_present_no_mask_stored :
  let cells := mask_cells_from_stain seglib 3 2 7 "X" None in
  let nuclei := mask_nuclei_from_stain seglib 3 2 55 5 5 "X" None in
  "X"%string ∈ dom (layers (adata w0))
  /\ (cells w0).2 = Raise IndexError
  /\ layers (adata (cells w0).1) !! "X_mask"%string = None
  /\ (nuclei w0).2 = Raise IndexError
  /\ layers (adata (nuclei w0).1) !! "X_mask"%string = None.
Proof.
  cbv zeta.
  rewrite (mask_cells_from_stain_present seglib 3 2 7 "X" None w0 img eq_refl),
    (mask_nuclei_from_stain_present seglib 3 2 55 5 5 "X" None w0 img eq_refl).
  split; [apply elem_of_dom; eexists; reflexivity |].
  repeat split.
Qed.

(** *** Shapes, and the pixels that are certain *)

Lemma idiv_scalar_shape a v r : idiv_scalar a v = Ok r -> shp r = shp a.
Proof. unfold idiv_scalar. destruct (dt a); intros [= <-]; reflexivity. Qed.

Lemma set_where_shape a m v r : set_where a m v = Ok r -> shp r = shp a.
Proof. unfold set_where. destruct (shape_eqb _ _); intros [= <-]; reflexivity. Qed.

Lemma add_mask_shape a m r : shp a = mshp m -> add_mask a m = Ok r -> shp r = shp a.
Proof.
  intros E. unfold add_mask. rewrite <- E, NpFacts.broadcast_same.
  intros [= <-]. reflexivity.
Qed.

Lemma dense_shape a : shp (dense a) = shp a.
Proof. unfold dense. destruct (sparse a); reflexivity. Qed.

Lemma dense_idem a : dense (dense a) = dense a.
Proof. unfold dense. destruct (sparse a) eqn:E; [reflexivity | rewrite E; reflexivity]. Qed.

Lemma bad_shape_mask_false X c : bad_shape_mask X (Some c) = false -> shp X = mshp c.
Proof.
  unfold bad_shape_mask. rewrite negb_false_iff. apply NpFacts.shape_eqb_eq.
Qed.

Lemma clip_val_range x : (0 <= clip_val 0 1 x)%Qc /\ (clip_val 0 1 x <= 1)%Qc.
Proof.
  unfold clip_val.
  destruct (bool_decide_reflect (x < 0)%Qc) as [H0 | H0]; [split; done |].
  destruct (bool_decide_reflect (1 < x)%Qc) as [H1 | H1]; [split; done |].
  split; apply Qcnot_lt_le; assumption.
Qed.

Lemma clip_val_forced x : (0 <= x)%Qc -> clip_val 0 1 (x + 1) = 1%Qc.
Proof.
  intros Hx. unfold clip_val.
  assert (H1 : (1 <= x + 1)%Qc).
  { rewrite <- (Qcplus_0_l 1) at 1. apply Qcplus_le_mono_r. exact Hx. }
  destruct (bool_decide_reflect (x + 1 < 0)%Qc) as [H0 | H0].
  { exfalso. apply (Qclt_not_le _ _ H0). apply Qcle_trans with 1%Qc; done. }
  destruct (bool_decide_reflect (1 < x + 1)%Qc) as [H2 | H2]; [reflexivity |].
  apply Qcle_antisym; [apply Qcnot_lt_le; assumption | assumption].
Qed.

Lemma add_mask_clip_pixel conf c s i j :
  shp conf = mshp c -> add_mask conf c = Ok s ->
  (i < (mshp c).1)%nat -> (j < (mshp c).2)%nat -> mpx c i j = true ->
  px (clip s 0 1) i j = clip_val 0 1 (px conf i j + 1).
Proof.
  intros E. unfold add_mask. rewrite E, NpFacts.broadcast_same.
  intros [= <-] Hi Hj Hc. cbn.
  rewrite !NpFacts.bget_in_range, Hc by assumption. reflexivity.
Qed.

Lemma iadd_mask_pixel m n r i j :
  mshp m = mshp n -> iadd_mask m n = Ok r ->
  (i < (mshp n).1)%nat -> (j < (mshp n).2)%nat -> mpx n i j = true ->
  mshp r = mshp n /\ mpx r i j = true.
Proof.
  intros E. unfold iadd_mask. rewrite E, NpFacts.broadcast_same.
  destruct (shape_eqb _ _); [| discriminate].
  intros [= <-] Hi Hj Hn. cbn.
  rewrite NpFacts.bget_in_range, Hn, orb_true_r by assumption. auto.
Qed.

Lemma iadd_mask_shape m n r :
  mshp m = mshp n -> iadd_mask m n = Ok r -> mshp r = mshp n.
Proof.
  intros E. unfold iadd_mask. rewrite E, NpFacts.broadcast_same.
  destruct (shape_eqb _ _); [| discriminate]. intros [= <-]. reflexivity.
Qed.

Lemma score_pixels_em_forced lib X k method mo em vi bp c bins w w' scores :
  lower method = "em" \/ lower method = "em+gauss" ->
  _score_pixels lib X k method mo em vi bp (Some c) bins w = (w', Ok scores) ->
  let res := conv2d lib (dense X) k circle bins in
  let conf := em_confidence lib res (run_em lib res bins (or_dict em)) bins in
  exists s, add_mask conf c = Ok s
    /\ scores = (if String.eqb (lower method) "em" then clip s 0 1
                 else conv2d lib (clip s 0 1) k gauss bins).
Proof.
  intros Hm. unfold _score_pixels.
  destruct (negb _); [discriminate |].
  destruct (bad_shape_mask _ _); [discriminate |].
  destruct (bad_shape_bins _ _); [discriminate |].
  fold (dense X).
  destruct Hm as [-> | ->]; cbn; unfold ext; run_m.
  all: repeat split_prim.
  all: intros [= <- <-]; eauto.
Qed.

Section Shapes.

Variable lib : SegLib.
Hypothesis Hlib : shape_preserving lib.

Lemma score_pixels_shape X k method mo em vi bp cm bins w w' scores :
  _score_pixels lib X k method mo em vi bp cm bins w = (w', Ok scores) ->
  shp scores = shp X.
Proof.
  destruct Hlib as [Hconv Hscale Hmoran Hconf Hemc Hvic Hbp _].
  unfold _score_pixels.
  destruct (in_tuple (lower method) valid_methods) eqn:Hm; [| discriminate].
  destruct (bad_shape_mask X cm) eqn:Hc; [discriminate |].
  destruct (bad_shape_bins X bins); [discriminate |]. cbn [negb].
  apply in_valid_methods in Hm.
  fold (dense X). pose proof (dense_shape X) as HX.
  destruct cm as [c |]; [apply bad_shape_mask_false in Hc |];
    destruct bins as [b |].
  all: destruct Hm as [-> | [-> | [-> | [-> | [-> | [-> | ->]]]]]]; cbn; unfold ext; run_m.
  all: repeat split_prim.
  all: intros [= <- <-].
  all: repeat match goal with
         | H : idiv_scalar _ _ = Ok _ |- _ => apply idiv_scalar_shape in H
         | H : set_where _ _ _ = Ok _ |- _ => apply set_where_shape in H
         | H : em_conditionals _ _ _ _ = _ |- _ => apply Hemc in H as [? ?]
         | H : vi_conditionals _ _ _ _ = _ |- _ => apply Hvic in H as [? ?]
         | H : add_mask ?a ?m = Ok ?r |- _ =>
             assert (shp r = shp a)
               by (apply (add_mask_shape a m); [| exact H];
                   rewrite ?Hconf, ?Hconv; congruence);
             clear H
         end.
  all: try clear Hc; unfold clip; cbn [shp].
  all: repeat first
         [ rewrite Hbp | rewrite Hconv | rewrite Hscale | rewrite Hmoran
         | rewrite Hconf
         | match goal with
           | H : shp ?a = _ |- context [shp ?a] => is_var a; rewrite H; clear H
           end ].
  all: exact HX.
Qed.
End Shapes.

Lemma seglib_shape_preserving : shape_preserving seglib.
Proof.
  split; try reflexivity.
  - intros X p bins bg cell [= <- <-]. auto.
  - intros X p bins bg cell [= <- <-]. auto.
Qed.

Lemma score_pixels_ok_guards lib X k method mo em vi bp cm bins w w' scores :
  _score_pixels lib X k method mo em vi bp cm bins w = (w', Ok scores) ->
  bad_shape_mask X cm = false /\ bad_shape_bins X bins = false.
Proof.
  unfold _score_pixels.
  destruct (negb _); [discriminate |].
  destruct (bad_shape_mask _ _); [discriminate |].
  destruct (bad_shape_bins _ _); [discriminate |]. auto.
Qed.



End IcellFacts.

(* ===================================================================== *)
(** ** Properties of [find_clusters.py]                                   *)
(* ===================================================================== *)

Module FindClustersFacts.

Import FindClusters Demo.
Local Open Scope list_scope.

(** *** The primitives on the store *)

Lemma store_log_run c w : log c w = ({| heap := heap w; calls := calls w ++ [c] |}, Ok tt).
Proof. reflexivity. Qed.

Lemma store_ext_run {A} c (v : A) w :
  ext c v w = ({| heap := heap w; calls := calls w ++ [c] |}, Ok v).
Proof. reflexivity. Qed.

Lemma store_deref_run l w : deref l w = (w, Ok (heap w !!! l)).
Proof. reflexivity. Qed.

Lemma store_update_run l f w :
  update l f w = ({| heap := <[l := f (heap w !!! l)]> (heap w); calls := calls w |}, Ok tt).
Proof. reflexivity. Qed.

Lemma store_ext_on_run {A} c l (f : AnnData -> AnnData * A) w :
  ext_on c l f w =
  ({| heap := <[l := (f (heap w !!! l)).1]> (heap w); calls := calls w ++ [c] |},
   Ok (f (heap w !!! l)).2).
Proof. reflexivity. Qed.

Lemma store_ext_on__run c l (f : AnnData -> AnnData) w :
  ext_on_ c l f w =
  ({| heap := <[l := f (heap w !!! l)]> (heap w); calls := calls w ++ [c] |}, Ok tt).
Proof. reflexivity. Qed.


Lemma store_set_obs_run l key c w :
  set_obs l key c w =
  match df_set (obs (heap w !!! l)) key c with
  | Ok df => ({| heap := <[l := with_obs (fun _ => df) (heap w !!! l)]> (heap w);
                 calls := calls w ++ [SetObs key] |}, Ok tt)
  | Raise e => (w, Raise e)
  end.
Proof.
  unfold set_obs. rewrite bind_run, store_deref_run, bind_run, lift_run.
  destruct (df_set _ _ _); reflexivity.
Qed.


Lemma store_get_obs_run l key w :
  get_obs l key w =
  (w, match df_cols (obs (heap w !!! l)) !! key with
      | Some c => Ok c
      | None => Raise KeyError
      end).
Proof.
  unfold get_obs. rewrite bind_run, store_deref_run.
  destruct (_ !! _); reflexivity.
Qed.

(** Run the next steps of a computation on the store. *)
Ltac exec :=
  repeat (first [ rewrite bind_run | rewrite store_ext_on__run | rewrite store_ext_on_run
                | rewrite store_ext_run | rewrite store_log_run | rewrite store_update_run
                | rewrite store_deref_run | rewrite lift_run | rewrite mret_run
                | rewrite raise_run | rewrite store_set_obs_run | rewrite store_get_obs_run ];
          cbn [heap calls fst snd];
          rewrite ?lookup_total_insert_eq, ?insert_insert_eq, <- ?app_assoc;
          cbn [app]).


(** *** [scc] *)

Section Scc.

Variable lib : ClusterLib.
Variables (adata : loc) (min_genes min_cells : Z) (spatial_key : string).
Variables (key_added : option string) (e_neigh s_neigh : Z).
Variables (cluster_method : pystr) (resolution : option Qc).
Variables (debatch : bool) (batch_key : option string) (max_iter_harmony : Z).

Let run n_pca copy :=
  scc lib adata min_genes min_cells spatial_key key_added n_pca e_neigh s_neigh
    cluster_method resolution debatch batch_key max_iter_harmony copy.

Let object n_pca :=
  scc_object lib min_genes min_cells spatial_key key_added n_pca e_neigh s_neigh
    cluster_method resolution debatch batch_key max_iter_harmony.

Lemma scc_run_none copy w :
  run None copy w =
  ({| heap := <[adata := object None (heap w !!! adata)]> (heap w);
      calls := calls w ++ scc_calls key_added cluster_method debatch |},
   Ok (if copy then Some adata else None)).
Proof.
  subst run object. unfold scc, scc_object, scc_calls, lit.
  exec.
  destruct (compute_pca_components lib _) as [pcs n].
  exec. destruct debatch; exec.
  all: destruct (spatial_adj_dyn lib _ _ _ _ _) as [ad adj]; cbn [fst snd].
  all: destruct (py_is cluster_method (Interned "leiden")); exec;
    [| destruct (py_is cluster_method (Interned "louvain")); exec].
  all: destruct copy; exec; try reflexivity.
Qed.

Lemma scc_run_some n copy w :
  run (Some n) copy w =
  ({| heap := <[adata := object (Some n) (heap w !!! adata)]> (heap w);
      calls := calls w ++ [FilterCells; FilterGenes; SetUns "pp"; Normalize; Log1p] |},
   Raise UnboundLocalError).
Proof.
  subst run object. unfold scc, scc_object. exec. reflexivity.
Qed.
End Scc.

(** *** [spagcn_pyg] *)

Section Spagcn.
Variable lib : ClusterLib.
Variables (adata : loc) (n_clusters : Z) (p : Qc) (s b : Z).
Variables (refine_shape his_img_path total_umi : option string).
Variables (x_pixel y_pixel x_array y_array : option string).
Variables (seed : Z) (copy : bool).

Let run := spagcn_pyg lib adata n_clusters p s b refine_shape his_img_path total_umi
             x_pixel y_pixel x_array y_array seed copy.

(** Computing the adjacency matrix reads the object and logs its calls. *)
Lemma adjacency_step (xa ya xp yp : list cell) (ad : AnnData) w w1 adj :
  match his_img_path with
  | None =>
      match total_umi with
      | None =>
          ext (CalculateAdjMatrix false) (calculate_adj_matrix lib xa ya None)
      | Some key =>
          total_umi ← lift (obs_tolist ad key);
          total_umi ← lift (rescale_umi (round_float lib) total_umi);
          umi_gs_img ←
            (if pivot_refused xp yp total_umi
             then raise ValueError
             else ext PivotDstack (pivot_dstack lib xp yp total_umi));
          ext (CalculateAdjMatrix true)
              (calculate_adj_matrix lib xa ya
                 (Some {| h_x_pixel := xp; h_y_pixel := yp;
                          h_image := umi_gs_img;
                          h_beta := 49; h_alpha := 1 |}))
      end
  | Some path =>
      img ← ext Imread (imread lib path);
      ext (CalculateAdjMatrix true)
          (calculate_adj_matrix lib xa ya
             (Some {| h_x_pixel := xp; h_y_pixel := yp;
                      h_image := img; h_beta := 49; h_alpha := 1 |}))
  end w = (w1, Ok adj) ->
  exists pre, Forall is_adjacency_call pre
    /\ w1 = {| heap := heap w; calls := calls w ++ pre |}.
Proof.
  destruct his_img_path as [path |]; [| destruct total_umi as [key |]]; exec.
  - intros [= <- _]. eexists. split; [| reflexivity]. repeat constructor.
  - destruct (obs_tolist ad key); [| discriminate]. exec.
    destruct (rescale_umi _ _) as [levels |]; [| discriminate]. exec.
    destruct (pivot_refused xp yp levels); [discriminate |]. exec.
    intros [= <- _]. eexists. split; [| reflexivity]. repeat constructor.
  - intros [= <- _]. eexists. split; [| reflexivity]. repeat constructor.
Qed.

Lemma spagcn_pyg_returns w w' r :
  run w = (w', Ok r) ->
  exists (pre : list call) (adj : matrix) (res : Qc) (y_pred : list Z) (obj : AnnData),
    let ad1 := with_uns (fun u => <["adj_spagcn" := UnsMatrix adj]> u)
                 (heap w !!! adata) in
    let l := search_l lib p adj q_0_01 q_1000 q_0_01 100 in
    Forall is_adjacency_call pre
    /\ res = (search_res lib ad1 adj l n_clusters q_0_7 q_0_1 q_5e_3 q_0_05 20
                (seed, seed, seed)).2
    /\ calls w' =
       calls w ++ pre
         ++ [SetUns "adj_spagcn"; SearchL q_0_01 q_1000 q_0_01 100;
             SearchRes q_0_7 q_0_1 q_5e_3 q_0_05 20; Seed seed seed seed;
             Train res q_5e_3 q_0_05 200; Predict;
             SetObs "spagcn_pred"; SetObs "spagcn_pred"; SetObs "spagcn_pred"]
         ++ match refine_shape with
            | Some _ => [CalculateAdjMatrix false; Refine;
                         SetObs "spagcn_pred_refined"; SetObs "spagcn_pred_refined"]
            | None => []
            end
    /\ r = (if copy then Some adata else None)
    /\ heap w' = <[adata := obj]> (heap w)
    /\ df_cols (obs obj) !! "spagcn_pred"%string
       = Some {| col_dt := col_object;
                 col_vals := map (fun z => VStr (str_of_Z z)) y_pred |}
    /\ length y_pred = length (df_index (obs obj))
    /\ match refine_shape with
       | Some _ => exists c, df_cols (obs obj) !! "spagcn_pred_refined"%string = Some c
                             /\ col_dt c = col_category
       | None => True
       end.
Proof.
  subst run. unfold spagcn_pyg. exec.
  destruct (match x_array with None => _ | Some _ => _ end) as [xa | e]; [| discriminate].
  exec.
  destruct (match y_array with None => _ | Some _ => _ end) as [ya | e]; [| discriminate].
  exec.
  destruct (match x_pixel with None => _ | Some _ => _ end) as [xp | e]; [| discriminate].
  exec.
  destruct (match y_pixel with None => _ | Some _ => _ end) as [yp | e]; [| discriminate].
  exec.
  match goal with
  | |- context [let (_, _) := ?c w in _] =>
      destruct (c w) as [w1 [adj | e]] eqn:Hadj; [| discriminate]
  end.
  apply adjacency_step in Hadj as (pre & Hpre & ->).
  exec.
  destruct (search_res lib _ _ _ _ _ _ _ _ _ _) as [ad_s res] eqn:Hres.
  cbn [fst snd].
  destruct (train lib _ _ _ _ _ _ _ _) as [ad_t clf] eqn:Htrain.
  cbn [fst snd].
  destruct (predict lib clf) as [y_pred prob] eqn:Hpred.
  exec.
  unfold df_set at 1. cbn [col_vals].
  destruct (_ =? _)%nat eqn:Hlen; [| discriminate].
  rewrite length_map in Hlen.
  exec. cbn [obs with_obs df_cols df_index]. rewrite lookup_insert_eq.
  exec.
  unfold df_set at 1.
  cbn [col_vals astype_category obs with_obs df_index df_cols].
  rewrite length_map, Hlen, insert_insert_eq.
  exec. cbn [obs with_obs df_cols df_index]. rewrite lookup_insert_eq.
  exec.
  unfold df_set at 1.
  cbn [col_vals astype_category obs with_obs df_index df_cols].
  rewrite !length_map, Hlen, insert_insert_eq.
  exec. rewrite map_map. cbn [py_str].
  apply Nat.eqb_eq in Hlen.
  destruct refine_shape as [shape |]; exec.
  - unfold obs_tolist. cbn [obs with_obs df_cols df_index col_vals].
    rewrite lookup_insert_eq. exec.
    unfold df_set at 1. cbn [col_vals obs with_obs df_index df_cols].
    destruct (_ =? _)%nat eqn:Hlen2; [| discriminate].
    exec. cbn [obs with_obs df_cols df_index]. rewrite lookup_insert_eq.
    exec. unfold df_set at 1.
    cbn [col_vals astype_category obs with_obs df_index df_cols].
    rewrite Hlen2, insert_insert_eq. exec.
    destruct copy; exec; intros [= <- <-]; cbn [heap calls].
    all: eexists pre, adj, res, y_pred, _; cbn zeta; rewrite Hres; cbn [snd].
    all: split; [exact Hpre |]; split; [reflexivity |]; split; [reflexivity |].
    all: split; [reflexivity |]; split; [reflexivity |].
    all: cbn [obs with_obs df_cols df_index].
    all: split; [rewrite lookup_insert_ne by discriminate; apply lookup_insert_eq |].
    all: split; [exact Hlen |].
    all: eexists; split; [apply lookup_insert_eq | reflexivity].
  - destruct copy; exec; intros [= <- <-]; cbn [heap calls].
    all: eexists pre, adj, res, y_pred, _; cbn zeta; rewrite Hres; cbn [snd].
    all: split; [exact Hpre |]; split; [reflexivity |]; split; [reflexivity |].
    all: split; [reflexivity |]; split; [reflexivity |].
    all: cbn [obs with_obs df_cols df_index].
    all: split; [apply lookup_insert_eq |].
    all: split; [exact Hlen | exact I].
Qed.
End Spagcn.

(** *** The claims on [spagcn_pyg] and [scc] *)

(** C4 (the column is not categorical). On two spots, with a refinement
    shape and [copy=True], [spagcn_pyg] returns the object it was given,
    has stored the adjacency matrix in [adata.uns["adj_spagcn"]], and has
    stored one label per spot in [adata.obs["spagcn_pred"]]: a column of
    strings of dtype [object], since the list of strings assigned last
    replaces the categorical column made just before; the refined column
    is categorical. [spagcn_pyg_returns] has the same for every call that
    returns. *)
Theorem spagcn_pred_not_categorical :
  let r := spagcn_pyg clusterlib 0 2 half 1 49 (Some "hexagon"%string) None None
             None None None None 100 true cw0 in
  r.2 = Ok (Some 0%nat)
  /\ uns (heap r.1 !!! 0%nat) !! "adj_spagcn"%string
     = Some (UnsMatrix [[1%Qc; 0%Qc]; [0%Qc; 1%Qc]])
  /\ df_cols (obs (heap r.1 !!! 0%nat)) !! "spagcn_pred"%string
     = Some {| col_dt := col_object; col_vals := [VStr "0"; VStr "1"] |}
  /\ df_cols (obs (heap r.1 !!! 0%nat)) !! "spagcn_pred_refined"%string
     = Some {| col_dt := col_category; col_vals := [VStr "0"; VStr "1"] |}
  /\ col_object <> col_category.
Proof.
  cbn zeta. split; [vm_compute; reflexivity |].
  split; [vm_compute; reflexivity |].
  split; [vm_compute; reflexivity |].
  split; [vm_compute; reflexivity | discriminate].
Qed.

(** C5. The arguments [s] and [b] of [spagcn_pyg] have no effect: two
    calls that differ in them only end in the same store (so the same
    adjacency matrix, columns and labels), the same call log and the same
    result, as both are set to 1 and 49 before any use. *)
Theorem spagcn_pyg_ignores_s_b (lib : ClusterLib) (adata : loc) (n_clusters : Z)
    (p : Qc) (s b s' b' : Z) (refine_shape his_img_path total_umi : option string)
    (x_pixel y_pixel x_array y_array : option string) (seed : Z) (copy : bool)
    (w : world) :
  spagcn_pyg lib adata n_clusters p s b refine_shape his_img_path total_umi
    x_pixel y_pixel x_array y_array seed copy w
  = spagcn_pyg lib adata n_clusters p s' b' refine_shape his_img_path total_umi
      x_pixel y_pixel x_array y_array seed copy w.
Proof. unfold spagcn_pyg. reflexivity. Qed.

Lemma clustering_calls_app cs ds :
  clustering_calls (cs ++ ds) = clustering_calls cs ++ clustering_calls ds.
Proof. apply List.filter_app. Qed.

(** C6 (fails in two ways). A [cluster_method] that is the string
    ['leiden'] built at run time, equal to the constant but another
    object, fails the identity tests [is "leiden"] and [is "louvain"]:
    [scc] returns without running any clustering. And for every
    [cluster_method], a call that gives [n_pca_components] raises
    [UnboundLocalError] at [pcs], before any clustering. *)
Theorem scc_identity_test_and_unbound_pcs (lib : ClusterLib) (adata : loc)
    (min_genes min_cells : Z) (spatial_key : string) (key_added : option string)
    (e_neigh s_neigh : Z) (resolution : option Qc) (debatch : bool)
    (batch_key : option string) (max_iter_harmony : Z) (copy : bool)
    (addr : nat) (n : Z) (w : world) :
  let run cluster_method n_pca_components :=
    scc lib adata min_genes min_cells spatial_key key_added n_pca_components
      e_neigh s_neigh cluster_method resolution debatch batch_key
      max_iter_harmony copy w in
  let at_run_time := Fresh addr "leiden" in
  (py_eq at_run_time (Interned "leiden") = true
   /\ (run at_run_time None).2 = Ok (if copy then Some adata else None)
   /\ clustering_calls (calls (run at_run_time None).1) = clustering_calls (calls w))
  /\ ((run (Interned "leiden") (Some n)).2 = Raise UnboundLocalError
      /\ clustering_calls (calls (run (Interned "leiden") (Some n)).1)
         = clustering_calls (calls w)).
Proof.
  cbv beta zeta. rewrite scc_run_none, scc_run_some. cbn [fst snd calls].
  rewrite !clustering_calls_app. unfold scc_calls. cbn [py_is].
  split; [split; [reflexivity | split; [reflexivity |]] | split; [reflexivity |]].
  - destruct debatch; cbn; apply app_nil_r.
  - cbn. apply app_nil_r.
Qed.

(** What the claim describes, for the string constants themselves. *)
Lemma scc_clusters_with_constant (lib : ClusterLib) (adata : loc)
    (min_genes min_cells : Z) (spatial_key : string) (key_added : option string)
    (e_neigh s_neigh : Z) (resolution : option Qc) (debatch : bool)
    (batch_key : option string) (max_iter_harmony : Z) (copy : bool) (w : world) :
  let run cluster_method :=
    scc lib adata min_genes min_cells spatial_key key_added None
      e_neigh s_neigh cluster_method resolution debatch batch_key
      max_iter_harmony copy w in
  clustering_calls (calls (run (Interned "leiden")).1)
  = clustering_calls (calls w) ++ [Leiden key_added]
  /\ clustering_calls (calls (run (Interned "louvain")).1)
     = clustering_calls (calls w) ++ [Louvain key_added].
Proof.
  cbv beta zeta. rewrite !scc_run_none. cbn [fst calls].
  rewrite !clustering_calls_app. unfold scc_calls. cbn [py_is String.eqb Ascii.eqb].
  split; destruct debatch; reflexivity.
Qed.

(** C10 (fails when [n_pca_components] is given). A call of [scc] that
    gives [n_pca_components] filters, normalises and log-transforms the
    object it was given, then raises [UnboundLocalError] at [pcs]: no PCA
    embedding is stored, no clustering is run and nothing is returned,
    whatever [copy] is. *)
Theorem scc_n_pca_components_given (lib : ClusterLib) (adata : loc)
    (min_genes min_cells : Z) (spatial_key : string) (key_added : option string)
    (n : Z) (e_neigh s_neigh : Z) (cluster_method : pystr)
    (resolution : option Qc) (debatch : bool) (batch_key : option string)
    (max_iter_harmony : Z) (copy : bool) (w : world) :
  let r := scc lib adata min_genes min_cells spatial_key key_added (Some n)
             e_neigh s_neigh cluster_method resolution debatch batch_key
             max_iter_harmony copy w in
  let filtered :=
    filter_genes lib (filter_cells lib (heap w !!! adata) min_genes) min_cells in
  let prepared :=
    log1p lib (normalize_cell_expr_by_size_factors lib
                 (with_uns (fun u => <["pp" := UnsDict ∅]> u) filtered)) in
  r.2 = Raise UnboundLocalError
  /\ heap r.1 = <[adata := prepared]> (heap w)
  /\ calls r.1 = calls w ++ [FilterCells; FilterGenes; SetUns "pp"; Normalize; Log1p]
  /\ ~ In (SetObsm "X_pca") (drop (length (calls w)) (calls r.1))
  /\ clustering_calls (calls r.1) = clustering_calls (calls w).
Proof.
  cbv zeta. rewrite scc_run_some. cbn [fst snd heap calls].
  split; [reflexivity |]. split; [reflexivity |]. split; [reflexivity |].
  split.
  - rewrite drop_app_length. cbn. intros [H | [H | [H | [H | [H | []]]]]]; discriminate.
  - rewrite clustering_calls_app. cbn. apply app_nil_r.
Qed.

(** On two spots, with the preprocessing steps of the small instance:
    after [scc(adata, n_pca_components=30, copy=True)] the object has no
    [obsm["X_pca"]]. *)
Example scc_n_pca_components_30 :
  let r := scc clusterlib 0 500 100 "spatial" (Some "leiden") (Some 30%Z) 30 6
             (Interned "leiden") None false (Some "slice") 10 true cw0 in
  r.2 = Raise UnboundLocalError
  /\ obsm (heap r.1 !!! 0%nat) !! "X_pca"%string = None.
Proof. cbv zeta. rewrite scc_run_some. split; reflexivity. Qed.

(** A call that leaves [n_pca_components] unset works on the object it is
    given: the store reached is the same for [copy=True] and
    [copy=False], no other object is changed and none is added; the
    result is the reference [adata] itself with [copy=True] and [None]
    with [copy=False]. *)
Lemma scc_in_place_without_n_pca_components (lib : ClusterLib) (adata : loc)
    (min_genes min_cells : Z) (spatial_key : string) (key_added : option string)
    (e_neigh s_neigh : Z) (cluster_method : pystr)
    (resolution : option Qc) (debatch : bool) (batch_key : option string)
    (max_iter_harmony : Z) (w : world) :
  let run copy :=
    scc lib adata min_genes min_cells spatial_key key_added None
      e_neigh s_neigh cluster_method resolution debatch batch_key
      max_iter_harmony copy w in
  (run true).1 = (run false).1
  /\ dom (heap (run true).1) = {[adata]} ∪ dom (heap w)
  /\ (forall l, l <> adata -> heap (run true).1 !! l = heap w !! l)
  /\ (run true).2 = Ok (Some adata)
  /\ (run false).2 = Ok None.
Proof.
  cbv beta zeta. rewrite !scc_run_none. cbn [fst snd heap].
  split; [reflexivity |]. split; [apply dom_insert_L |].
  split; [| split; reflexivity].
  intros l Hl. apply lookup_insert_ne. congruence.
Qed.

End FindClustersFacts.

(* ===================================================================== *)
(** * Further properties                                                 *)
(* ===================================================================== *)

(** ** The primitives: maxima, indexing, list comprehensions *)

Module NpMore.

Import Icell.
Local Open Scope list_scope.

(** [a.max()] bounds every pixel of the array. *)
Lemma fold_left_Qc_max_ge_init l x : (x <= fold_left Qc_max l x)%Qc.
Proof.
  revert x. induction l as [| y l IH]; intros x; cbn; [apply Qcle_refl |].
  eapply Qcle_trans; [| apply IH]. unfold Qc_max.
  destruct (bool_decide_reflect (x < y)%Qc) as [H | H];
    [apply Qclt_le_weak, H | apply Qcle_refl].
Qed.

Lemma fold_left_Qc_max_ge l x y : In y l -> (y <= fold_left Qc_max l x)%Qc.
Proof.
  revert x. induction l as [| z l IH]; intros x; [intros [] |].
  intros [-> | Hin]; cbn; [| apply IH, Hin].
  eapply Qcle_trans; [| apply fold_left_Qc_max_ge_init]. unfold Qc_max.
  destruct (bool_decide_reflect (x < y)%Qc) as [H | H];
    [apply Qcle_refl | apply Qcnot_lt_le, H].
Qed.

Lemma in_pixels a i j :
  (i < (shp a).1)%nat -> (j < (shp a).2)%nat -> In (px a i j) (pixels a).
Proof.
  intros Hi Hj. unfold pixels. apply in_flat_map. exists i.
  split; [apply in_seq; lia |]. apply in_map, in_seq. lia.
Qed.

Lemma amax_ge a m i j :
  amax a = Ok m -> (i < (shp a).1)%nat -> (j < (shp a).2)%nat -> (px a i j <= m)%Qc.
Proof.
  unfold amax. intros H Hi Hj. pose proof (in_pixels a i j Hi Hj) as Hin.
  destruct (pixels a) as [| x l]; [discriminate |]. injection H as <-.
  destruct Hin as [<- | Hin];
    [apply fold_left_Qc_max_ge_init | apply fold_left_Qc_max_ge, Hin].
Qed.

Lemma pixels_empty a : (shp a).1 = 0%nat \/ (shp a).2 = 0%nat -> pixels a = [].
Proof.
  unfold pixels. intros [-> | ->]; [reflexivity |]. cbn [seq map].
  induction (seq 0 (shp a).1); [reflexivity | exact IHl].
Qed.

Lemma Qcdiv_le_1 x m : (0 < m)%Qc -> (x <= m)%Qc -> (x / m <= 1)%Qc.
Proof.
  intros Hm Hx. unfold Qcdiv.
  rewrite <- (Qcmult_inv_r m) by (intros ->; exact (Qclt_not_le _ _ Hm (Qcle_refl 0))).
  apply Qcmult_le_mono_nonneg_r; [apply Qclt_le_weak, Qcinv_pos, Hm | exact Hx].
Qed.

Lemma mapR_ok_length {A B} (f : A -> result B) l ys :
  mapR f l = Ok ys -> length ys = length l.
Proof.
  revert ys. induction l as [| x l IH]; intros ys; cbn.
  - intros [= <-]. reflexivity.
  - destruct (f x) as [y |]; [| discriminate]. cbn.
    destruct (mapR f l) as [ys' |]; [| discriminate]. cbn.
    intros [= <-]. cbn. f_equal. apply IH. reflexivity.
Qed.

Lemma mapR_ok_in {A B} (f : A -> result B) l ys y :
  mapR f l = Ok ys -> In y ys -> exists x, In x l /\ f x = Ok y.
Proof.
  revert ys. induction l as [| x l IH]; intros ys; cbn.
  - intros [= <-] [].
  - destruct (f x) as [y0 |] eqn:E; [| discriminate]. cbn.
    destruct (mapR f l) as [ys' |]; [| discriminate]. cbn.
    intros [= <-] [<- | Hin]; [eauto |].
    destruct (IH ys' eq_refl Hin) as (x' & Hx & Hf). eauto.
Qed.

Lemma mapR_raises {A B} (f : A -> result B) l x e :
  In x l -> (forall y e', f y = Raise e' -> e' = e) -> f x = Raise e ->
  mapR f l = Raise e.
Proof.
  intros Hin Hall Hx. induction l as [| y l IH]; [destruct Hin |]. cbn.
  destruct (f y) as [b | e'] eqn:Ey.
  - cbn. destruct Hin as [-> | Hin]; [congruence |].
    rewrite (IH Hin). reflexivity.
  - cbn. f_equal. eapply Hall, Ey.
Qed.

Lemma fold_left_Qc_max_in l x : In (fold_left Qc_max l x) (x :: l).
Proof.
  revert x. induction l as [| y l IH]; intros x; cbn [fold_left]; [left; reflexivity |].
  destruct (IH (Qc_max x y)) as [H | H].
  - rewrite <- H. unfold Qc_max. destruct (bool_decide _); cbn; auto.
  - right. right. exact H.
Qed.

Lemma index_inside_range {A} (l : list A) (i : Z) :
  (- Z.of_nat (length l) <= i < Z.of_nat (length l))%Z ->
  exists x, index l i = Ok x.
Proof.
  intros H. unfold index. cbv zeta.
  destruct (Z.ltb_spec i 0) as [Hi | Hi].
  - destruct (Z.ltb_spec (i + Z.of_nat (length l)) 0) as [Hj | Hj]; [lia |].
    destruct (nth_error l (Z.to_nat (i + Z.of_nat (length l)))) eqn:E; [eauto |].
    apply nth_error_None in E. lia.
  - destruct (Z.ltb_spec i 0) as [Hj | Hj]; [lia |].
    destruct (nth_error l (Z.to_nat i)) eqn:E; [eauto |].
    apply nth_error_None in E. lia.
Qed.

Lemma index_outside_range {A} (l : list A) (i : Z) :
  ~ (- Z.of_nat (length l) <= i < Z.of_nat (length l))%Z ->
  index l i = Raise IndexError.
Proof.
  intros H. unfold index. cbv zeta.
  destruct (Z.ltb_spec i 0) as [Hi | Hi].
  - destruct (Z.ltb_spec (i + Z.of_nat (length l)) 0) as [Hj | Hj]; [reflexivity |].
    lia.
  - destruct (Z.ltb_spec i 0) as [Hj | Hj]; [lia |].
    destruct (nth_error l (Z.to_nat i)) eqn:E; [| reflexivity].
    assert (nth_error l (Z.to_nat i) <> None) as Hn by congruence.
    apply nth_error_Some in Hn. lia.
Qed.

Lemma set_where_same a m v :
  shp a = mshp m -> exists r, set_where a m v = Ok r /\ shp r = shp a.
Proof.
  intros E. unfold set_where.
  rewrite (proj2 (NpFacts.shape_eqb_eq _ _) E). eauto.
Qed.

Lemma add_mask_same a m :
  shp a = mshp m -> exists r, add_mask a m = Ok r /\ shp r = shp a.
Proof.
  intros E. unfold add_mask. rewrite E, NpFacts.broadcast_same. eexists.
  split; [reflexivity |]. reflexivity.
Qed.

Lemma run_raise_eq {St A} (r : St * result A) (e : exn) :
  r.2 = Raise e -> r = (r.1, Raise e).
Proof. destruct r as [s x]. cbn. intros ->. reflexivity. Defined.

End NpMore.

(** ** [icell.py]: scoring, thresholding and the stain masks *)

Module IcellMore.

Import Icell Demo IcellFacts NpMore.
Local Open Scope list_scope.
#[local] Arguments _score_pixels : simpl never.

(** *** [_score_pixels] *)

(** X1. [_score_pixels] raises [PreprocessingError] exactly when one of its
    three guards fails: the lower-cased method is not one of the seven
    names, or a [certain_mask] or [bins] array is given whose shape is not
    that of [X]. It then raises before any library call. *)
Theorem score_pixels_preprocessing_error (lib : SegLib) (X : ndarray) (k : Z)
    (method : string) (mo em vi bp : option kwargs) (cm : option mask)
    (bins : option ndarray) (w : world) :
  let run := _score_pixels lib X k method mo em vi bp cm bins in
  let guard_fails :=
    in_tuple (lower method) valid_methods = false
    \/ (exists c, cm = Some c /\ shp X <> mshp c)
    \/ (exists b, bins = Some b /\ shp X <> shp b) in
  ((run w).2 = Raise PreprocessingError <-> guard_fails)
  /\ (guard_fails <-> run w = (w, Raise PreprocessingError)).
Proof.
  cbv zeta. rewrite <- bad_shape_mask_spec, <- bad_shape_bins_spec. split.
  - apply score_pixels_raises_iff.
  - split.
    + apply score_pixels_guard_fails.
    + intros H. eapply score_pixels_raises_iff. rewrite H. reflexivity.
Qed.

(** X3. The method name is read without regard to case, by
    [_score_pixels] and by [score_and_mask_pixels]: two names with the same
    lower-case form give the same run. *)
Theorem method_case_insensitive (lib : SegLib) (X : ndarray) (k : Z)
    (m1 m2 : string) (mo em vi bp : option kwargs) (cm : option mask)
    (bins : option ndarray) (layer : string) (threshold : option Qc)
    (mk : option Z) (bins_layer : bins_arg)
    (certain_layer scores_layer mask_layer : option string) (w : world) :
  lower m1 = lower m2 ->
  _score_pixels lib X k m1 mo em vi bp cm bins w
  = _score_pixels lib X k m2 mo em vi bp cm bins w
  /\ score_and_mask_pixels lib layer k m1 mo em vi bp threshold mk bins_layer
       certain_layer scores_layer mask_layer w
     = score_and_mask_pixels lib layer k m2 mo em vi bp threshold mk bins_layer
         certain_layer scores_layer mask_layer w.
Proof.
  intros H. split; [unfold _score_pixels | unfold score_and_mask_pixels];
    rewrite H; reflexivity.
Qed.

Lemma method_case_insensitive_witness :
  _score_pixels seglib img 3 "EM+BP" None None None None None None w0
  = _score_pixels seglib img 3 "em+bp" None None None None None None w0
  /\ score_and_mask_pixels seglib "X" 3 "EM+BP" None None None None None None
       BinsNone None None None w0
     = score_and_mask_pixels seglib "X" 3 "em+bp" None None None None None None
         BinsNone None None None w0.
Proof.
  apply (method_case_insensitive seglib img 3 "EM+BP" "em+bp"). reflexivity.
Defined.

(** X4. The keyword arguments of a step the method does not name have no
    effect: [moran_kwargs], [em_kwargs], [vi_kwargs] and [bp_kwargs] may be
    changed freely whenever ["moran"], ["em"], ["vi"] or ["bp"] does not
    occur in the lower-cased method. *)
Theorem score_pixels_ignores_unused_kwargs (lib : SegLib) (X : ndarray) (k : Z)
    (method : string) (mo em vi bp mo' em' vi' bp' : option kwargs)
    (cm : option mask) (bins : option ndarray) (w : world) :
  let unused (name : string) (kw kw' : option kwargs) :=
    contains name (lower method) = false \/ kw = kw' in
  unused "moran" mo mo' -> unused "em" em em' -> unused "vi" vi vi' ->
  unused "bp" bp bp' ->
  _score_pixels lib X k method mo em vi bp cm bins w
  = _score_pixels lib X k method mo' em' vi' bp' cm bins w.
Proof.
  cbv zeta. intros Hmo Hem Hvi Hbp. unfold _score_pixels.
  destruct (in_tuple (lower method) valid_methods) eqn:Hm; [| reflexivity].
  cbn [negb]. apply in_valid_methods in Hm.
  destruct (bad_shape_mask X cm); [reflexivity |].
  destruct (bad_shape_bins X bins); [reflexivity |].
  destruct Hm as [Hm | [Hm | [Hm | [Hm | [Hm | [Hm | Hm]]]]]]; rewrite Hm in *;
    cbn in Hmo, Hem, Hvi, Hbp;
    destruct Hmo as [[=] | <-]; destruct Hem as [[=] | <-];
    destruct Hvi as [[=] | <-]; destruct Hbp as [[=] | <-]; reflexivity.
Qed.

Lemma score_pixels_ignores_unused_kwargs_witness :
  let kw : option kwargs := Some (<["max_iter" := 1%Qc]> ∅) in
  (contains "moran" (lower "EM") = false \/ kw = None)
  /\ (contains "em" (lower "EM") = false \/ (None : option kwargs) = None)
  /\ (contains "vi" (lower "EM") = false \/ kw = None)
  /\ (contains "bp" (lower "EM") = false \/ kw = None)
  /\ _score_pixels seglib img 3 "EM" kw None kw kw None None w0
     = _score_pixels seglib img 3 "EM" None None None None None None w0.
Proof.
  cbv zeta.
  assert (H1 : contains "moran" (lower "EM") = false) by reflexivity.
  assert (H3 : contains "vi" (lower "EM") = false) by reflexivity.
  assert (H4 : contains "bp" (lower "EM") = false) by reflexivity.
  split; [left; exact H1 |]. split; [right; reflexivity |].
  split; [left; exact H3 |]. split; [left; exact H4 |].
  apply score_pixels_ignores_unused_kwargs; cbv zeta; auto.
Defined.

(** X2. A call of [_score_pixels] that returns has made the library calls
    of its method, in order and no others, and its method is one of
    gauss, moran, em, em+gauss, em+bp and vi+bp: with vi+gauss, although
    accepted by the guard, no call returns. *)
Theorem score_pixels_calls (lib : SegLib) (X : ndarray) (k : Z)
    (method : string) (mo em vi bp : option kwargs) (cm : option mask)
    (bins : option ndarray) (w w' : world) (scores : ndarray) :
  _score_pixels lib X k method mo em vi bp cm bins w = (w', Ok scores) ->
  calls w' = calls w ++ documented_estimators (lower method)
  /\ In (lower method) ["gauss"; "moran"; "em"; "em+gauss"; "em+bp"; "vi+bp"].
Proof.
  intros H. pose proof H as Hg. apply score_pixels_ok_guards in Hg as [_ _].
  pose proof H as Hd. apply score_pixels_dispatch in Hd as (Hne & _ & Hcalls).
  split; [exact Hcalls |].
  assert (Hm : in_tuple (lower method) valid_methods = true).
  { unfold _score_pixels in H.
    destruct (in_tuple (lower method) valid_methods); [reflexivity | discriminate]. }
  apply in_valid_methods in Hm. cbn [In].
  destruct Hm as [Hm | [Hm | [Hm | [Hm | [Hm | [Hm | Hm]]]]]];
    try contradiction; rewrite Hm; auto 10.
Qed.

Lemma score_pixels_calls_witness :
  let r := _score_pixels seglib img 3 "EM+BP" None None None None None None w0 in
  r = (r.1, Ok img)
  /\ calls r.1 = [Conv2d circle; RunEM; EmConditionals; RunBP].
Proof.
  cbv zeta.
  assert (E : _score_pixels seglib img 3 "EM+BP" None None None None None None w0
              = ((_score_pixels seglib img 3 "EM+BP" None None None None None None
                    w0).1, Ok img)).
  { apply run_ok_eq. reflexivity. }
  split; [exact E |].
  destruct (score_pixels_calls _ _ _ _ _ _ _ _ _ _ _ _ _ E) as [Hc _]. exact Hc.
Defined.



(** X5. The methods gauss and moran do not use [certain_mask]: a mask of
    the right shape gives the same run as no mask. *)
Theorem score_pixels_gauss_moran_ignore_certain (lib : SegLib) (X : ndarray) (k : Z)
    (method : string) (mo em vi bp : option kwargs) (c : mask)
    (bins : option ndarray) (w : world) :
  lower method = "gauss" \/ lower method = "moran" ->
  shp X = mshp c ->
  _score_pixels lib X k method mo em vi bp (Some c) bins w
  = _score_pixels lib X k method mo em vi bp None bins w.
Proof.
  intros Hm Hc. unfold _score_pixels, bad_shape_mask.
  rewrite (proj2 (NpFacts.shape_eqb_eq _ _) Hc). cbn [negb].
  destruct (negb (in_tuple _ _)); [reflexivity |].
  destruct (bad_shape_bins X bins); [reflexivity |].
  destruct Hm as [-> | ->]; reflexivity.
Qed.

Lemma score_pixels_gauss_moran_ignore_certain_witness :
  (lower "Gauss" = "gauss" \/ lower "Gauss" = "moran")
  /\ shp img = mshp (astype_bool nuclei)
  /\ _score_pixels seglib img 3 "Gauss" None None None None
       (Some (astype_bool nuclei)) None w0
     = _score_pixels seglib img 3 "Gauss" None None None None None None w0.
Proof.
  assert (H1 : lower "Gauss" = "gauss" \/ lower "Gauss" = "moran") by (left; reflexivity).
  assert (H2 : shp img = mshp (astype_bool nuclei)) by reflexivity.
  split; [exact H1 |]. split; [exact H2 |].
  exact (score_pixels_gauss_moran_ignore_certain seglib img 3 "Gauss" None None None
           None (astype_bool nuclei) None w0 H1 H2).
Defined.

Section Moran.

Variable lib : SegLib.
Variables (X : ndarray) (k : Z) (method : string).
Variables (mo em vi bp : option kwargs) (cm : option mask) (bins : option ndarray).

Let run := _score_pixels lib X k method mo em vi bp cm bins.
Let moran_image :=
  run_moran lib (conv2d lib (dense X) k gauss bins)
    (match bins with None => None | Some b => Some (gt_scalar b 0%Qc) end)
    (or_dict mo).

Lemma score_pixels_moran_run w :
  lower method = "moran" ->
  bad_shape_mask X cm = false -> bad_shape_bins X bins = false ->
  (run w).2 = (m ← amax moran_image; idiv_scalar moran_image m).
Proof.
  intros Hm Hc Hb. subst run moran_image. unfold _score_pixels.
  rewrite Hm, Hc, Hb. fold (dense X). cbn. unfold ext. run_m.
  destruct (amax _); reflexivity.
Qed.

End Moran.

(** X7. With the method moran, a call that returns has divided the Moran
    image by its maximum: the image is a float array and the scores have
    its shape; when the maximum is not zero every score is the pixel over
    the maximum, and when it is positive no score of the image exceeds 1. *)
Theorem score_pixels_moran_rescaled (lib : SegLib) (X : ndarray) (k : Z)
    (method : string) (mo em vi bp : option kwargs) (cm : option mask)
    (bins : option ndarray) (w w' : world) (scores : ndarray) :
  lower method = "moran" ->
  _score_pixels lib X k method mo em vi bp cm bins w = (w', Ok scores) ->
  let moran_image :=
    run_moran lib (conv2d lib (dense X) k gauss bins)
      (match bins with None => None | Some b => Some (gt_scalar b 0%Qc) end)
      (or_dict mo) in
  exists m, amax moran_image = Ok m
    /\ dt moran_image = float64
    /\ shp scores = shp moran_image
    /\ (m <> 0%Qc -> forall i j, px scores i j = (px moran_image i j / m)%Qc)
    /\ ((0 < m)%Qc ->
        forall i j, (i < (shp scores).1)%nat -> (j < (shp scores).2)%nat ->
                    (px scores i j <= 1)%Qc).
Proof.
  intros Hm H. cbv zeta.
  pose proof (score_pixels_ok_guards _ _ _ _ _ _ _ _ _ _ _ _ _ H) as [Hc Hb].
  pose proof (score_pixels_moran_run lib X k method mo em vi bp cm bins w Hm Hc Hb) as E.
  rewrite H in E. cbn [snd] in E.
  destruct (amax _) as [m | e] eqn:Ha; [| discriminate]. cbn in E.
  exists m. split; [reflexivity |].
  unfold idiv_scalar in E.
  destruct (dt _) eqn:Hdt; try discriminate. injection E as ->.
  split; [reflexivity |]. split; [reflexivity |].
  split; [intros _ i j; reflexivity |].
  intros Hpos i j Hi Hj. cbn in *.
  apply Qcdiv_le_1; [exact Hpos |]. eapply amax_ge; eassumption.
Qed.


Lemma score_pixels_moran_rescaled_witness :
  lower "Moran" = "moran"
  /\ exists w' scores,
       _score_pixels seglib img 3 "Moran" None None None None None None w0
       = (w', Ok scores)
       /\ (forall i j, px scores i j = (px img i j / 1)%Qc)
       /\ (px scores 1 1 <= 1)%Qc.
Proof.
  split; [reflexivity |].
  assert (H : match (_score_pixels seglib img 3 "Moran" None None None None None
                       None w0).2 with Ok _ => True | Raise _ => False end).
  { lazy. exact I. }
  destruct (_score_pixels seglib img 3 "Moran" None None None None None None w0)
    as [w' [scores | e]] eqn:E; [| destruct H].
  exists w', scores. split; [reflexivity |].
  destruct (score_pixels_moran_rescaled seglib img 3 "Moran" None None None None
              None None w0 w' scores eq_refl E)
    as (m & Hm & _ & Hshp & Hpx & Hle).
  assert (m = 1%Qc) as -> by (vm_compute in Hm; injection Hm as <-; reflexivity).
  split; [apply Hpx; discriminate |].
  apply Hle; [reflexivity | rewrite Hshp; cbn; lia | rewrite Hshp; cbn; lia].
Defined.


(** *** [score_and_mask_pixels] *)

Lemma keeps_adata_mret {A} (v : A) : keeps_adata (mret v).
Proof. intros w. reflexivity. Qed.

Lemma keeps_adata_raise {A} e : keeps_adata (raise e : M world A).
Proof. intros w. reflexivity. Qed.

Lemma keeps_adata_lift {A} (r : result A) : keeps_adata (lift r).
Proof. intros w. reflexivity. Qed.

Lemma keeps_adata_ext {A} c (v : A) : keeps_adata (ext c v).
Proof. intros w. reflexivity. Qed.

Lemma keeps_adata_select layer d : keeps_adata (select_layer_data layer d).
Proof. intros w. reflexivity. Qed.

Lemma keeps_adata_bind {A B} (c : M world A) (k : A -> M world B) :
  keeps_adata c -> (forall a, keeps_adata (k a)) -> keeps_adata (c ≫= k).
Proof.
  intros Hc Hk w. rewrite bind_run. specialize (Hc w).
  destruct (c w) as [w1 [a | e]]; cbn in *; [| exact Hc].
  rewrite Hk. exact Hc.
Qed.

Lemma keeps_adata_score_pixels lib X k method mo em vi bp cm bins :
  keeps_adata (_score_pixels lib X k method mo em vi bp cm bins).
Proof.
  intros w.
  destruct (in_tuple (lower method) valid_methods) eqn:Hm.
  - destruct (bad_shape_mask X cm) eqn:Hc.
    + rewrite score_pixels_guard_fails by auto. reflexivity.
    + destruct (bad_shape_bins X bins) eqn:Hb.
      * rewrite score_pixels_guard_fails by auto. reflexivity.
      * apply score_pixels_past_guards; assumption.
  - rewrite score_pixels_guard_fails by auto. reflexivity.
Qed.

Ltac keeps :=
  repeat first
    [ apply keeps_adata_mret | apply keeps_adata_raise | apply keeps_adata_lift
    | apply keeps_adata_ext | apply keeps_adata_select
    | apply keeps_adata_score_pixels
    | apply keeps_adata_bind; [| intros ?]
    | match goal with
      | |- keeps_adata (if ?b then _ else _) => destruct b
      | |- keeps_adata (match ?x with _ => _ end) => destruct x
      end ].

(** Run a step that keeps [adata]: name its outcome. *)
Ltac run_step w1 r A :=
  rewrite !bind_run;
  match goal with
  | |- context [let (_, _) := ?c ?w in _] =>
      let H := fresh "H" in
      assert (H : keeps_adata c) by keeps;
      specialize (H w);
      destruct (c w) as [w1 r];
      cbn [fst] in H; rename H into A
  end.

(** Where [adata] stands after a call, by outcome. *)
Lemma score_and_mask_pixels_adata (lib : SegLib) (layer : string) (k : Z)
    (method : string) (mo em vi bp : option kwargs) (threshold : option Qc)
    (mk : option Z) (bins_layer : bins_arg)
    (certain_layer scores_layer mask_layer : option string) (w w' : world)
    (r : result unit) :
  score_and_mask_pixels lib layer k method mo em vi bp threshold mk bins_layer
    certain_layer scores_layer mask_layer w = (w', r) ->
  match r with
  | Raise _ =>
      adata w' = adata w
      \/ exists scores,
           adata w' = SKM.set_layer_data (adata w)
                        (or_str scores_layer (layer ++ "_scores")%string) scores
  | Ok _ =>
      exists scores m,
        adata w' = SKM.set_layer_data
                     (SKM.set_layer_data (adata w)
                        (or_str scores_layer (layer ++ "_scores")%string) scores)
                     (or_str mask_layer (layer ++ "_mask")%string) (of_mask m)
  end.
Proof.
  unfold score_and_mask_pixels.
  run_step w1 r1 A1. destruct r1 as [X |]; [| intros [= <- <-]; auto].
  run_step w2 r2 A2. destruct r2 as [certain |]; [| intros [= <- <-]; left; congruence].
  rewrite bind_run. cbn [read_adata].
  run_step w3 r3 A3. destruct r3 as [bins |]; [| intros [= <- <-]; left; congruence].
  run_step w4 r4 A4. destruct r4 as [scores |]; [| intros [= <- <-]; left; congruence].
  rewrite bind_run, set_layer_data_run.
  assert (E : adata w4 = adata w) by (rewrite A4, A3, A2, A1; reflexivity).
  clear A1 A2 A3 A4.
  run_step w5 r5 A5. cbn [adata] in A5.
  destruct r5 as [thr |];
    [| intros [= <- <-]; right; exists scores; rewrite A5, E; reflexivity].
  run_step w6 r6 A6.
  destruct r6 as [m0 |];
    [| intros [= <- <-]; right; exists scores; rewrite A6, A5, E; reflexivity].
  run_step w7 r7 A7.
  destruct r7 as [m |];
    [| intros [= <- <-]; right; exists scores; rewrite A7, A6, A5, E; reflexivity].
  rewrite set_layer_data_run. intros [= <- <-]. exists scores, m. cbn [adata].
  rewrite A7, A6, A5, E. reflexivity.
Qed.


(** X12. Whatever its outcome, [score_and_mask_pixels] changes no layer
    other than the scores layer and the mask layer, and leaves [obs],
    [obsm] and [uns] alone. *)
Theorem score_and_mask_pixels_frame (lib : SegLib) (layer : string) (k : Z)
    (method : string) (mo em vi bp : option kwargs) (threshold : option Qc)
    (mk : option Z) (bins_layer : bins_arg)
    (certain_layer scores_layer mask_layer : option string) (w : world) (n : string) :
  n <> or_str scores_layer (layer ++ "_scores")%string ->
  n <> or_str mask_layer (layer ++ "_mask")%string ->
  let w' := (score_and_mask_pixels lib layer k method mo em vi bp threshold mk
               bins_layer certain_layer scores_layer mask_layer w).1 in
  layers (adata w') !! n = layers (adata w) !! n
  /\ obs (adata w') = obs (adata w)
  /\ obsm (adata w') = obsm (adata w)
  /\ uns (adata w') = uns (adata w).
Proof.
  intros Hs Hm. cbv zeta.
  destruct (score_and_mask_pixels _ _ _ _ _ _ _ _ _ _ _ _ _ _ w) as [w' r] eqn:E.
  apply score_and_mask_pixels_adata in E. cbn [fst].
  destruct r as [[] | e].
  - destruct E as (scores & m & ->). unfold SKM.set_layer_data.
    destruct (adata w); cbn. rewrite !lookup_insert_ne by congruence. auto.
  - destruct E as [-> | (scores & ->)]; [auto |]. unfold SKM.set_layer_data.
    destruct (adata w); cbn. rewrite lookup_insert_ne by congruence. auto.
Qed.

Lemma score_and_mask_pixels_frame_witness :
  let w' := (score_and_mask_pixels seglib "X" 3 "EM+BP" None None None None None
               None BinsNone (Some "nuclei") None None w0).1 in
  layers (adata w') !! "X" = layers (adata w0) !! "X"
  /\ obs (adata w') = obs (adata w0)
  /\ obsm (adata w') = obsm (adata w0)
  /\ uns (adata w') = uns (adata w0).
Proof.
  apply (score_and_mask_pixels_frame seglib "X" 3 "EM+BP" None None None None None
           None BinsNone (Some "nuclei") None None w0 "X"); discriminate.
Defined.

(** X11. A [bins_layer] that is not in [adata.layers] (the name given, or
    [{layer}_bins] by default) is passed over in silence: the call runs as
    with [bins_layer=False]. *)
Theorem score_and_mask_pixels_absent_bins (lib : SegLib) (layer : string) (k : Z)
    (method : string) (mo em vi bp : option kwargs) (threshold : option Qc)
    (mk : option Z) (bins_layer : bins_arg)
    (certain_layer scores_layer mask_layer : option string) (w : world) :
  or_str (match bins_layer with BinsLayer n => Some n | _ => None end)
         (layer ++ "_bins")%string ∉ dom (layers (adata w)) ->
  score_and_mask_pixels lib layer k method mo em vi bp threshold mk bins_layer
    certain_layer scores_layer mask_layer w
  = score_and_mask_pixels lib layer k method mo em vi bp threshold mk BinsFalse
      certain_layer scores_layer mask_layer w.
Proof.
  intros H. unfold score_and_mask_pixels.
  run_step w1 r1 A1. destruct r1 as [X |]; [| reflexivity].
  run_step w2 r2 A2. destruct r2 as [certain |]; [| reflexivity].
  rewrite !bind_run. cbn [read_adata]. rewrite !bind_run.
  assert (E : adata w2 = adata w) by (rewrite A2, A1; reflexivity).
  rewrite E.
  change (SKM.gen_new_layer_key layer SKM.BINS_SUFFIX) with (layer ++ "_bins")%string.
  destruct bins_layer; cbv zeta; rewrite ?bool_decide_eq_false_2 by exact H;
    reflexivity.
Qed.

Lemma score_and_mask_pixels_absent_bins_witness :
  (or_str (Some "no_such_layer") "X_bins" ∉ dom (layers (adata w0)))
  /\ score_and_mask_pixels seglib "X" 3 "gauss" None None None None None None
       (BinsLayer "no_such_layer") None None None w0
     = score_and_mask_pixels seglib "X" 3 "gauss" None None None None None None
         BinsFalse None None None w0.
Proof.
  assert (H : or_str (Some "no_such_layer") "X_bins" ∉ dom (layers (adata w0))).
  { apply not_elem_of_dom. reflexivity. }
  split; [exact H |].
  exact (score_and_mask_pixels_absent_bins seglib "X" 3 "gauss" None None None None
           None None (BinsLayer "no_such_layer") None None None w0 H).
Defined.


Lemma select_layer_data_present layer d w X0 :
  layers (adata w) !! layer = Some X0 ->
  select_layer_data layer d w
  = ({| adata := adata w; calls := calls w ++ [SelectLayer layer] |},
     Ok (if d && sparse X0 then todense X0 else X0)).
Proof.
  intros H. unfold select_layer_data, SKM.select_layer_data. rewrite H. reflexivity.
Qed.

Lemma certain_step_present (certain_layer : option string) w1 :
  (truthy_opt_str certain_layer = true ->
   default ""%string certain_layer ∈ dom (layers (adata w1))) ->
  exists certain pre,
    (if truthy_opt_str certain_layer
     then c ← select_layer_data (default ""%string certain_layer) false;
          mret (Some (astype_bool c))
     else mret None) w1
    = ({| adata := adata w1; calls := calls w1 ++ pre |}, Ok certain)
    /\ Forall is_select pre.
Proof.
  intros Hcl. destruct (truthy_opt_str certain_layer).
  - pose proof (Hcl eq_refl) as [C HC]%elem_of_dom.
    rewrite bind_run, (select_layer_data_present _ _ _ _ HC). cbn.
    exists (Some (astype_bool C)), [SelectLayer (default ""%string certain_layer)].
    split; [reflexivity | repeat constructor].
  - exists None, []. rewrite app_nil_r, world_eta. split; [reflexivity | constructor].
Qed.

Lemma bins_step_total (layer : string) (bins_layer : bins_arg) (ad : AnnData) w2 :
  layers (adata w2) = layers ad ->
  exists bins pre,
    match bins_layer with
    | BinsFalse => mret None
    | _ =>
        let bins_layer :=
          or_str (match bins_layer with BinsLayer n => Some n | _ => None end)
                 (SKM.gen_new_layer_key layer SKM.BINS_SUFFIX) in
        if bool_decide (bins_layer ∈ dom (layers ad))
        then b ← select_layer_data bins_layer false; mret (Some b)
        else mret None
    end w2 = ({| adata := adata w2; calls := calls w2 ++ pre |}, Ok bins)
    /\ Forall is_select pre.
Proof.
  intros Had.
  assert (Hnil : exists bins pre,
            (mret None : M world (option ndarray)) w2
            = ({| adata := adata w2; calls := calls w2 ++ pre |}, Ok bins)
            /\ Forall is_select pre).
  { exists None, []. rewrite app_nil_r, world_eta. split; [reflexivity | constructor]. }
  assert (Hsel : forall name, exists bins pre,
            (if bool_decide (name ∈ dom (layers ad))
             then b ← select_layer_data name false; mret (Some b)
             else mret None) w2
            = ({| adata := adata w2; calls := calls w2 ++ pre |}, Ok bins)
            /\ Forall is_select pre).
  { intros name. destruct (bool_decide _) eqn:Hd; [| exact Hnil].
    apply bool_decide_eq_true in Hd. rewrite <- Had in Hd.
    apply elem_of_dom in Hd as [B HB].
    rewrite bind_run, (select_layer_data_present _ _ _ _ HB). cbn.
    exists (Some B), [SelectLayer name]. split; [reflexivity | repeat constructor]. }
  destruct bins_layer; cbn zeta; [apply Hsel | exact Hnil | apply Hsel].
Qed.

(** X10. With an unknown method, and the layers it reads present,
    [score_and_mask_pixels] raises [PreprocessingError] after reading the
    layers only: [adata] is unchanged and no library function has been
    called. *)
Theorem score_and_mask_pixels_unknown_method (lib : SegLib) (layer : string) (k : Z)
    (method : string) (mo em vi bp : option kwargs) (threshold : option Qc)
    (mk : option Z) (bins_layer : bins_arg)
    (certain_layer scores_layer mask_layer : option string) (w : world) :
  layer ∈ dom (layers (adata w)) ->
  (truthy_opt_str certain_layer = true ->
   default ""%string certain_layer ∈ dom (layers (adata w))) ->
  in_tuple (lower method) valid_methods = false ->
  let r := score_and_mask_pixels lib layer k method mo em vi bp threshold mk
             bins_layer certain_layer scores_layer mask_layer w in
  r.2 = Raise PreprocessingError
  /\ adata r.1 = adata w
  /\ Forall is_select (drop (length (calls w)) (calls r.1)).
Proof.
  intros [X0 HX]%elem_of_dom Hcl Hm. cbv zeta. unfold score_and_mask_pixels.
  rewrite bind_run, (select_layer_data_present _ _ _ _ HX).
  set (w1 := {| adata := adata w; calls := calls w ++ [SelectLayer layer] |}).
  destruct (certain_step_present certain_layer w1 Hcl) as (certain & pre & E & Hpre).
  rewrite bind_run, E. rewrite bind_run. cbn [read_adata adata].
  set (w2 := {| adata := adata w; calls := calls w1 ++ pre |}).
  destruct (bins_step_total layer bins_layer (adata w) w2 eq_refl)
    as (bins & pre2 & E2 & Hpre2).
  rewrite bind_run. cbv beta iota zeta. cbv zeta in E2.
  change (adata w1) with (adata w). fold w2.
  rewrite E2.
  rewrite bind_run, score_pixels_guard_fails by (rewrite lower_idem; auto).
  cbn [fst snd adata calls]. split; [reflexivity |]. split; [reflexivity |].
  subst w2 w1. clear E E2. cbn [adata calls].
  rewrite <- !app_assoc, drop_app_length.
  constructor; [exact I |]. apply Forall_app; auto.
Qed.

Lemma score_and_mask_pixels_unknown_method_witness :
  let r := score_and_mask_pixels seglib "X" 3 "otsu" None None None None None None
             BinsNone (Some "nuclei") None None w0 in
  r.2 = Raise PreprocessingError
  /\ adata r.1 = adata w0
  /\ Forall is_select (drop (length (calls w0)) (calls r.1)).
Proof.
  apply (score_and_mask_pixels_unknown_method seglib "X" 3 "otsu" None None None None
           None None BinsNone (Some "nuclei") None None w0).
  - apply elem_of_dom. eexists. reflexivity.
  - intros _. apply elem_of_dom. eexists. reflexivity.
  - reflexivity.
Defined.

(** *** The masks from a staining image *)

(** X13. With the staining layer present, [mask_cells_from_stain] returns
    exactly when [otsu_index] is in the range [-n <= otsu_index < n] of the
    [n] multi-Otsu thresholds; out of that range both
    [mask_cells_from_stain] and [mask_nuclei_from_stain] raise
    [IndexError] right after the multi-Otsu call, with [adata] unchanged. *)
Theorem mask_from_stain_otsu_index (lib : SegLib) (otsu_classes : nat)
    (otsu_index local_k offset mk : Z) (layer : string)
    (out_layer : option string) (w : world) (X0 : ndarray) :
  layers (adata w) !! layer = Some X0 ->
  let n := Z.of_nat (length (threshold_multiotsu lib (dense X0) otsu_classes)) in
  let cells := mask_cells_from_stain lib otsu_classes otsu_index mk layer out_layer in
  let nuclei := mask_nuclei_from_stain lib otsu_classes otsu_index local_k offset mk
                  layer out_layer in
  let stopped :=
    ({| adata := adata w;
        calls := calls w ++ [SelectLayer layer; ThresholdMultiotsu otsu_classes] |},
     Raise IndexError : result unit) in
  ((- n <= otsu_index < n)%Z <-> (cells w).2 = Ok tt)
  /\ (~ (- n <= otsu_index < n)%Z -> cells w = stopped /\ nuclei w = stopped).
Proof.
  intros HX. cbv zeta.
  rewrite (mask_cells_from_stain_present lib otsu_classes otsu_index mk layer
             out_layer w X0 HX).
  rewrite (mask_nuclei_from_stain_present lib otsu_classes otsu_index local_k offset
             mk layer out_layer w X0 HX).
  split; [split |].
  - intros H. apply index_inside_range in H as [t ->]. reflexivity.
  - intros H.
    destruct (decide (- Z.of_nat (length (threshold_multiotsu lib (dense X0) otsu_classes))
                      <= otsu_index
                      < Z.of_nat (length (threshold_multiotsu lib (dense X0) otsu_classes)))%Z)
      as [Hr | Hr]; [exact Hr |].
    rewrite (index_outside_range _ _ Hr) in H. discriminate.
  - intros Hr. rewrite (index_outside_range _ _ Hr). split; reflexivity.
Qed.

Lemma mask_from_stain_otsu_index_witness :
  let cells := mask_cells_from_stain seglib 3 2 7 "X" None in
  let nuclei := mask_nuclei_from_stain seglib 3 2 55 5 5 "X" None in
  let stopped :=
    ({| adata := adata w0; calls := [SelectLayer "X"; ThresholdMultiotsu 3] |},
     Raise IndexError : result unit) in
  ((- 2 <= 2 < 2)%Z <-> (cells w0).2 = Ok tt)
  /\ (~ (- 2 <= 2 < 2)%Z -> cells w0 = stopped /\ nuclei w0 = stopped).
Proof.
  exact (mask_from_stain_otsu_index seglib 3 2 55 5 7 "X" None w0 img eq_refl).
Defined.

(** X14. [mask_nuclei_from_stain], when the Otsu index is in range and the
    local threshold has the shape of the image, returns after the calls
    select, multi-Otsu, local threshold (OpenCV on a [uint8] image, skimage
    otherwise), close-and-open, store. The mask handed to the morphological
    step marks the pixels that are not background (at least the Otsu
    threshold) and pass the local threshold, which is computed with the
    negated [offset]. *)
Theorem mask_nuclei_from_stain_pixels (lib : SegLib) (otsu_classes : nat)
    (otsu_index local_k offset mk : Z) (layer : string)
    (out_layer : option string) (w : world) (X0 : ndarray) (t : Qc) :
  let X := dense X0 in
  let out := or_str out_layer (layer ++ "_mask")%string in
  layers (adata w) !! layer = Some X0 ->
  index (threshold_multiotsu lib X otsu_classes) otsu_index = Ok t ->
  shp (adaptiveThreshold lib X local_k (- offset)) = shp X ->
  shp (threshold_local lib X local_k (- offset)) = shp X ->
  exists fg,
    mask_nuclei_from_stain lib otsu_classes otsu_index local_k offset mk layer
      out_layer w
    = ({| adata := SKM.set_layer_data (adata w) out
                     (of_mask (mclose_mopen lib fg mk));
          calls := calls w ++
            [SelectLayer layer; ThresholdMultiotsu otsu_classes;
             match dt X0 with uint8 => AdaptiveThreshold | _ => ThresholdLocal end;
             McloseMopen mk; SetLayer out] |}, Ok tt)
    /\ mshp fg = shp X0
    /\ forall i j, (i < (shp X0).1)%nat -> (j < (shp X0).2)%nat ->
         (mpx fg i j = true <->
          (t <= px X0 i j)%Qc
          /\ match dt X0 with
             | uint8 => px (adaptiveThreshold lib X local_k (- offset)) i j <> 0%Qc
             | _ => (px (threshold_local lib X local_k (- offset)) i j < px X0 i j)%Qc
             end).
Proof.
  cbv zeta. intros HX Ht Ha Hl.
  rewrite (mask_nuclei_from_stain_present lib otsu_classes otsu_index local_k offset
             mk layer out_layer w X0 HX), Ht.
  assert (Hdt : dt (dense X0) = dt X0) by (unfold dense; destruct (sparse X0); reflexivity).
  assert (Hpx : px (dense X0) = px X0) by (unfold dense; destruct (sparse X0); reflexivity).
  rewrite dense_shape in Ha, Hl.
  unfold local_mask, local_call. rewrite Hdt.
  assert (Hpix : forall (L : mask), mshp L = shp X0 ->
            exists fg, and_ (invert (lt_scalar (dense X0) t)) L = Ok fg
              /\ mshp fg = shp X0
              /\ forall i j, (i < (shp X0).1)%nat -> (j < (shp X0).2)%nat ->
                   (mpx fg i j = true <-> (t <= px X0 i j)%Qc /\ mpx L i j = true)).
  { intros L HL. unfold and_. cbn [invert lt_scalar mshp mpx].
    rewrite dense_shape, HL, NpFacts.broadcast_same.
    eexists. split; [reflexivity |]. split; [reflexivity |].
    intros i j Hi Hj. cbn [mpx].
    rewrite !NpFacts.bget_in_range by assumption.
    rewrite andb_true_iff, negb_true_iff, bool_decide_eq_false, Hpx.
    split; intros [H1 H2]; split; try assumption.
    - apply Qcnot_lt_le. exact H1.
    - apply Qcle_not_lt. exact H1. }
  destruct (dt X0) eqn:Ed.
  all: try (unfold gt; rewrite dense_shape, Hl, NpFacts.broadcast_same;
            cbn [mbind result_bind];
            match goal with
            | |- context [and_ _ ?L] =>
                destruct (Hpix L eq_refl) as (fg & -> & Hs & Hp)
            end;
            cbn [mbind result_bind]; exists fg;
            split; [reflexivity |]; split; [exact Hs |];
            intros i j Hi Hj; rewrite (Hp i j Hi Hj); cbn [mpx];
            rewrite !NpFacts.bget_in_range by assumption;
            rewrite bool_decide_eq_true, Hpx; reflexivity).
  cbn [mbind result_bind].
  destruct (Hpix (astype_bool (adaptiveThreshold lib (dense X0) local_k (- offset))) Ha)
    as (fg & -> & Hs & Hp).
  cbn [mbind result_bind]. exists fg.
  split; [reflexivity |]. split; [exact Hs |].
  intros i j Hi Hj. rewrite (Hp i j Hi Hj). cbn [astype_bool mpx].
  rewrite negb_true_iff, bool_decide_eq_false. reflexivity.
Qed.

Lemma mask_nuclei_from_stain_pixels_witness :
  exists fg,
    mask_nuclei_from_stain seglib 3 0 55 5 5 "nuclei" None w0
    = ({| adata := SKM.set_layer_data (adata w0) "nuclei_mask"
                     (of_mask (mclose_mopen seglib fg 5));
          calls := [SelectLayer "nuclei"; ThresholdMultiotsu 3; AdaptiveThreshold;
                    McloseMopen 5; SetLayer "nuclei_mask"] |}, Ok tt)
    /\ mshp fg = (2, 2)%nat
    /\ forall i j, (i < 2)%nat -> (j < 2)%nat ->
         (mpx fg i j = true <->
          (third <= px nuclei i j)%Qc
          /\ px (adaptiveThreshold seglib (dense nuclei) 55 (- 5)) i j <> 0%Qc).
Proof.
  apply (mask_nuclei_from_stain_pixels seglib 3 0 55 5 5 "nuclei" None w0 nuclei third);
    reflexivity.
Defined.

End IcellMore.


(** ** [find_clusters.py]: [spagcn_pyg] and [scc] *)

Module FindClustersMore.

Import FindClusters Demo FindClustersFacts NpMore.
Local Open Scope list_scope.

(** *** [spagcn_pyg] *)

(** The adjacency step: the matrix is the one [adjacency] gives, and the
    calls are those of its case. *)
Lemma adjacency_step_value lib (his_img_path total_umi : option string)
    (xa ya xp yp : list cell) (ad : AnnData) w w1 adj :
  match his_img_path with
  | None =>
      match total_umi with
      | None =>
          ext (CalculateAdjMatrix false) (calculate_adj_matrix lib xa ya None)
      | Some key =>
          total_umi ← lift (obs_tolist ad key);
          total_umi ← lift (rescale_umi (round_float lib) total_umi);
          umi_gs_img ←
            (if pivot_refused xp yp total_umi
             then raise ValueError
             else ext PivotDstack (pivot_dstack lib xp yp total_umi));
          ext (CalculateAdjMatrix true)
              (calculate_adj_matrix lib xa ya
                 (Some {| h_x_pixel := xp; h_y_pixel := yp;
                          h_image := umi_gs_img;
                          h_beta := 49; h_alpha := 1 |}))
      end
  | Some path =>
      img ← ext Imread (imread lib path);
      ext (CalculateAdjMatrix true)
          (calculate_adj_matrix lib xa ya
             (Some {| h_x_pixel := xp; h_y_pixel := yp;
                      h_image := img; h_beta := 49; h_alpha := 1 |}))
  end w = (w1, Ok adj) ->
  adjacency lib ad his_img_path total_umi xa ya xp yp = Ok adj
  /\ w1 = {| heap := heap w;
             calls := calls w ++
               match his_img_path, total_umi with
               | Some _, _ => [Imread; CalculateAdjMatrix true]
               | None, Some _ => [PivotDstack; CalculateAdjMatrix true]
               | None, None => [CalculateAdjMatrix false]
               end |}.
Proof.
  unfold adjacency.
  destruct his_img_path as [path |]; [| destruct total_umi as [key |]]; exec.
  - intros [= <- <-]. split; reflexivity.
  - destruct (obs_tolist ad key); [| discriminate]. exec. cbn [mbind result_bind].
    destruct (rescale_umi _ _) as [levels |]; [| discriminate]. exec.
    cbn [mbind result_bind].
    destruct (pivot_refused xp yp levels); [discriminate |]. exec.
    intros [= <- <-]. split; reflexivity.
  - intros [= <- <-]. split; reflexivity.
Qed.

Section Links.

Variable lib : ClusterLib.
Variables (adata : loc) (n_clusters : Z) (p : Qc) (s b : Z).
Variables (refine_shape his_img_path total_umi : option string).
Variables (x_pixel y_pixel x_array y_array : option string).
Variables (seed : Z) (copy : bool).

(** A call that returns, step by step: the coordinates and the matrix it
    computed, what it searched, trained and predicted from them, the log
    and the object it leaves. *)
Lemma spagcn_pyg_links w w' r :
  spagcn_pyg lib adata n_clusters p s b refine_shape his_img_path total_umi
    x_pixel y_pixel x_array y_array seed copy w = (w', Ok r) ->
  let ad0 := heap w !!! adata in
  exists (xa ya xp yp : list cell) (adj : matrix),
    coordinates ad0 x_pixel y_pixel x_array y_array = Ok (xa, ya, xp, yp)
    /\ adjacency lib ad0 his_img_path total_umi xa ya xp yp = Ok adj
    /\ let ad1 := with_uns (fun u => <["adj_spagcn" := UnsMatrix adj]> u) ad0 in
       let l := search_l lib p adj q_0_01 q_1000 q_0_01 100 in
       let sr := search_res lib ad1 adj l n_clusters q_0_7 q_0_1 q_5e_3 q_0_05 20
                   (seed, seed, seed) in
       let tr := train lib sr.1 adj l sr.2 q_5e_3 q_0_05 200 (seed, seed, seed) in
       let y_pred := (predict lib tr.2).1 in
       let labels := map (fun z => VStr (str_of_Z z)) y_pred in
       let df1 :=
         {| df_index := df_index (obs tr.1);
            df_cols := <["spagcn_pred" := {| col_dt := col_object; col_vals := labels |}]>
                         (df_cols (obs tr.1)) |} in
       let df2 :=
         match refine_shape with
         | None => df1
         | Some shape =>
             {| df_index := df_index (obs tr.1);
                df_cols :=
                  <["spagcn_pred_refined" :=
                      {| col_dt := col_category;
                         col_vals := refine lib (df_index (obs tr.1)) labels
                                       (calculate_adj_matrix lib xa ya None) shape |}]>
                    (df_cols df1) |}
         end in
       length y_pred = length (df_index (obs tr.1))
       /\ calls w' =
          calls w
            ++ match his_img_path, total_umi with
               | Some _, _ => [Imread; CalculateAdjMatrix true]
               | None, Some _ => [PivotDstack; CalculateAdjMatrix true]
               | None, None => [CalculateAdjMatrix false]
               end
            ++ [SetUns "adj_spagcn"; SearchL q_0_01 q_1000 q_0_01 100;
                SearchRes q_0_7 q_0_1 q_5e_3 q_0_05 20; Seed seed seed seed;
                Train sr.2 q_5e_3 q_0_05 200; Predict;
                SetObs "spagcn_pred"; SetObs "spagcn_pred"; SetObs "spagcn_pred"]
            ++ match refine_shape with
               | Some _ => [CalculateAdjMatrix false; Refine;
                            SetObs "spagcn_pred_refined"; SetObs "spagcn_pred_refined"]
               | None => []
               end
       /\ r = (if copy then Some adata else None)
       /\ heap w' = <[adata := with_obs (fun _ => df2) tr.1]> (heap w).
Proof.
  unfold spagcn_pyg, coordinates. exec.
  destruct (match x_array with None => _ | Some _ => _ end) as [xa | e]; [| discriminate].
  exec. cbn [mbind result_bind].
  destruct (match y_array with None => _ | Some _ => _ end) as [ya | e]; [| discriminate].
  exec. cbn [mbind result_bind].
  destruct (match x_pixel with None => _ | Some _ => _ end) as [xp | e]; [| discriminate].
  exec. cbn [mbind result_bind].
  destruct (match y_pixel with None => _ | Some _ => _ end) as [yp | e]; [| discriminate].
  exec. cbn [mbind result_bind].
  match goal with
  | |- context [let (_, _) := ?c w in _] =>
      destruct (c w) as [w1 [adj | e]] eqn:Hadj; [| discriminate]
  end.
  apply adjacency_step_value in Hadj as (Hval & ->).
  exec.
  destruct (search_res lib _ _ _ _ _ _ _ _ _ _) as [ad_s res] eqn:Hres.
  cbn [fst snd].
  destruct (train lib _ _ _ _ _ _ _ _) as [ad_t clf] eqn:Htrain.
  cbn [fst snd].
  destruct (predict lib clf) as [y_pred prob] eqn:Hpred.
  exec.
  unfold df_set at 1. cbn [col_vals].
  destruct (_ =? _)%nat eqn:Hlen; [| discriminate].
  rewrite length_map in Hlen.
  exec. cbn [obs with_obs df_cols df_index]. rewrite lookup_insert_eq.
  exec.
  unfold df_set at 1.
  cbn [col_vals astype_category obs with_obs df_index df_cols].
  rewrite length_map, Hlen, insert_insert_eq.
  exec. cbn [obs with_obs df_cols df_index]. rewrite lookup_insert_eq.
  exec.
  unfold df_set at 1.
  cbn [col_vals astype_category obs with_obs df_index df_cols].
  rewrite !length_map, Hlen, insert_insert_eq.
  exec. rewrite map_map. cbn [py_str].
  apply Nat.eqb_eq in Hlen.
  destruct refine_shape as [shape |]; exec.
  - unfold obs_tolist. cbn [obs with_obs df_cols df_index col_vals].
    rewrite lookup_insert_eq. exec.
    unfold df_set at 1. cbn [col_vals obs with_obs df_index df_cols].
    destruct (_ =? _)%nat eqn:Hlen2; [| discriminate].
    exec. cbn [obs with_obs df_cols df_index]. rewrite lookup_insert_eq.
    exec. unfold df_set at 1.
    cbn [col_vals astype_category obs with_obs df_index df_cols].
    rewrite Hlen2, insert_insert_eq. exec.
    destruct copy; exec; intros [= <- <-]; cbn [heap calls].
    all: exists xa, ya, xp, yp, adj; cbv zeta; rewrite Hres; cbn [fst snd];
      rewrite Htrain; cbn [fst snd]; rewrite Hpred; cbn [fst snd].
    all: split; [reflexivity |]; split; [exact Hval |].
    all: split; [exact Hlen |]; split; [| split; reflexivity].
    all: rewrite <- ?app_assoc; destruct his_img_path, total_umi; reflexivity.
  - destruct copy; exec; intros [= <- <-]; cbn [heap calls].
    all: exists xa, ya, xp, yp, adj; cbv zeta; rewrite Hres; cbn [fst snd];
      rewrite Htrain; cbn [fst snd]; rewrite Hpred; cbn [fst snd].
    all: split; [reflexivity |]; split; [exact Hval |].
    all: split; [exact Hlen |]; split; [| split; reflexivity].
    all: rewrite <- ?app_assoc; destruct his_img_path, total_umi; reflexivity.
Qed.

End Links.

(** X15. A call of [spagcn_pyg] that returns has made these calls, in this
    order: the adjacency calls of its case (the image read or the pivot
    of the grey levels, then [calculate_adj_matrix]), the store of
    [uns["adj_spagcn"]], [search_l] from 0.01 to 1000 with tolerance 0.01
    in at most 100 runs, [search_res] from 0.7 in steps of 0.1, the seeding
    of the three generators with [seed], [train] for 200 epochs with the
    resolution that [search_res] returned for the matrix and the [l] found,
    [predict], and three stores of the labels; with [refine_shape] the
    refinement and its two stores follow. *)
Theorem spagcn_pyg_call_order (lib : ClusterLib) (adata : loc) (n_clusters : Z)
    (p : Qc) (s b : Z) (refine_shape his_img_path total_umi : option string)
    (x_pixel y_pixel x_array y_array : option string) (seed : Z) (copy : bool)
    (w w' : world) (r : option loc) :
  spagcn_pyg lib adata n_clusters p s b refine_shape his_img_path total_umi
    x_pixel y_pixel x_array y_array seed copy w = (w', Ok r) ->
  let ad0 := heap w !!! adata in
  exists (xa ya xp yp : list cell) (adj : matrix),
    coordinates ad0 x_pixel y_pixel x_array y_array = Ok (xa, ya, xp, yp)
    /\ adjacency lib ad0 his_img_path total_umi xa ya xp yp = Ok adj
    /\ let ad1 := with_uns (fun u => <["adj_spagcn" := UnsMatrix adj]> u) ad0 in
       let l := search_l lib p adj q_0_01 q_1000 q_0_01 100 in
       let res := (search_res lib ad1 adj l n_clusters q_0_7 q_0_1 q_5e_3 q_0_05 20
                     (seed, seed, seed)).2 in
       calls w' =
       calls w
         ++ match his_img_path, total_umi with
            | Some _, _ => [Imread; CalculateAdjMatrix true]
            | None, Some _ => [PivotDstack; CalculateAdjMatrix true]
            | None, None => [CalculateAdjMatrix false]
            end
         ++ [SetUns "adj_spagcn"; SearchL q_0_01 q_1000 q_0_01 100;
             SearchRes q_0_7 q_0_1 q_5e_3 q_0_05 20; Seed seed seed seed;
             Train res q_5e_3 q_0_05 200; Predict;
             SetObs "spagcn_pred"; SetObs "spagcn_pred"; SetObs "spagcn_pred"]
         ++ match refine_shape with
            | Some _ => [CalculateAdjMatrix false; Refine;
                         SetObs "spagcn_pred_refined"; SetObs "spagcn_pred_refined"]
            | None => []
            end.
Proof.
  intros H. cbv zeta.
  apply spagcn_pyg_links in H
    as (xa & ya & xp & yp & adj & Hco & Hadj & _ & Hcalls & _).
  exists xa, ya, xp, yp, adj. split; [exact Hco |]. split; [exact Hadj |].
  exact Hcalls.
Qed.

Lemma spagcn_pyg_call_order_witness :
  calls (spagcn_pyg clusterlib 0 2 half 1 49 None None None None None None None
           100 false cw0).1
  = [CalculateAdjMatrix false; SetUns "adj_spagcn";
     SearchL q_0_01 q_1000 q_0_01 100; SearchRes q_0_7 q_0_1 q_5e_3 q_0_05 20;
     Seed 100 100 100; Train q_0_7 q_5e_3 q_0_05 200; Predict;
     SetObs "spagcn_pred"; SetObs "spagcn_pred"; SetObs "spagcn_pred"].
Proof.
  assert (E : spagcn_pyg clusterlib 0 2 half 1 49 None None None None None None None
                100 false cw0
              = ((spagcn_pyg clusterlib 0 2 half 1 49 None None None None None None
                    None 100 false cw0).1, Ok None)).
  { apply run_ok_eq. vm_compute. reflexivity. }
  destruct (spagcn_pyg_call_order _ _ _ _ _ _ _ _ _ _ _ _ _ _ _ _ _ _ E)
    as (xa & ya & xp & yp & adj & _ & _ & Hcalls).
  rewrite Hcalls. reflexivity.
Defined.

(** X16. After a call of [spagcn_pyg] that returns,
    [adata.obs["spagcn_pred"]] is a column of dtype [object] holding, as
    strings, the labels that the classifier trained on the matrix
    predicts, one per observation; with [refine_shape],
    [adata.obs["spagcn_pred_refined"]] is categorical and holds what
    [refine] makes of those labels and the plain adjacency of the
    coordinates. *)
Theorem spagcn_pyg_labels (lib : ClusterLib) (adata : loc) (n_clusters : Z)
    (p : Qc) (s b : Z) (refine_shape his_img_path total_umi : option string)
    (x_pixel y_pixel x_array y_array : option string) (seed : Z) (copy : bool)
    (w w' : world) (r : option loc) :
  spagcn_pyg lib adata n_clusters p s b refine_shape his_img_path total_umi
    x_pixel y_pixel x_array y_array seed copy w = (w', Ok r) ->
  let ad0 := heap w !!! adata in
  let obs' := obs (heap w' !!! adata) in
  exists (xa ya xp yp : list cell) (adj : matrix),
    coordinates ad0 x_pixel y_pixel x_array y_array = Ok (xa, ya, xp, yp)
    /\ adjacency lib ad0 his_img_path total_umi xa ya xp yp = Ok adj
    /\ let ad1 := with_uns (fun u => <["adj_spagcn" := UnsMatrix adj]> u) ad0 in
       let l := search_l lib p adj q_0_01 q_1000 q_0_01 100 in
       let sr := search_res lib ad1 adj l n_clusters q_0_7 q_0_1 q_5e_3 q_0_05 20
                   (seed, seed, seed) in
       let clf := (train lib sr.1 adj l sr.2 q_5e_3 q_0_05 200 (seed, seed, seed)).2 in
       let y_pred := (predict lib clf).1 in
       let labels := map (fun z => VStr (str_of_Z z)) y_pred in
       df_cols obs' !! "spagcn_pred"%string
       = Some {| col_dt := col_object; col_vals := labels |}
       /\ length y_pred = length (df_index obs')
       /\ (forall shape, refine_shape = Some shape ->
             df_cols obs' !! "spagcn_pred_refined"%string
             = Some {| col_dt := col_category;
                       col_vals := refine lib (df_index obs') labels
                                     (calculate_adj_matrix lib xa ya None) shape |}).
Proof.
  intros H. cbv zeta.
  apply spagcn_pyg_links in H
    as (xa & ya & xp & yp & adj & Hco & Hadj & Hlen & _ & _ & Hheap).
  exists xa, ya, xp, yp, adj. split; [exact Hco |]. split; [exact Hadj |].
  rewrite Hheap, lookup_total_insert_eq. cbn [obs with_obs].
  destruct refine_shape as [shape |]; cbn [df_cols df_index].
  - split; [rewrite lookup_insert_ne by discriminate; apply lookup_insert_eq |].
    split; [exact Hlen |].
    intros shape' [= <-]. apply lookup_insert_eq.
  - split; [apply lookup_insert_eq |]. split; [exact Hlen |]. discriminate.
Qed.

Lemma spagcn_pyg_labels_witness :
  let obs' := obs (heap (spagcn_pyg clusterlib 0 2 half 1 49 (Some "square") None None
                           None None None None 100 false cw0).1 !!! 0%nat) in
  df_cols obs' !! "spagcn_pred"%string
  = Some {| col_dt := col_object; col_vals := [VStr "0"; VStr "1"] |}
  /\ df_cols obs' !! "spagcn_pred_refined"%string
     = Some {| col_dt := col_category; col_vals := [VStr "0"; VStr "1"] |}.
Proof.
  cbv zeta.
  assert (E : spagcn_pyg clusterlib 0 2 half 1 49 (Some "square") None None None None
                None None 100 false cw0
              = ((spagcn_pyg clusterlib 0 2 half 1 49 (Some "square") None None None
                    None None None 100 false cw0).1, Ok None)).
  { apply run_ok_eq. vm_compute. reflexivity. }
  destruct (spagcn_pyg_labels _ _ _ _ _ _ _ _ _ _ _ _ _ _ _ _ _ _ E)
    as (xa & ya & xp & yp & adj & _ & _ & Hpred & _ & Href).
  split; [exact Hpred |]. exact (Href "square" eq_refl).
Defined.

(** X17. [spagcn_pyg] works on the object it is given: a call that returns
    has changed no other object of the store and added none, and its
    result is the reference [adata] itself with [copy=True] and [None]
    otherwise. *)
Theorem spagcn_pyg_in_place (lib : ClusterLib) (adata : loc) (n_clusters : Z)
    (p : Qc) (s b : Z) (refine_shape his_img_path total_umi : option string)
    (x_pixel y_pixel x_array y_array : option string) (seed : Z) (copy : bool)
    (w w' : world) (r : option loc) :
  spagcn_pyg lib adata n_clusters p s b refine_shape his_img_path total_umi
    x_pixel y_pixel x_array y_array seed copy w = (w', Ok r) ->
  r = (if copy then Some adata else None)
  /\ dom (heap w') = {[adata]} ∪ dom (heap w)
  /\ forall l, l <> adata -> heap w' !! l = heap w !! l.
Proof.
  intros H.
  apply spagcn_pyg_returns in H
    as (pre & adj & res & y_pred & obj & _ & _ & _ & Hr & Hheap & _).
  split; [exact Hr |]. rewrite Hheap. split; [apply dom_insert_L |].
  intros l Hl. apply lookup_insert_ne. congruence.
Qed.

Lemma spagcn_pyg_in_place_witness :
  let w' := (spagcn_pyg clusterlib 0 2 half 1 49 None None None None None None None
               100 true cw0).1 in
  Some 0%nat = (if true then Some 0%nat else None)
  /\ dom (heap w') = {[0%nat]} ∪ dom (heap cw0)
  /\ forall l, l <> 0%nat -> heap w' !! l = heap cw0 !! l.
Proof.
  apply (spagcn_pyg_in_place clusterlib 0 2 half 1 49 None None None None None None
           None 100 true cw0 _ (Some 0%nat)).
  apply run_ok_eq. vm_compute. reflexivity.
Defined.

(** X18. When the x coordinates cannot be read ([x_array] is not a column
    of [adata.obs] or, with [x_array=None], [adata.obsm] has no
    ["X_spatial"]), [spagcn_pyg] raises [KeyError] at once: nothing has
    been called and the store is as it was. *)
Theorem spagcn_pyg_missing_coordinates (lib : ClusterLib) (adata : loc)
    (n_clusters : Z) (p : Qc) (s b : Z)
    (refine_shape his_img_path total_umi : option string)
    (x_pixel y_pixel x_array y_array : option string) (seed : Z) (copy : bool)
    (w : world) :
  match x_array with
  | None => obsm (heap w !!! adata) !! "X_spatial"%string = None
  | Some key => df_cols (obs (heap w !!! adata)) !! key = None
  end ->
  spagcn_pyg lib adata n_clusters p s b refine_shape his_img_path total_umi
    x_pixel y_pixel x_array y_array seed copy w = (w, Raise KeyError).
Proof.
  intros H. unfold spagcn_pyg. exec.
  destruct x_array as [key |].
  - unfold obs_tolist. rewrite H. reflexivity.
  - unfold spatial_column, obsm_get. rewrite H. reflexivity.
Qed.

Lemma spagcn_pyg_missing_coordinates_witness :
  spagcn_pyg clusterlib 0 2 half 1 49 None None None None None (Some "x") None 100
    false cw0 = (cw0, Raise KeyError).
Proof.
  apply (spagcn_pyg_missing_coordinates clusterlib 0 2 half 1 49 None None None None
           None (Some "x") None 100 false cw0).
  reflexivity.
Defined.

(** *** The grey levels made from the UMI counts *)

Lemma mapR_ok_lookup {A B} (f : A -> result B) l ys i x :
  mapR f l = Ok ys -> l !! i = Some x -> exists y, f x = Ok y /\ ys !! i = Some y.
Proof.
  revert ys i. induction l as [| a l IH]; intros ys i; cbn [mapR].
  - intros _ Hi. rewrite lookup_nil in Hi. discriminate.
  - destruct (f a) as [y0 |] eqn:E; [| discriminate]. cbn [mbind result_bind].
    destruct (mapR f l) as [ys' |]; [| discriminate]. cbn [mbind result_bind].
    intros [= <-]. destruct i as [| i]; cbn.
    + intros [= <-]. eauto.
    + intros Hi. exact (IH ys' i eq_refl Hi).
Qed.

Lemma q255 : (Q2Qc (inject_Z 254) + 1)%Qc = Q2Qc (inject_Z 255).
Proof. apply Qc_is_canon. reflexivity. Qed.

Lemma trunc_range (q : Qc) :
  (1 <= q)%Qc -> (q <= Q2Qc (inject_Z 255))%Qc -> (1 <= trunc q <= 255)%Z.
Proof.
  unfold Qcle, Qle, trunc. cbn. intros H1 H2.
  change (Qred 1) with (1 # 1)%Q in H1.
  change (Qred (inject_Z 255)) with (255 # 1)%Q in H2.
  cbn [Qnum Qden] in H1, H2.
  assert (Hd : (0 < Z.pos (Qden q))%Z) by lia.
  rewrite Z.quot_div_nonneg by lia. split.
  - apply Z.div_le_lower_bound; lia.
  - apply Z.div_le_upper_bound; lia.
Qed.

Section Rounding.

Variable fl : Qc -> Qc.
Hypothesis fl_monotone : forall a b, (a <= b)%Qc -> (fl a <= fl b)%Qc.
Hypothesis fl_0 : fl 0%Qc = 0%Qc.
Hypothesis fl_1 : fl 1%Qc = 1%Qc.
Hypothesis fl_254 : fl (Q2Qc (inject_Z 254)) = Q2Qc (inject_Z 254).
Hypothesis fl_255 : fl (Q2Qc (inject_Z 255)) = Q2Qc (inject_Z 255).

Lemma rescaled_range (x m : Qc) :
  (0 <= x)%Qc -> (x <= m)%Qc -> (0 < m)%Qc ->
  (1 <= trunc (fl (fl (fl (x / m) * Q2Qc (inject_Z 254)) + 1)) <= 255)%Z.
Proof.
  intros H0 Hx Hm.
  assert (Hinv : (0 <= / m)%Qc) by apply Qclt_le_weak, Qcinv_pos, Hm.
  assert (Hm0 : m <> 0%Qc) by (intros ->; exact (Qclt_not_le _ _ Hm (Qcle_refl 0))).
  assert (Hlo : (0 <= fl (x / m))%Qc).
  { rewrite <- fl_0. apply fl_monotone. unfold Qcdiv.
    replace 0%Qc with (0 * / m)%Qc by ring.
    apply Qcmult_le_compat_r; assumption. }
  assert (Hhi : (fl (x / m) <= 1)%Qc).
  { rewrite <- fl_1. apply fl_monotone.
    unfold Qcdiv. rewrite <- (Qcmult_inv_r m) by exact Hm0.
    apply Qcmult_le_compat_r; assumption. }
  assert (H254 : (0 <= Q2Qc (inject_Z 254))%Qc) by done.
  assert (Hlo2 : (0 <= fl (fl (x / m) * Q2Qc (inject_Z 254)))%Qc).
  { rewrite <- fl_0. apply fl_monotone.
    replace 0%Qc with (0 * Q2Qc (inject_Z 254))%Qc by ring.
    apply Qcmult_le_compat_r; assumption. }
  assert (Hhi2 : (fl (fl (x / m) * Q2Qc (inject_Z 254)) <= Q2Qc (inject_Z 254))%Qc).
  { rewrite <- fl_254 at 2. apply fl_monotone.
    replace (Q2Qc (inject_Z 254)) with (1 * Q2Qc (inject_Z 254))%Qc at 2 by ring.
    apply Qcmult_le_compat_r; assumption. }
  apply trunc_range.
  - rewrite <- fl_1 at 1. apply fl_monotone.
    replace 1%Qc with (0 + 1)%Qc at 1 by ring.
    apply Qcplus_le_compat; [assumption | apply Qcle_refl].
  - rewrite <- fl_255. apply fl_monotone. rewrite <- q255.
    apply Qcplus_le_compat; [assumption | apply Qcle_refl].
Qed.

Lemma rescaled_max (m : Qc) :
  m <> 0%Qc -> trunc (fl (fl (fl (m / m) * Q2Qc (inject_Z 254)) + 1)) = 255%Z.
Proof.
  intros Hm. unfold Qcdiv. rewrite Qcmult_inv_r by exact Hm. rewrite fl_1.
  replace (1 * Q2Qc (inject_Z 254))%Qc with (Q2Qc (inject_Z 254)) by ring.
  rewrite fl_254, q255, fl_255. reflexivity.
Qed.

End Rounding.

(** X19. The grey levels made from the UMI counts, for any rounding of
    the three float operations that is monotone and exact on 0, 1, 254 and
    255 (as rounding to the nearest float is): with counts that are not
    negative there is one level per spot, every level lies between 1 and
    255, and every spot whose count is the largest has level 255. *)
Theorem rescale_umi_range (fl : Qc -> Qc) (total_umi : list cell) (zs : list Z) :
  (forall a b, (a <= b)%Qc -> (fl a <= fl b)%Qc) ->
  fl 0%Qc = 0%Qc -> fl 1%Qc = 1%Qc ->
  fl (Q2Qc (inject_Z 254)) = Q2Qc (inject_Z 254) ->
  fl (Q2Qc (inject_Z 255)) = Q2Qc (inject_Z 255) ->
  (forall v q, In v total_umi -> cell_num v = Ok q -> (0 <= q)%Qc) ->
  rescale_umi fl total_umi = Ok zs ->
  length zs = length total_umi
  /\ (forall z, In z zs -> (1 <= z <= 255)%Z)
  /\ (forall i v q,
        total_umi !! i = Some v -> cell_num v = Ok q ->
        (forall v' q', In v' total_umi -> cell_num v' = Ok q' -> (q' <= q)%Qc) ->
        zs !! i = Some 255%Z).
Proof.
  intros Hmono H0 H1 H254 H255 Hpos H. unfold rescale_umi in H.
  destruct (mapR cell_num total_umi) as [nums |] eqn:Hn; [| discriminate].
  cbn [mbind result_bind] in H.
  pose proof (mapR_ok_length _ _ _ Hn) as Hlen.
  destruct nums as [| x r].
  { injection H as <-. split; [exact Hlen |]. split; [intros z [] |].
    intros i v q Hi. destruct total_umi; [| discriminate].
    rewrite lookup_nil in Hi. discriminate. }
  cbv zeta in H.
  destruct (bool_decide_reflect (fold_left Qc_max r x = 0%Qc)) as [E | E];
    [discriminate |].
  assert (Hzs : zs = map (fun y => trunc (fl (fl (fl (y / fold_left Qc_max r x)
                                                  * Q2Qc (inject_Z 254)) + 1))%Qc)
                         (x :: r))
    by (injection H as <-; reflexivity).
  clear H. subst zs.
  set (m := fold_left Qc_max r x) in *.
  assert (Hnn : forall y, In y (x :: r) -> (0 <= y)%Qc /\ (y <= m)%Qc).
  { intros y Hy. split.
    - destruct (mapR_ok_in _ _ _ _ Hn Hy) as (v & Hv & Hc). eapply Hpos; eassumption.
    - destruct Hy as [<- | Hy];
        [apply fold_left_Qc_max_ge_init | apply fold_left_Qc_max_ge, Hy]. }
  assert (Hm : (0 < m)%Qc).
  { destruct (Hnn m (fold_left_Qc_max_in r x)) as [Hm0 _].
    apply Qcle_lt_or_eq in Hm0 as [Hm0 | Hm0]; [exact Hm0 | congruence]. }
  split; [rewrite length_map; exact Hlen |]. split.
  - intros z Hz. apply in_map_iff in Hz as (y & <- & Hy).
    destruct (Hnn y Hy). apply rescaled_range; assumption.
  - intros i v q Hi Hq Hmax.
    destruct (mapR_ok_lookup _ _ _ _ _ Hn Hi) as (y & Hy & Hyi).
    assert (y = q) as -> by congruence.
    assert (q = m) as ->.
    { apply Qcle_antisym.
      - apply Hnn. eapply list_elem_of_In, list_elem_of_lookup_2, Hyi.
      - destruct (mapR_ok_in _ _ _ _ Hn (fold_left_Qc_max_in r x)) as (v' & Hv' & Hc').
        eapply Hmax; eassumption. }
    change (map ?f ?l) with (f <$> l). rewrite list_lookup_fmap, Hyi. cbn.
    rewrite rescaled_max by assumption. reflexivity.
Qed.

Lemma rescale_umi_range_witness :
  length [128%Z; 255%Z; 1%Z; 255%Z] = length [VInt 1; VInt 2; VInt 0; VNum (Q2Qc 2)]
  /\ (forall z, In z [128%Z; 255%Z; 1%Z; 255%Z] -> (1 <= z <= 255)%Z)
  /\ [128%Z; 255%Z; 1%Z; 255%Z] !! 3%nat = Some 255%Z.
Proof.
  destruct (rescale_umi_range (fun q => q) [VInt 1; VInt 2; VInt 0; VNum (Q2Qc 2)]
              [128%Z; 255%Z; 1%Z; 255%Z]) as (Hl & Hr & Hmax).
  - intros a b Hab. exact Hab.
  - reflexivity.
  - reflexivity.
  - reflexivity.
  - reflexivity.
  - intros v q [<- | [<- | [<- | [<- | []]]]] [= <-]; done.
  - vm_compute. reflexivity.
  - split; [exact Hl |]. split; [exact Hr |].
    apply (Hmax 3%nat (VNum (Q2Qc 2)) (Q2Qc 2)); [reflexivity | reflexivity |].
    intros v' q' [<- | [<- | [<- | [<- | []]]]] [= <-]; done.
Defined.

(** X20. Making the grey levels raises [TypeError] when a count is a
    string and [ZeroDivisionError] when there are counts and all are 0;
    with no spot at all it gives the empty list. *)
Theorem rescale_umi_errors (fl : Qc -> Qc) (total_umi : list cell) :
  ((exists s, In (VStr s) total_umi) -> rescale_umi fl total_umi = Raise TypeError)
  /\ (total_umi <> [] ->
      (forall v, In v total_umi -> cell_num v = Ok 0%Qc) ->
      rescale_umi fl total_umi = Raise ZeroDivisionError)
  /\ (total_umi = [] -> rescale_umi fl total_umi = Ok []).
Proof.
  split; [| split].
  - intros [s Hs]. unfold rescale_umi.
    rewrite (mapR_raises cell_num total_umi (VStr s) TypeError Hs); [reflexivity | |].
    + intros [] e'; cbn; congruence.
    + reflexivity.
  - intros Hne Hz. unfold rescale_umi.
    destruct (mapR cell_num total_umi) as [nums | e] eqn:Hn.
    + cbn [mbind result_bind].
      assert (Hall : forall y, In y nums -> y = 0%Qc).
      { intros y Hy. destruct (mapR_ok_in _ _ _ _ Hn Hy) as (v & Hv & Hc).
        rewrite (Hz v Hv) in Hc. congruence. }
      destruct nums as [| x r].
      * apply mapR_ok_length in Hn. destruct total_umi; [congruence | discriminate].
      * cbv zeta. rewrite bool_decide_eq_true_2; [reflexivity |].
        apply Hall, fold_left_Qc_max_in.
    + exfalso. clear Hne. induction total_umi as [| v l IH]; [discriminate |].
      cbn in Hn. rewrite (Hz v (or_introl eq_refl)) in Hn. cbn in Hn.
      destruct (mapR cell_num l) eqn:El; [discriminate |].
      apply IH; [| exact Hn]. intros v' Hv'. apply Hz. right. exact Hv'.
  - intros ->. reflexivity.
Qed.

Lemma rescale_umi_errors_witness :
  rescale_umi (fun q => q) [VInt 3; VStr "n/a"] = Raise TypeError
  /\ rescale_umi (fun q => q) [VInt 0; VNum 0%Qc] = Raise ZeroDivisionError.
Proof.
  destruct (rescale_umi_errors (fun q => q) [VInt 3; VStr "n/a"]) as (H1 & _ & _).
  destruct (rescale_umi_errors (fun q => q) [VInt 0; VNum 0%Qc]) as (_ & H2 & _).
  split.
  - apply H1. exists "n/a". right. left. reflexivity.
  - apply H2; [discriminate |].
    intros v [<- | [<- | []]];
      [cbn; f_equal; apply Qc_is_canon; reflexivity | reflexivity].
Defined.

(** *** [scc] *)

(** X21. A [cluster_method] that is neither "leiden" nor "louvain" is not
    rejected: [scc] returns normally, having run no clustering, its last
    call being the adjacency computation. *)
Theorem scc_unknown_cluster_method (lib : ClusterLib) (adata : loc)
    (min_genes min_cells : Z) (spatial_key : string) (key_added : option string)
    (e_neigh s_neigh : Z) (cluster_method : pystr) (resolution : option Qc)
    (debatch : bool) (batch_key : option string) (max_iter_harmony : Z)
    (copy : bool) (w : world) :
  str_val cluster_method <> "leiden"%string ->
  str_val cluster_method <> "louvain"%string ->
  let r := scc lib adata min_genes min_cells spatial_key key_added None
             e_neigh s_neigh cluster_method resolution debatch batch_key
             max_iter_harmony copy w in
  r.2 = Ok (if copy then Some adata else None)
  /\ clustering_calls (calls r.1) = clustering_calls (calls w)
  /\ last (calls r.1) = Some SpatialAdjDyn.
Proof.
  intros H1 H2. cbv zeta. rewrite scc_run_none. cbn [fst snd calls].
  assert (E1 : py_is cluster_method (Interned "leiden") = false).
  { destruct cluster_method as [v | a v]; [| reflexivity].
    cbn [py_is]. apply String.eqb_neq. exact H1. }
  assert (E2 : py_is cluster_method (Interned "louvain") = false).
  { destruct cluster_method as [v | a v]; [| reflexivity].
    cbn [py_is]. apply String.eqb_neq. exact H2. }
  unfold scc_calls. rewrite E1, E2.
  split; [reflexivity |]. split.
  - rewrite clustering_calls_app. destruct debatch; cbn; apply app_nil_r.
  - rewrite app_nil_r, !app_assoc. apply last_snoc.
Qed.

Lemma scc_unknown_cluster_method_witness :
  let r := scc clusterlib 0 500 100 "spatial" (Some "leiden") None 30 6
             (Interned "kmeans") None false (Some "slice") 10 false cw0 in
  r.2 = Ok None
  /\ clustering_calls (calls r.1) = clustering_calls (calls cw0)
  /\ last (calls r.1) = Some SpatialAdjDyn.
Proof.
  apply (scc_unknown_cluster_method clusterlib 0 500 100 "spatial" (Some "leiden") 30 6
           (Interned "kmeans") None false (Some "slice") 10 false cw0); discriminate.
Defined.

End FindClustersMore.
